(** * Water station backend: pricing, one-time codes, station verification

    A shallow embedding of the JavaScript services of the water-station
    backend, and the properties of its specification proved (or refuted)
    against that embedding.

    Layout of the development:
    - [Js]        JavaScript numbers as far as the code uses them;
    - [Pricing]   [config/pricing.config.js], [utils/pricingCalculator.js]
                  and the preview entry point of [mpesaPaymentService.js];
    - [OtpGenerator]  [utils/otpGenerator.js];
    - [Regex], [PhoneValidator], [TransactionReference]  the anchored
                  patterns of the validators, [utils/phoneValidator.js]
                  and [utils/transactionReference.js];
    - [SmsService], [DarajaService]  the retry loop and the response
                  parser of [smsService.js]; the token cache and the
                  timestamp of [darajaService.js];
    - [Store]     the tables [otps], [transactions], [mpesa_transactions]
                  and the Redis cache, with the repositories' queries;
    - [Services]  [otpService.js], [stationOtpService.js] with their
                  status queries, [otpExpirationService.js] and the
                  callback handler of [mpesaPaymentService.js];
    - [History]   sequences of calls, the table invariant, and a small
                  deployment to run the services on;
    - [PricingSpec], [GeneratorSpec], [CredentialSpec]  the properties
                  of the specification;
    - [PricingLaws], [GeneratorLaws], [PhoneSpec], [ReferenceSpec],
      [SmsSpec], [DarajaSpec], [LifecycleSpec], [CallbackSpec]  further
                  properties of the code, with [RegexFacts] for the
                  patterns.

    Conventions.  Finite IEEE doubles are idealised as exact rationals
    ([Qc]); NaN and the two infinities are kept, because the code's
    comparisons treat them specially.  Timestamps are integers
    (milliseconds).  Every service call receives the instants it reads
    from its clocks as arguments: [tdb] is the database's [NOW()] at
    the lookup, [now] is the later [new Date()] of the JavaScript side
    (also used for the writes that follow it). *)

From Stdlib Require Import ZArith QArith Qcanon Qround Lia Lqa.
From Stdlib Require Import String Ascii List DecimalString DecimalN.
From stdpp Require Import gmap strings list.

Open Scope Z_scope.

(** ** Results of fallible calls *)

Inductive result (E A : Type) : Type :=
| Ok (a : A)
| Err (e : E).
Arguments Ok {E A} a.
Arguments Err {E A} e.

(** ** JavaScript numbers *)

Module Js.

Inductive num : Type :=
| NaN
| PInf
| NInf
| Fin (q : Qc).

Definition Zq (z : Z) : Qc := Q2Qc (inject_Z z).

Definition half : Qc := Q2Qc (1 # 2).

Definition of_Z (z : Z) : num := Fin (Zq z).

Definition isNaN (a : num) : bool :=
  match a with NaN => true | _ => false end.


(** [a < b]; every comparison with NaN is false. *)
Definition lt (a b : num) : bool :=
  match a, b with
  | NaN, _ | _, NaN => false
  | Fin x, Fin y => bool_decide (x < y)%Qc
  | NInf, NInf => false
  | NInf, _ => true
  | Fin _, PInf => true
  | PInf, _ => false
  | Fin _, NInf => false
  end.

(** [a <= b]. *)
Definition le (a b : num) : bool :=
  match a, b with
  | NaN, _ | _, NaN => false
  | Fin x, Fin y => bool_decide (x <= y)%Qc
  | NInf, _ => true
  | _, PInf => true
  | PInf, _ => false
  | Fin _, NInf => false
  end.

Definition gt (a b : num) : bool := lt b a.

(** Truthiness of a number: [0] and [NaN] are falsy. *)
Definition truthy (a : num) : bool :=
  match a with
  | NaN => false
  | Fin q => negb (bool_decide (q = Zq 0))
  | _ => true
  end.

Definition sign_pos (q : Qc) : bool := bool_decide (Zq 0 < q)%Qc.

(** [a * b] *)
Definition mul (a b : num) : num :=
  match a, b with
  | NaN, _ | _, NaN => NaN
  | Fin x, Fin y => Fin (x * y)%Qc
  | Fin x, PInf | PInf, Fin x =>
      if bool_decide (x = Zq 0) then NaN else if sign_pos x then PInf else NInf
  | Fin x, NInf | NInf, Fin x =>
      if bool_decide (x = Zq 0) then NaN else if sign_pos x then NInf else PInf
  | PInf, PInf | NInf, NInf => PInf
  | PInf, NInf | NInf, PInf => NInf
  end.

(** [a / b] *)
Definition div (a b : num) : num :=
  match a, b with
  | NaN, _ | _, NaN => NaN
  | Fin x, Fin y =>
      if bool_decide (y = Zq 0)
      then (if bool_decide (x = Zq 0) then NaN
            else if sign_pos x then PInf else NInf)
      else Fin (x / y)%Qc
  | Fin _, _ => Fin (Zq 0)
  | PInf, Fin y => if sign_pos y || bool_decide (y = Zq 0) then PInf else NInf
  | NInf, Fin y => if sign_pos y || bool_decide (y = Zq 0) then NInf else PInf
  | _, _ => NaN
  end.

(** [a - b] *)
Definition sub (a b : num) : num :=
  match a, b with
  | NaN, _ | _, NaN => NaN
  | Fin x, Fin y => Fin (x - y)%Qc
  | PInf, PInf | NInf, NInf => NaN
  | PInf, _ => PInf
  | NInf, _ => NInf
  | Fin _, PInf => NInf
  | Fin _, NInf => PInf
  end.

(** [Math.floor], [Math.ceil] and [Math.round] on a finite value.
    [Math.round] rounds to the nearest integer, ties towards +infinity. *)
Definition floorZ (q : Qc) : Z := Qfloor q.
Definition ceilZ (q : Qc) : Z := Qceiling q.
Definition roundZ (q : Qc) : Z := Qfloor (q + half)%Qc.

Definition lift (f : Qc -> Z) (a : num) : num :=
  match a with
  | Fin q => Fin (Zq (f q))
  | other => other
  end.

Definition Math_floor : num -> num := lift floorZ.
Definition Math_ceil : num -> num := lift ceilZ.
Definition Math_round : num -> num := lift roundZ.

End Js.

(** ** Pricing: [pricing.config.js] and [pricingCalculator.js] *)

Module Pricing.
Import Js.

Record pricingConfig : Type := {
  pricePerLiter : num;
  currency : string;
  minAmount : num;
  maxAmount : num;
  roundingStrategy : string
}.

(** The configuration when no environment variable is set. *)
Definition defaultConfig : pricingConfig := {|
  pricePerLiter := of_Z 5;
  currency := "KES";
  minAmount := of_Z 5;
  maxAmount := of_Z 70000;
  roundingStrategy := "nearest"
|}.


(** The messages of the errors thrown by the calculator. *)
Inductive message : Type :=
| AmountAndPriceMustBePositive   (* 'Amount and price must be positive numbers' *)
| LitersAndPriceMustBePositive   (* 'Liters and price must be positive numbers' *)
| AmountMustBeAtLeast            (* 'Amount must be at least <min> <currency>' *)
| AmountCannotExceed             (* 'Amount cannot exceed <max> <currency>' *)
| MustBeValidNumber              (* 'Amount must be a valid number' *)
| MustBeGreaterThanZero.         (* 'Amount must be greater than 0' *)

(** [new AppError(message, statusCode)]; the service joins the messages
    of a failed validation with [', '], so an error carries a list. *)
Record AppError : Type := {
  messages : list message;
  statusCode : Z
}.

Definition error := AppError.

Definition throw (m : message) : AppError :=
  {| messages := [m]; statusCode := 400 |}.




(** [pricePerLiter || pricingConfig.pricePerLiter], the argument being
    [null] when absent. *)
Definition effectivePrice (c : pricingConfig) (pricePerLiter_arg : option num) : num :=
  match pricePerLiter_arg with
  | Some p => if truthy p then p else pricePerLiter c
  | None => pricePerLiter c
  end.

Definition calculateLiters (c : pricingConfig) (amount : num)
    (pricePerLiter_arg : option num) : result error num :=
  let price := effectivePrice c pricePerLiter_arg in
  if le amount (of_Z 0) || le price (of_Z 0) then Err (throw AmountAndPriceMustBePositive)
  else
    let exactLiters := div amount price in
    if String.eqb (roundingStrategy c) "up" then Ok (Math_ceil exactLiters)
    else if String.eqb (roundingStrategy c) "down" then Ok (Math_floor exactLiters)
    else Ok (Math_round exactLiters).

Definition calculateAmount (c : pricingConfig) (liters : num)
    (pricePerLiter_arg : option num) : result error num :=
  let price := effectivePrice c pricePerLiter_arg in
  if le liters (of_Z 0) || le price (of_Z 0) then Err (throw LitersAndPriceMustBePositive)
  else Ok (mul liters price).

Record preview : Type := {
  requestedAmount : num;
  amount : num;
  liters : num;
  preview_pricePerLiter : num;
  preview_currency : string;
  preview_roundingStrategy : string;
  difference : num
}.

Definition getPaymentPreview (c : pricingConfig) (amount_in : num)
    (pricePerLiter_arg : option num) : result error preview :=
  let price := effectivePrice c pricePerLiter_arg in
  if lt amount_in (minAmount c) then Err (throw AmountMustBeAtLeast)
  else if gt amount_in (maxAmount c) then Err (throw AmountCannotExceed)
  else
    match calculateLiters c amount_in (Some price) with
    | Err e => Err e
    | Ok l =>
        match calculateAmount c l (Some price) with
        | Err e => Err e
        | Ok adjustedAmount =>
            Ok {| requestedAmount := amount_in;
                  amount := adjustedAmount;
                  liters := l;
                  preview_pricePerLiter := price;
                  preview_currency := currency c;
                  preview_roundingStrategy := roundingStrategy c;
                  difference := sub adjustedAmount amount_in |}
        end
    end.

(** [validatePaymentAmount]; the argument is already known to be a
    number ([typeof amount === 'number'], checked by the controller). *)
Definition validatePaymentAmount (c : pricingConfig) (amount_in : num) : list message :=
  (if isNaN amount_in then [MustBeValidNumber] else [])
  ++ (if le amount_in (of_Z 0) then [MustBeGreaterThanZero] else [])
  ++ (if lt amount_in (minAmount c) then [AmountMustBeAtLeast] else [])
  ++ (if gt amount_in (maxAmount c) then [AmountCannotExceed] else []).

(** [getPricingInfo]: the litres bought by the smallest and the largest
    accepted amount, through [calculateLiters]; the object literal
    evaluates [minLiters] first. *)
Record pricingInfo : Type := {
  info_pricePerLiter : num;
  info_currency : string;
  info_minAmount : num;
  info_maxAmount : num;
  info_minLiters : num;
  info_maxLiters : num;
  info_roundingStrategy : string
}.

Definition getPricingInfo (c : pricingConfig) : result error pricingInfo :=
  match calculateLiters c (minAmount c) None with
  | Err e => Err e
  | Ok minL =>
      match calculateLiters c (maxAmount c) None with
      | Err e => Err e
      | Ok maxL =>
          Ok {| info_pricePerLiter := pricePerLiter c;
                info_currency := currency c;
                info_minAmount := minAmount c;
                info_maxAmount := maxAmount c;
                info_minLiters := minL;
                info_maxLiters := maxL;
                info_roundingStrategy := roundingStrategy c |}
      end
  end.

(** [getPricingSummary] of [pricing.config.js] computes the same two
    bounds without the rounding policy. *)
Definition getPricingSummary (c : pricingConfig) : pricingInfo :=
  {| info_pricePerLiter := pricePerLiter c;
     info_currency := currency c;
     info_minAmount := minAmount c;
     info_maxAmount := maxAmount c;
     info_minLiters := Math_ceil (div (minAmount c) (pricePerLiter c));
     info_maxLiters := Math_floor (div (maxAmount c) (pricePerLiter c));
     info_roundingStrategy := roundingStrategy c |}.

(** The rounding that [calculateLiters] applies to the exact quotient,
    by the configured policy. *)
Definition rounding (c : pricingConfig) : Qc -> Z :=
  if String.eqb (roundingStrategy c) "up" then ceilZ
  else if String.eqb (roundingStrategy c) "down" then floorZ
  else roundZ.

(** A configuration with a minimum of 2 at the default price of 5,
    rounding down: 3 is within the bounds and buys nothing. *)
Definition cheap_config : pricingConfig :=
  {| pricePerLiter := of_Z 5; currency := "KES"; minAmount := of_Z 2;
     maxAmount := of_Z 70000; roundingStrategy := "down" |}.

(** [mpesaPaymentService.js]: validation, then preview. *)
Module MpesaPaymentService.

Definition getPaymentPreview (c : pricingConfig) (amount_in : num)
    : result error preview :=
  match validatePaymentAmount c amount_in with
  | [] => Pricing.getPaymentPreview c amount_in None
  | errors => Err {| messages := errors; statusCode := 400 |}
  end.

End MpesaPaymentService.

End Pricing.

(** ** Configuration: [otp.config.js] and [station.config.js] *)

Record otpConfig : Type := {
  length_cfg : Z;
  expirationMinutes : Z;
  maxAttempts_cfg : Z;
  hashAlgorithm : string;
  cacheEnabled : bool;
  cacheTtlSeconds : Z
}.

Definition defaultOtpConfig : otpConfig := {|
  length_cfg := 6;
  expirationMinutes := 10;
  maxAttempts_cfg := 3;
  hashAlgorithm := "sha256";
  cacheEnabled := true;
  cacheTtlSeconds := 600
|}.

(** [validateOtpConfig]: [true] when no check throws. *)
Definition validateOtpConfig (c : otpConfig) : bool :=
  negb ((length_cfg c <? 4) || (10 <? length_cfg c))
  && negb ((expirationMinutes c <? 1) || (1440 <? expirationMinutes c))
  && negb ((maxAttempts_cfg c <? 1) || (10 <? maxAttempts_cfg c)).

Record stationConfig : Type := {
  pulsesPerLiter : Z;
  enforceStationLock : bool;
  requireStationAuth : bool
}.

Definition defaultStationConfig : stationConfig := {|
  pulsesPerLiter := 1000;
  enforceStationLock := true;
  requireStationAuth := false
|}.

(** ** One-time codes: [utils/otpGenerator.js] *)

Module OtpGenerator.

(** [buf.readUInt32BE(0)] of the four bytes [crypto.randomBytes(4)]
    returned. *)
Definition readUInt32BE (b : Z * Z * Z * Z) : Z :=
  let '(b0, b1, b2, b3) := b in
  b0 * 2 ^ 24 + b1 * 2 ^ 16 + b2 * 2 ^ 8 + b3.

(** [n.toString()] of a non-negative integer. *)
Definition toString (n : Z) : string :=
  NilEmpty.string_of_uint (N.to_uint (Z.to_N n)).

Fixpoint repeat_string (n : nat) (pad : string) : string :=
  match n with
  | O => EmptyString
  | S k => (pad ++ repeat_string k pad)%string
  end.

(** [s.padStart(len, pad)] for a one-character [pad]. *)
Definition padStart (len : Z) (pad : string) (s : string) : string :=
  (repeat_string (Z.to_nat (len - Z.of_nat (String.length s))) pad ++ s)%string.

(** The number the code maps the random word to, before printing. *)
Definition otpNumber (c : otpConfig) (randomNumber : Z) : Z :=
  let min := 10 ^ (length_cfg c - 1) in
  let max := 10 ^ length_cfg c - 1 in
  (randomNumber mod (max - min + 1)) + min.

Definition generateOTP (c : otpConfig) (randomBytes : Z * Z * Z * Z) : string :=
  let randomNumber := readUInt32BE randomBytes in
  let otp := otpNumber c randomNumber in
  padStart (length_cfg c) "0" (toString otp).

(** What [crypto.randomBytes(4)] can return: four bytes. *)
Definition is_buffer (b : Z * Z * Z * Z) : Prop :=
  let '(b0, b1, b2, b3) := b in
  0 <= b0 < 256 /\ 0 <= b1 < 256 /\ 0 <= b2 < 256 /\ 0 <= b3 < 256.

(** [buf.writeUInt32BE(r)]: the big-endian bytes of a 32-bit word. *)
Definition writeUInt32BE (r : Z) : Z * Z * Z * Z :=
  (r / 2 ^ 24, r / 2 ^ 16 mod 256, r / 2 ^ 8 mod 256, r mod 256).

(** [parseInt(s, 10)] of a string of decimal digits. *)
Definition parseInt (s : string) : option Z :=
  option_map (fun d => Z.of_N (N.of_uint d)) (NilEmpty.uint_of_string s).

(** The first [n] words that leave remainder [j] modulo [m]; used to
    count the random words a code is drawn from. *)
Definition residue_class (m j n : Z) : list Z :=
  (fun k => m * k + j) <$> seqZ 0 n.

Section Hash.
(** [crypto.createHash(algorithm).update(data).digest('hex')] *)
Context (digest : string -> string -> string).

Definition hashOTP (c : otpConfig) (otp : string) : string :=
  digest (hashAlgorithm c) otp.

(** [verifyOTP]: [crypto.timingSafeEqual] throws a [RangeError] when
    the two buffers differ in length ([None]). *)
Definition verifyOTP (c : otpConfig) (otp hash : string) : option bool :=
  let computedHash := hashOTP c otp in
  if Nat.eqb (String.length computedHash) (String.length hash)
  then Some (String.eqb computedHash hash)
  else None.
End Hash.

End OtpGenerator.

(** ** Regular expressions, as far as the validators use them

    Every pattern of the code is anchored at both ends and is a sequence
    of character classes, each repeated between a lower and an optional
    upper number of times ([\d{8}], [[A-Z0-9]+], a literal character). *)

Module Regex.

Record piece : Type := mkPiece {
  cls : ascii -> bool;
  lo : nat;
  hi : option nat
}.

(** [\d] without the unicode flag: the ten ASCII digits. *)
Definition digit (c : ascii) : bool :=
  (48 <=? nat_of_ascii c)%nat && (nat_of_ascii c <=? 57)%nat.

(** [[A-Z]] *)
Definition upper (c : ascii) : bool :=
  (65 <=? nat_of_ascii c)%nat && (nat_of_ascii c <=? 90)%nat.

(** [[a-z]] *)
Definition lower (c : ascii) : bool :=
  (97 <=? nat_of_ascii c)%nat && (nat_of_ascii c <=? 122)%nat.

Definition lit (x : ascii) : piece := mkPiece (Ascii.eqb x) 1 (Some 1%nat).
Definition exactly (n : nat) (f : ascii -> bool) : piece := mkPiece f n (Some n).
Definition between (n m : nat) (f : ascii -> bool) : piece := mkPiece f n (Some m).
Definition plus (f : ascii -> bool) : piece := mkPiece f 1 None.

Definition below (n : nat) (h : option nat) : bool :=
  match h with
  | Some m => (n <? m)%nat
  | None => true
  end.

(** At the end of the input: the piece being read has its minimum, and
    the pieces after it may be empty. *)
Fixpoint finish (ps : list piece) (n : nat) : bool :=
  match ps with
  | [] => true
  | p :: rest => (lo p <=? n)%nat && finish rest 0
  end.

(** [matches_from s ps n]: [s] matches the pieces [ps], [n] characters
    of the first piece having been read already.  Each character either
    extends the current piece or, the piece having its minimum, starts a
    later one. *)
Fixpoint matches_from (s : string) : list piece -> nat -> bool :=
  match s with
  | EmptyString => finish
  | String c s' =>
      fix here (ps : list piece) (n : nat) : bool :=
        match ps with
        | [] => false
        | p :: rest =>
            (cls p c && below n (hi p) && matches_from s' (p :: rest) (S n))
            || ((lo p <=? n)%nat && here rest 0%nat)
        end
  end.

(** [/^...$/.test(s)] *)
Definition test (ps : list piece) (s : string) : bool := matches_from s ps 0.

(** [s.replace(/[^...]/g, '')]: the characters of the class are kept. *)
Fixpoint keep (f : ascii -> bool) (s : string) : string :=
  match s with
  | EmptyString => EmptyString
  | String c s' => if f c then String c (keep f s') else keep f s'
  end.

(** [s.substring(n)] *)
Fixpoint drop (n : nat) (s : string) : string :=
  match n, s with
  | O, _ => s
  | S k, String _ s' => drop k s'
  | S _, EmptyString => EmptyString
  end.

(** Every character of [s] is in the class. *)
Fixpoint all (f : ascii -> bool) (s : string) : bool :=
  match s with
  | EmptyString => true
  | String c s' => f c && all f s'
  end.

End Regex.

(** ** Phone numbers: [utils/phoneValidator.js] *)

Module PhoneValidator.
Import Regex.

Inductive phone_error : Type :=
| PhoneNumberRequired      (* 'Phone number is required' *)
| InvalidPhoneFormat       (* 'Invalid phone number format' *)
| MustBeTwelveDigits       (* 'Phone number must be 12 digits (254XXXXXXXXX)' *)
| MustStartWith254         (* 'Phone number must start with 254' *)
| InvalidKenyanNumber.     (* 'Invalid Kenyan phone number format' *)

(** [phoneNumber.replace(/[^\d+]/g, '')] *)
Definition cleaned (phoneNumber : string) : string :=
  keep (fun c => digit c || Ascii.eqb c "+") phoneNumber.

(** The four accepted spellings; [None] is the final [else]. *)
Definition normalize (cleaned : string) : option string :=
  if String.prefix "+254" cleaned then Some (drop 1 cleaned)
  else if String.prefix "254" cleaned then Some cleaned
  else if String.prefix "0" cleaned then Some ("254" ++ drop 1 cleaned)%string
  else if (String.length cleaned =? 9)%nat then Some ("254" ++ cleaned)%string
  else None.

(** [validatePhoneNumber]: [Ok normalized] stands for [{ valid: true,
    normalized, error: null }], [Err e] for [{ valid: false, normalized:
    null, error }].  The argument is a string ([typeof phoneNumber ===
    'string']); the empty string is falsy. *)
Definition validatePhoneNumber (phoneNumber : string) : result phone_error string :=
  if String.eqb phoneNumber "" then Err PhoneNumberRequired
  else
    match normalize (cleaned phoneNumber) with
    | None => Err InvalidPhoneFormat
    | Some normalized =>
        if negb (String.length normalized =? 12)%nat then Err MustBeTwelveDigits
        else if negb (String.prefix "254" normalized) then Err MustStartWith254
        else
          let subscriberNumber := drop 3 normalized in
          if negb (test [lit "7"; exactly 8 digit] subscriberNumber)
          then Err InvalidKenyanNumber
          else Ok normalized
    end.

End PhoneValidator.

(** ** Transaction references: [utils/transactionReference.js] *)

Module TransactionReference.
Import Regex.

(** One hexadecimal digit, as [buf.toString('hex')] prints it. *)
Definition hexDigit (n : Z) : ascii :=
  if n <? 10 then ascii_of_nat (48 + Z.to_nat n) else ascii_of_nat (87 + Z.to_nat n).

Definition hexByte (b : Z) : string :=
  String (hexDigit (b / 16)) (String (hexDigit (b mod 16)) EmptyString).

(** [randomBytes.toString('hex')] of four bytes *)
Definition toHex (b : Z * Z * Z * Z) : string :=
  let '(b0, b1, b2, b3) := b in
  (hexByte b0 ++ hexByte b1 ++ hexByte b2 ++ hexByte b3)%string.

(** [s.toUpperCase()] on ASCII *)
Definition upcase (c : ascii) : ascii :=
  if lower c then ascii_of_nat (nat_of_ascii c - 32) else c.

Fixpoint toUpperCase (s : string) : string :=
  match s with
  | EmptyString => EmptyString
  | String c s' => String (upcase c) (toUpperCase s')
  end.

(** [generateTransactionReference(prefix)]; [timestamp] is [Date.now()]
    and [randomBytes] is [crypto.randomBytes(4)]. *)
Definition generateTransactionReference (prefix : string) (timestamp : Z)
    (randomBytes : Z * Z * Z * Z) : string :=
  let random := toUpperCase (toHex randomBytes) in
  (prefix ++ "-" ++ OtpGenerator.toString timestamp ++ "-" ++ random)%string.

Definition alnum (c : ascii) : bool := upper c || digit c.

(** [isValidTransactionReference]: [/^[A-Z0-9]+-\d+-[A-Z0-9]+$/] *)
Definition isValidTransactionReference (reference : string) : bool :=
  if String.eqb reference "" then false
  else test [plus alnum; lit "-"; plus digit; lit "-"; plus alnum] reference.

End TransactionReference.

(** ** The SMS gateway client: [services/smsService.js] *)

Module SmsService.
Import Regex.

(** [smsConfig], as far as the retry loop reads it. *)
Record smsConfig : Type := {
  maxRetries : Z;
  retryDelay : Z
}.

(** [_isValidPhoneNumber]: [/^\+\d{10,15}$/] *)
Definition _isValidPhoneNumber (phoneNumber : string) : bool :=
  test [lit "+"; between 10 15 digit] phoneNumber.

(** One entry of [SMSMessageData.Recipients]; a field the provider left
    out, or sent with another type, is [None]. *)
Record recipient : Type := {
  r_number : string;
  r_statusCode : option Z;
  r_status : option string
}.

Record parsedResponse : Type := {
  totalRecipients : nat;
  successful : nat;
  failed : nat
}.

Definition succeeded (r : recipient) : bool :=
  bool_decide (r_statusCode r = Some 101) || bool_decide (r_status r = Some "Success"%string).

Definition did_fail (r : recipient) : bool :=
  negb (bool_decide (r_statusCode r = Some 101))
  && negb (bool_decide (r_status r = Some "Success"%string)).

(** [_parseResponse]; [recipients] is [response.SMSMessageData?.
    Recipients || []]. *)
Definition _parseResponse (recipients : option (list recipient)) : parsedResponse :=
  let rs := default [] recipients in
  {| totalRecipients := List.length rs;
     successful := List.length (List.filter succeeded rs);
     failed := List.length (List.filter did_fail rs) |}.

Section Retry.
Context {E A : Type}.
Context (cfg : smsConfig).
(** What [this.send(params)] answers at its n-th call. *)
Context (send : Z -> result E A).

(** The [for] loop of [_sendWithRetry]: [attempt] runs from 1 while
    [attempt <= maxRetries]; the sleeps are recorded.  Falling out of
    the loop throws [lastError], [undefined] ([None]) when no attempt
    was made. *)
Fixpoint retry_loop (left : nat) (attempt : Z) (lastError : option E)
    (slept : list Z) : result (option E) A * list Z :=
  match left with
  | O => (Err lastError, slept)
  | S k =>
      match send attempt with
      | Ok r => (Ok r, slept)
      | Err e =>
          retry_loop k (attempt + 1) (Some e)
            (if attempt <? maxRetries cfg
             then slept ++ [retryDelay cfg * attempt]
             else slept)
      end
  end.

Definition _sendWithRetry : result (option E) A * list Z :=
  retry_loop (Z.to_nat (maxRetries cfg)) 1 None [].

(** The sleeps after the failed attempts [first], [first + 1], ...,
    [count] of them. *)
Definition delays (first count : Z) : list Z :=
  (fun i => retryDelay cfg * i) <$> seqZ first count.

End Retry.

(** A gateway that fails twice, then accepts. *)
Definition flaky (attempt : Z) : result string string :=
  if attempt <? 3 then Err "timeout"%string else Ok "queued"%string.

End SmsService.

(** ** The payment provider client: [services/darajaService.js] *)

Module DarajaService.

(** The fields [accessToken] and [tokenExpiry] of the service object. *)
Record tokenCache : Type := {
  accessToken : option string;
  tokenExpiry : option Z
}.

Definition emptyCache : tokenCache :=
  {| accessToken := None; tokenExpiry := None |}.

(** Both are rethrown by the [catch] as 'Daraja OAuth failed: ..'. *)
Inductive oauth_error : Type :=
| NoAccessToken            (* '.. Failed to get access token from Daraja API' *)
| OAuthFailed.             (* '..' followed by the error of the request *)

(** What the token endpoint answers: a failed request, a body without
    [access_token], or a token. *)
Inductive oauth_response : Type :=
| RequestFailed
| Body (access_token : option string).

(** [getAccessToken]: [now] is the [new Date()] of the cache check,
    [now'] the later [Date.now()] when the answer is stored.  The third
    component tells whether the endpoint was called. *)
Definition getAccessToken (tokenCacheDuration : Z) (c : tokenCache) (now : Z)
    (response : oauth_response) (now' : Z)
    : tokenCache * result oauth_error string * bool :=
  let cached :=
    match accessToken c, tokenExpiry c with
    | Some token, Some expiry =>
        if negb (String.eqb token "") && (now <? expiry) then Some token else None
    | _, _ => None
    end in
  match cached with
  | Some token => (c, Ok token, false)
  | None =>
      match response with
      | RequestFailed => (c, Err OAuthFailed, true)
      | Body None => (c, Err NoAccessToken, true)
      | Body (Some token) =>
          if String.eqb token "" then (c, Err NoAccessToken, true)
          else ({| accessToken := Some token;
                   tokenExpiry := Some (now' + tokenCacheDuration) |},
                Ok token, true)
      end
  end.

Definition clearTokenCache (c : tokenCache) : tokenCache := emptyCache.

(** The fields of a [Date] that [_generateTimestamp] reads, in local
    time; [month] counts from 0. *)
Record localDate : Type := {
  getFullYear : Z;
  getMonth : Z;
  getDate : Z;
  getHours : Z;
  getMinutes : Z;
  getSeconds : Z
}.

Definition pad2 (n : Z) : string :=
  OtpGenerator.padStart 2 "0" (OtpGenerator.toString n).

(** [_generateTimestamp]: [YYYYMMDDHHmmss] *)
Definition _generateTimestamp (date : localDate) : string :=
  (OtpGenerator.toString (getFullYear date) ++ pad2 (getMonth date + 1)
   ++ pad2 (getDate date) ++ pad2 (getHours date) ++ pad2 (getMinutes date)
   ++ pad2 (getSeconds date))%string.

End DarajaService.

(** ** The durable store and the cache *)

Module Store.

(** *** Table [otps] *)

Inductive otp_status : Type := active | in_progress | used | expired | blocked.

#[export] Instance otp_status_eq_dec : EqDecision otp_status.
Proof. solve_decision. Defined.

Record otp : Type := mkOtp {
  id : Z;
  transactionReference : string;
  otpHash : string;
  liters : Qc;
  status : otp_status;
  stationId : option string;
  attempts : Z;
  maxAttempts : Z;
  usedAt : option Z;
  verifiedAt : option Z;
  expiresAt : Z;
  createdAt : Z
}.

(** One assignment of [UPDATE otps SET ...]; the repository's [update]
    only lets these five columns through. *)
Inductive assignment : Type :=
| SetStatus (s : otp_status)
| SetAttempts (n : Z)
| SetUsedAt (t : Z)
| SetVerifiedAt (t : Z)
| SetStationId (st : string).

Definition assign (r : otp) (a : assignment) : otp :=
  match a with
  | SetStatus s =>
      mkOtp (id r) (transactionReference r) (otpHash r) (liters r) s (stationId r)
            (attempts r) (maxAttempts r) (usedAt r) (verifiedAt r) (expiresAt r) (createdAt r)
  | SetAttempts n =>
      mkOtp (id r) (transactionReference r) (otpHash r) (liters r) (status r) (stationId r)
            n (maxAttempts r) (usedAt r) (verifiedAt r) (expiresAt r) (createdAt r)
  | SetUsedAt t =>
      mkOtp (id r) (transactionReference r) (otpHash r) (liters r) (status r) (stationId r)
            (attempts r) (maxAttempts r) (Some t) (verifiedAt r) (expiresAt r) (createdAt r)
  | SetVerifiedAt t =>
      mkOtp (id r) (transactionReference r) (otpHash r) (liters r) (status r) (stationId r)
            (attempts r) (maxAttempts r) (usedAt r) (Some t) (expiresAt r) (createdAt r)
  | SetStationId st =>
      mkOtp (id r) (transactionReference r) (otpHash r) (liters r) (status r) (Some st)
            (attempts r) (maxAttempts r) (usedAt r) (verifiedAt r) (expiresAt r) (createdAt r)
  end.

(** Errors of the credential services; all are [AppError]s except
    [Internal], an exception that is not an [AppError] and reaches the
    caller as a 500. *)
Inductive error : Type :=
| FieldsRequired        (* 'Transaction reference, OTP, and station ID are required' *)
| MustBeSixDigits       (* 'OTP must be a 6-digit string' *)
| NotFoundOrExpired     (* 'OTP not found or expired' *)
| HasExpired            (* 'OTP has expired' *)
| AlreadyUsed           (* 'OTP has already been used' *)
| Blocked               (* 'OTP has been blocked due to too many failed attempts' *)
| LockedToStation (locked_to caller : string)
                        (* 'OTP is locked to station .. and cannot be used at station ..' *)
| InUseAtStation (at_station : option string)
                        (* 'OTP is already in use at station ..' *)
| InvalidRemaining (remainingAttempts : Z)
                        (* 'Invalid OTP. n attempt(s) remaining' *)
| InvalidOTP            (* 'Invalid OTP' *)
| NoValidFields         (* 'No valid fields to update' *)
| OtpRowNotFound        (* 'OTP not found' *)
| FailedToCreate        (* 'Failed to create OTP: ..' *)
| TransactionNotFound   (* 'Transaction not found' *)
| TransactionNotCompleted (* 'OTP can only be generated for completed transactions' *)
| InvalidCallbackStructure (* 'Invalid callback data structure' *)
| MissingStkCallback    (* 'Missing stkCallback in callback data' *)
| MpesaRowNotFound      (* 'M-Pesa transaction not found' *)
| CallbackProcessingFailed (* 'Callback processing failed: ..' *)
| Internal.

Definition statusCode (e : error) : Z :=
  match e with
  | FieldsRequired | MustBeSixDigits | HasExpired | AlreadyUsed | Blocked
  | InvalidRemaining _ | InvalidOTP | NoValidFields | TransactionNotCompleted
  | InvalidCallbackStructure | MissingStkCallback => 400
  | LockedToStation _ _ => 403
  | NotFoundOrExpired | OtpRowNotFound | TransactionNotFound | MpesaRowNotFound => 404
  | InUseAtStation _ => 409
  | FailedToCreate | CallbackProcessingFailed | Internal => 500
  end.

(** *** Tables [transactions] and [mpesa_transactions] *)

Inductive txn_status : Type :=
| pending | processing | completed | failed | cancelled
| txn_expired | timeout | abandoned | reversed.

#[export] Instance txn_status_eq_dec : EqDecision txn_status.
Proof. solve_decision. Defined.

(** A row of [transactions] (hosted checkout), as far as the
    credential code reads it. *)
Record transaction : Type := {
  t_reference : string;
  t_status : txn_status
}.

(** [new Date()] or the date parsed from the provider's 14 digits. *)
Inductive js_date : Type :=
| DateNow (t : Z)
| DateParsed (digits : string).

Record mpesa_transaction : Type := mkMpesa {
  m_reference : string;
  m_phoneNumber : string;
  m_liters : Qc;
  m_status : txn_status;
  m_checkoutRequestId : option string;
  m_mpesaReceiptNumber : option string;
  m_transactionDate : option js_date;
  m_resultCode : option Z;
  m_resultDesc : option string
}.

(** *** The cache: one Redis string per transaction reference *)

Record cache_entry : Type := {
  c_otpHash : string;
  c_liters : Qc;
  c_expiresAt : Z;
  c_attempts : Z
}.

(** A request handed to the SMS gateway. *)
Record sms : Type := {
  sms_phoneNumber : string;
  sms_otp : string;
  sms_liters : Qc;
  sms_expiresInMinutes : Z
}.

(** Everything the services read and write.  A Redis key carries the
    instant at which its time-to-live runs out. *)
Record state : Type := mkState {
  otps : list otp;
  otps_id_seq : Z;
  transactions : list transaction;
  mpesa_transactions : list mpesa_transaction;
  redis_isOpen : bool;
  redis_keys : gmap string (cache_entry * Z);
  sms_outbox : list sms
}.

Definition with_otps (s : state) (rows : list otp) : state :=
  mkState rows (otps_id_seq s) (transactions s) (mpesa_transactions s)
          (redis_isOpen s) (redis_keys s) (sms_outbox s).

Definition with_redis (s : state) (k : gmap string (cache_entry * Z)) : state :=
  mkState (otps s) (otps_id_seq s) (transactions s) (mpesa_transactions s)
          (redis_isOpen s) k (sms_outbox s).

Definition with_mpesa (s : state) (m : list mpesa_transaction) : state :=
  mkState (otps s) (otps_id_seq s) (transactions s) m
          (redis_isOpen s) (redis_keys s) (sms_outbox s).

Definition with_sms (s : state) (m : sms) : state :=
  mkState (otps s) (otps_id_seq s) (transactions s) (mpesa_transactions s)
          (redis_isOpen s) (redis_keys s) (sms_outbox s ++ [m]).

(** *** [otpRepository.js] *)

Module otpRepository.

(** [WHERE transaction_reference = $1 AND status IN ('active',
    'in_progress') AND expires_at > NOW()] *)
Definition is_live (now : Z) (ref : string) (r : otp) : bool :=
  String.eqb (transactionReference r) ref
  && (bool_decide (status r = active) || bool_decide (status r = in_progress))
  && (now <? expiresAt r).

(** [ORDER BY created_at DESC LIMIT 1]: the newest row wins; among rows
    created at the same instant the one inserted first is kept. *)
Definition newer (best : option otp) (r : otp) : option otp :=
  match best with
  | None => Some r
  | Some b => if createdAt b <? createdAt r then Some r else Some b
  end.

Definition findActiveByTransaction (rows : list otp) (ref : string) (now : Z)
    : option otp :=
  fold_left newer (List.filter (is_live now ref) rows) None.

(** [UPDATE otps SET ... WHERE id = $n RETURNING *] *)
Definition update_where (i : Z) (f : otp -> otp) (rows : list otp) : list otp :=
  map (fun r => if id r =? i then f r else r) rows.

Definition returning (i : Z) (rows : list otp) : option otp :=
  List.find (fun r => id r =? i) rows.

Definition update (rows : list otp) (i : Z) (updates : list assignment)
    : result error (list otp * otp) :=
  match updates with
  | [] => Err NoValidFields
  | _ =>
      let rows' := update_where i (fun r => fold_left assign updates r) rows in
      match returning i rows' with
      | Some r => Ok (rows', r)
      | None => Err OtpRowNotFound
      end
  end.

Definition markInProgress (rows : list otp) (i : Z) (station : string) (now : Z)
    : result error (list otp * otp) :=
  let rows' :=
    update_where i
      (fun r => fold_left assign [SetStatus in_progress; SetStationId station; SetVerifiedAt now] r)
      rows in
  match returning i rows' with
  | Some r => Ok (rows', r)
  | None => Err OtpRowNotFound
  end.

Definition markAsUsed (rows : list otp) (i : Z) (now : Z)
    : result error (list otp * otp) :=
  update rows i [SetStatus used; SetUsedAt now].

(** [SET attempts = attempts + 1, status = CASE WHEN attempts + 1 >=
    max_attempts THEN 'blocked' ELSE status END]; both right-hand sides
    read the row as it was. *)
Definition bump (r : otp) : otp :=
  mkOtp (id r) (transactionReference r) (otpHash r) (liters r)
        (if maxAttempts r <=? attempts r + 1 then blocked else status r)
        (stationId r) (attempts r + 1) (maxAttempts r) (usedAt r) (verifiedAt r)
        (expiresAt r) (createdAt r).

Definition incrementAttempts (rows : list otp) (i : Z)
    : result error (list otp * otp) :=
  let rows' := update_where i bump rows in
  match returning i rows' with
  | Some r => Ok (rows', r)
  | None => Err OtpRowNotFound
  end.

(** [markExpired]: [UPDATE otps SET status = 'expired' WHERE status =
    'active' AND expires_at <= NOW() RETURNING id]; the count of rows
    touched is returned. *)
Definition stale (now : Z) (r : otp) : bool :=
  bool_decide (status r = active) && (expiresAt r <=? now).

Definition markExpired (rows : list otp) (now : Z) : list otp * Z :=
  (map (fun r => if stale now r then assign r (SetStatus expired) else r) rows,
   Z.of_nat (List.length (List.filter (stale now) rows))).

(** The column [liters DECIMAL(10, 2) CHECK (liters > 0)]: the value
    is rounded to two decimals (half away from zero); [None] when the
    rounded value overflows the column or fails the check. *)
Definition numeric_10_2 (q : Qc) : option Qc :=
  let hundredths :=
    if bool_decide (Js.Zq 0 <= q)%Qc then Js.roundZ (q * Js.Zq 100)
    else - Js.roundZ (- q * Js.Zq 100) in
  if (Z.abs hundredths <? 10 ^ 10) && (0 <? hundredths)
  then Some (Js.Zq hundredths / Js.Zq 100)%Qc
  else None.

(** [INSERT INTO otps ... RETURNING *]: the sequence advances even
    when the row is refused. *)
Definition create (s : state) (ref hash : string) (l : Qc) (expires : Z)
    (maxAtt : Z) (now : Z) : state * result error otp :=
  let i := otps_id_seq s in
  let s' := mkState (otps s) (i + 1) (transactions s) (mpesa_transactions s)
                    (redis_isOpen s) (redis_keys s) (sms_outbox s) in
  match numeric_10_2 l with
  | None => (s', Err FailedToCreate)
  | Some stored =>
      let row := mkOtp i ref hash stored active None 0 maxAtt None None expires now in
      (with_otps s' (otps s ++ [row]), Ok row)
  end.

End otpRepository.

(** *** [transactionRepository.js] *)

Module transactionRepository.

Definition findByReference (rows : list transaction) (ref : string)
    : option transaction :=
  List.find (fun t => String.eqb (t_reference t) ref) rows.

End transactionRepository.

(** *** [mpesaTransactionRepository.js] *)

Module mpesaTransactionRepository.

Definition findByCheckoutRequestId (rows : list mpesa_transaction) (cid : string)
    : option mpesa_transaction :=
  List.find (fun t => bool_decide (m_checkoutRequestId t = Some cid)) rows.

(** [update], for the columns the callback writes: [UPDATE mpesa_transactions SET ... WHERE
    transaction_reference = $n RETURNING *]. *)
Definition update (rows : list mpesa_transaction) (ref : string)
    (f : mpesa_transaction -> mpesa_transaction)
    : result error (list mpesa_transaction * mpesa_transaction) :=
  let rows' := map (fun t => if String.eqb (m_reference t) ref then f t else t) rows in
  match List.find (fun t => String.eqb (m_reference t) ref) rows' with
  | Some t => Ok (rows', t)
  | None => Err MpesaRowNotFound
  end.

End mpesaTransactionRepository.

(** *** The Redis client *)

Module redisClient.

(** [get]: a key whose time-to-live has run out is gone. *)
Definition get (s : state) (key : string) (now : Z) : option cache_entry :=
  match redis_keys s !! key with
  | Some (e, deadline) => if now <? deadline then Some e else None
  | None => None
  end.

(** [setEx(key, seconds, value)] *)
Definition setEx (s : state) (key : string) (seconds : Z) (e : cache_entry)
    (now : Z) : state :=
  with_redis s (<[key := (e, now + seconds * 1000)]> (redis_keys s)).

(** [del(key)] *)
Definition del (s : state) (key : string) : state :=
  with_redis s (delete key (redis_keys s)).

End redisClient.

End Store.

(** ** The services *)

Module Services.
Import Store.

Section Services.
Context (digest : string -> string -> string).
Context (ocfg : otpConfig) (scfg : stationConfig).

Definition _getCacheKey (ref : string) : string := ("otp:" ++ ref)%string.

Definition cacheOn (s : state) : bool := cacheEnabled ocfg && redis_isOpen s.

(** *** [otpService.js] *)

Record generated : Type := {
  g_otp : string;
  g_transactionReference : string;
  g_liters : Qc;
  g_expiresAt : Z;
  g_expiresInMinutes : Z
}.

Definition generateOTP (s : state) (ref : string) (l : Qc)
    (randomBytes : Z * Z * Z * Z) (tdb now : Z) : state * result error generated :=
  match transactionRepository.findByReference (transactions s) ref with
  | None => (s, Err TransactionNotFound)
  | Some transaction =>
      if negb (bool_decide (t_status transaction = completed))
      then (s, Err TransactionNotCompleted)
      else
        (* Check if active OTP already exists; invalidate it *)
        let invalidated :=
          match otpRepository.findActiveByTransaction (otps s) ref tdb with
          | Some existingOtp =>
              match otpRepository.update (otps s) (id existingOtp) [SetStatus expired] with
              | Ok (rows, _) => Ok (with_otps s rows)
              | Err e => Err e
              end
          | None => Ok s
          end in
        match invalidated with
        | Err e => (s, Err e)
        | Ok s1 =>
            let otp := OtpGenerator.generateOTP ocfg randomBytes in
            let hash := OtpGenerator.hashOTP digest ocfg otp in
            let expires := now + expirationMinutes ocfg * 60000 in
            match otpRepository.create s1 ref hash l expires (maxAttempts_cfg ocfg) now with
            | (s2, Err e) => (s2, Err e)
            | (s2, Ok otpRecord) =>
                let s3 :=
                  if cacheOn s2
                  then redisClient.setEx s2 (_getCacheKey ref) (cacheTtlSeconds ocfg)
                         {| c_otpHash := hash; c_liters := l;
                            c_expiresAt := expires; c_attempts := 0 |} now
                  else s2 in
                (s3, Ok {| g_otp := otp;
                           g_transactionReference := ref;
                           g_liters := l;
                           g_expiresAt := expires;
                           g_expiresInMinutes := expirationMinutes ocfg |})
            end
        end
  end.

(** The record [verifyOTP] works on: built from the cached JSON (no
    [id], status ['active']) or read from the table. *)
Inductive otpRecord : Type :=
| FromCache (e : cache_entry)
| FromDb (r : otp).

Definition rec_otpHash (r : otpRecord) : string :=
  match r with FromCache e => c_otpHash e | FromDb r => otpHash r end.
Definition rec_liters (r : otpRecord) : Qc :=
  match r with FromCache e => c_liters e | FromDb r => liters r end.
Definition rec_expiresAt (r : otpRecord) : Z :=
  match r with FromCache e => c_expiresAt e | FromDb r => expiresAt r end.
Definition rec_attempts (r : otpRecord) : Z :=
  match r with FromCache e => c_attempts e | FromDb r => attempts r end.
Definition rec_status (r : otpRecord) : otp_status :=
  match r with FromCache _ => active | FromDb r => status r end.
(** [otpRecord.id] when it is truthy. *)
Definition rec_id (r : otpRecord) : option Z :=
  match r with
  | FromCache _ => None
  | FromDb r => if id r =? 0 then None else Some (id r)
  end.

Record verified : Type := {
  v_valid : bool;
  v_transactionReference : string;
  v_liters : Qc
}.

Definition verifyOTP (s : state) (ref otp : string) (tdb now : Z)
    : state * result error verified :=
  let key := _getCacheKey ref in
  (* Try to get from cache first *)
  let cached :=
    if cacheOn s then option_map FromCache (redisClient.get s key tdb) else None in
  (* If not in cache, get from database *)
  let found :=
    match cached with
    | Some r => Some r
    | None => option_map FromDb (otpRepository.findActiveByTransaction (otps s) ref tdb)
    end in
  match found with
  | None => (s, Err NotFoundOrExpired)
  | Some r =>
      if rec_expiresAt r <=? now then
        let marked :=
          match rec_id r with
          | Some i =>
              match otpRepository.update (otps s) i [SetStatus expired] with
              | Ok (rows, _) => Ok (with_otps s rows)
              | Err e => Err e
              end
          | None => Ok s
          end in
        match marked with
        | Err e => (s, Err e)
        | Ok s1 => (if cacheOn s1 then redisClient.del s1 key else s1, Err HasExpired)
        end
      else if bool_decide (rec_status r = used) then (s, Err AlreadyUsed)
      else if bool_decide (rec_status r = blocked) then (s, Err Blocked)
      else
        match OtpGenerator.verifyOTP digest ocfg otp (rec_otpHash r) with
        | None => (s, Err Internal)
        | Some false =>
            match rec_id r with
            | Some i =>
                match otpRepository.incrementAttempts (otps s) i with
                | Err e => (s, Err e)
                | Ok (rows, updatedOtp) =>
                    let s1 := with_otps s rows in
                    let s2 :=
                      if cacheOn s1
                      then redisClient.setEx s1 key (cacheTtlSeconds ocfg)
                             {| c_otpHash := otpHash updatedOtp;
                                c_liters := liters updatedOtp;
                                c_expiresAt := expiresAt updatedOtp;
                                c_attempts := attempts updatedOtp |} now
                      else s1 in
                    if bool_decide (status updatedOtp = blocked)
                    then (s2, Err Blocked)
                    else (s2, Err InvalidOTP)
                end
            | None => (s, Err InvalidOTP)
            end
        | Some true =>
            let marked :=
              match rec_id r with
              | Some i =>
                  match otpRepository.markAsUsed (otps s) i now with
                  | Ok (rows, _) => Ok (with_otps s rows)
                  | Err e => Err e
                  end
              | None => Ok s
              end in
            match marked with
            | Err e => (s, Err e)
            | Ok s1 =>
                (if cacheOn s1 then redisClient.del s1 key else s1,
                 Ok {| v_valid := true;
                       v_transactionReference := ref;
                       v_liters := rec_liters r |})
            end
        end
  end.

(** *** [stationOtpService.js] *)

Record authorization : Type := {
  a_success : bool;
  a_transactionReference : string;
  a_stationId : string;
  a_liters : Qc;
  a_pulses : Z;
  a_status : otp_status;
  a_verifiedAt : option Z
}.

(** Truthiness of [otpRecord.stationId]. *)
Definition stationSet (r : otp) : bool :=
  match stationId r with
  | Some st => negb (String.eqb st "")
  | None => false
  end.

Definition pulsesFor (l : Qc) : Z :=
  Js.roundZ (l * Js.Zq (pulsesPerLiter scfg))%Qc.

Definition verifyOTPForStation (s : state) (ref otp station : string)
    (tdb now : Z) : state * result error authorization :=
  if String.eqb ref "" || String.eqb otp "" || String.eqb station ""
  then (s, Err FieldsRequired)
  else if negb (Nat.eqb (String.length otp) 6) then (s, Err MustBeSixDigits)
  else
    match otpRepository.findActiveByTransaction (otps s) ref tdb with
    | None => (s, Err NotFoundOrExpired)
    | Some r =>
        if expiresAt r <=? now then
          match otpRepository.update (otps s) (id r) [SetStatus expired] with
          | Ok (rows, _) => (with_otps s rows, Err HasExpired)
          | Err e => (s, Err e)
          end
        else if bool_decide (status r = used) then (s, Err AlreadyUsed)
        else if bool_decide (status r = blocked) then (s, Err Blocked)
        else if enforceStationLock scfg && stationSet r
                && negb (bool_decide (stationId r = Some station))
        then (s, Err (LockedToStation (default "" (stationId r)) station))
        else if bool_decide (status r = in_progress)
                && negb (bool_decide (stationId r = Some station))
        then (s, Err (InUseAtStation (stationId r)))
        else
          match OtpGenerator.verifyOTP digest ocfg otp (otpHash r) with
          | None => (s, Err Internal)
          | Some false =>
              match otpRepository.incrementAttempts (otps s) (id r) with
              | Err e => (s, Err e)
              | Ok (rows, updatedOtp) =>
                  if bool_decide (status updatedOtp = blocked)
                  then (with_otps s rows, Err Blocked)
                  else (with_otps s rows,
                        Err (InvalidRemaining
                               (maxAttempts updatedOtp - attempts updatedOtp)))
              end
          | Some true =>
              match otpRepository.markInProgress (otps s) (id r) station now with
              | Err e => (s, Err e)
              | Ok (rows, inProgressOtp) =>
                  (with_otps s rows,
                   Ok {| a_success := true;
                         a_transactionReference := ref;
                         a_stationId := station;
                         a_liters := liters r;
                         a_pulses := pulsesFor (liters r);
                         a_status := in_progress;
                         a_verifiedAt := verifiedAt inProgressOtp |})
              end
          end
    end.

(** *** [otpExpirationService.js] *)

Definition markExpiredOTPs (s : state) (now : Z) : state * Z :=
  let '(rows, count) := otpRepository.markExpired (otps s) now in
  (with_otps s rows, count).

(** *** [mpesaPaymentService.js]: the provider callback *)

Record stkCallback : Type := {
  MerchantRequestID : string;
  CheckoutRequestID : string;
  ResultCode : Z;
  ResultDesc : string;
  (** [CallbackMetadata.Item]: name and value of each item *)
  CallbackMetadata : option (list (string * string))
}.

Record callbackData : Type := {
  (** [Body], and inside it [stkCallback] *)
  Body : option (option stkCallback)
}.

Record callbackMetadata : Type := mkMeta {
  cm_amount : option string;
  cm_mpesaReceiptNumber : option string;
  cm_transactionDate : option string;
  cm_phoneNumber : option string
}.

Record parsedCallback : Type := {
  p_merchantRequestId : string;
  p_checkoutRequestId : string;
  p_resultCode : Z;
  p_resultDesc : string;
  p_callbackMetadata : callbackMetadata
}.

Definition readItem (m : callbackMetadata) (item : string * string)
    : callbackMetadata :=
  let '(key, value) := item in
  if String.eqb key "Amount"
  then mkMeta (Some value) (cm_mpesaReceiptNumber m) (cm_transactionDate m) (cm_phoneNumber m)
  else if String.eqb key "MpesaReceiptNumber"
  then mkMeta (cm_amount m) (Some value) (cm_transactionDate m) (cm_phoneNumber m)
  else if String.eqb key "TransactionDate"
  then mkMeta (cm_amount m) (cm_mpesaReceiptNumber m) (Some value) (cm_phoneNumber m)
  else if String.eqb key "PhoneNumber"
  then mkMeta (cm_amount m) (cm_mpesaReceiptNumber m) (cm_transactionDate m) (Some value)
  else m.

(** [darajaService.validateCallback] *)
Definition validateCallback (d : callbackData) : result error parsedCallback :=
  match Body d with
  | None => Err InvalidCallbackStructure
  | Some None => Err MissingStkCallback
  | Some (Some body) =>
      let empty := mkMeta None None None None in
      let meta :=
        match ResultCode body =? 0, CallbackMetadata body with
        | true, Some items => fold_left readItem items empty
        | _, _ => empty
        end in
      Ok {| p_merchantRequestId := MerchantRequestID body;
            p_checkoutRequestId := CheckoutRequestID body;
            p_resultCode := ResultCode body;
            p_resultDesc := ResultDesc body;
            p_callbackMetadata := meta |}
  end.

Definition _parseTransactionDate (dateStr : string) (now : Z) : js_date :=
  if negb (Nat.eqb (String.length dateStr) 14) then DateNow now
  else DateParsed dateStr.

Definition statusOfResultCode (code : Z) : txn_status :=
  if code =? 0 then completed
  else if code =? 1032 then cancelled
  else if code =? 1037 then timeout
  else failed.

Definition handleCallback (s : state) (d : callbackData)
    (randomBytes : Z * Z * Z * Z) (tdb now : Z)
    : state * result error mpesa_transaction :=
  match validateCallback d with
  | Err e => (s, Err e)
  | Ok parsed =>
      match mpesaTransactionRepository.findByCheckoutRequestId (mpesa_transactions s) (p_checkoutRequestId parsed) with
      | None => (s, Err TransactionNotFound)
      | Some transaction =>
          let st := statusOfResultCode (p_resultCode parsed) in
          (* receipt and date are added when the payment succeeded;
             reading the date of a callback without one throws *)
          let updates : result error (mpesa_transaction -> mpesa_transaction) :=
            if bool_decide (st = completed) then
              match cm_transactionDate (p_callbackMetadata parsed) with
              | None => Err CallbackProcessingFailed
              | Some dateStr =>
                  Ok (fun t =>
                        mkMpesa (m_reference t) (m_phoneNumber t) (m_liters t) st
                                (m_checkoutRequestId t)
                                (cm_mpesaReceiptNumber (p_callbackMetadata parsed))
                                (Some (_parseTransactionDate dateStr now))
                                (Some (p_resultCode parsed)) (Some (p_resultDesc parsed)))
              end
            else
              Ok (fun t =>
                    mkMpesa (m_reference t) (m_phoneNumber t) (m_liters t) st
                            (m_checkoutRequestId t) (m_mpesaReceiptNumber t)
                            (m_transactionDate t)
                            (Some (p_resultCode parsed)) (Some (p_resultDesc parsed))) in
          match updates with
          | Err e => (s, Err e)
          | Ok f =>
              match mpesaTransactionRepository.update (mpesa_transactions s) (m_reference transaction) f with
              | Err e => (s, Err e)
              | Ok (rows, updatedTransaction) =>
                  let s1 := with_mpesa s rows in
                  if bool_decide (st = completed) then
                    (* generate the OTP and send it; a failure is
                       logged and does not fail the callback *)
                    match generateOTP s1 (m_reference transaction)
                                      (m_liters transaction) randomBytes tdb now with
                    | (s2, Ok otpData) =>
                        (with_sms s2
                           {| sms_phoneNumber := ("+" ++ m_phoneNumber transaction)%string;
                              sms_otp := g_otp otpData;
                              sms_liters := m_liters transaction;
                              sms_expiresInMinutes := g_expiresInMinutes otpData |},
                         Ok updatedTransaction)
                    | (s2, Err _) => (s2, Ok updatedTransaction)
                    end
                  else (s1, Ok updatedTransaction)
              end
          end
      end
  end.

(** *** The status queries of [otpService.js] and [stationOtpService.js] *)

(** What [getOTPStatus] reports about a credential it found; [None]
    stands for [{ exists: false, status: null }]. *)
Record otpStatus : Type := {
  os_status : otp_status;
  os_expiresAt : Z;
  os_attempts : Z;
  os_maxAttempts : Z;
  os_liters : Qc;
  os_remainingAttempts : Z
}.

Definition getOTPStatus (s : state) (ref : string) (tdb now : Z) : option otpStatus :=
  match otpRepository.findActiveByTransaction (otps s) ref tdb with
  | None => None
  | Some otp =>
      let isExpired := expiresAt otp <=? now in
      Some {| os_status := if isExpired then expired else status otp;
              os_expiresAt := expiresAt otp;
              os_attempts := attempts otp;
              os_maxAttempts := maxAttempts otp;
              os_liters := liters otp;
              os_remainingAttempts := maxAttempts otp - attempts otp |}
  end.

Record stationOtpStatus : Type := {
  ss_status : otp_status;
  ss_liters : Qc;
  ss_pulses : Z;
  ss_expiresAt : Z;
  ss_attempts : Z;
  ss_maxAttempts : Z;
  ss_remainingAttempts : Z;
  ss_stationId : option string;
  (** the truth value of [isLockedToDifferentStation] *)
  ss_isLockedToDifferentStation : bool;
  ss_canUse : bool
}.

Definition getOTPStatusForStation (s : state) (ref station : string) (tdb now : Z)
    : option stationOtpStatus :=
  match otpRepository.findActiveByTransaction (otps s) ref tdb with
  | None => None
  | Some otp =>
      let isExpired := expiresAt otp <=? now in
      let isLockedToDifferentStation :=
        enforceStationLock scfg && stationSet otp
        && negb (bool_decide (stationId otp = Some station)) in
      Some {| ss_status := if isExpired then expired else status otp;
              ss_liters := liters otp;
              ss_pulses := pulsesFor (liters otp);
              ss_expiresAt := expiresAt otp;
              ss_attempts := attempts otp;
              ss_maxAttempts := maxAttempts otp;
              ss_remainingAttempts := maxAttempts otp - attempts otp;
              ss_stationId := stationId otp;
              ss_isLockedToDifferentStation := isLockedToDifferentStation;
              ss_canUse := negb isExpired
                           && negb (bool_decide (status otp = used))
                           && negb (bool_decide (status otp = blocked))
                           && negb isLockedToDifferentStation |}
  end.

End Services.

End Services.

(** ** Histories and the predicates the properties are stated with *)

Module History.
Import Store Store.otpRepository Services.

(** The rows of a reference that a lookup at instant [t] can return. *)
Definition live_rows (t : Z) (ref : string) (rows : list otp) : list otp :=
  List.filter (is_live t ref) rows.

(** The rows of a reference whose status column is ['active'] or
    ['in_progress'], whatever their expiry. *)
Definition is_open (ref : string) (r : otp) : bool :=
  String.eqb (transactionReference r) ref
  && (bool_decide (status r = active) || bool_decide (status r = in_progress)).

Definition open_rows (ref : string) (rows : list otp) : list otp :=
  List.filter (is_open ref) rows.

(** The table as the schema keeps it (a primary key drawn from a
    sequence) together with the credential invariant: at instant [t]
    no reference has two rows a lookup could return. *)
Record consistent (t : Z) (s : state) : Prop := {
  ids_unique : NoDup (map id (otps s));
  ids_below_seq : Forall (fun r => id r < otps_id_seq s) (otps s);
  one_live : forall ref, (List.length (live_rows t ref (otps s)) <= 1)%nat
}.

(** What one service call can do to one row: nothing, expire it, mark
    it used, count a failed attempt, or claim it for a station. *)
Inductive evolves (now : Z) (x : otp) : otp -> Prop :=
| ev_same : evolves now x x
| ev_expire : evolves now x (fold_left assign [SetStatus expired] x)
| ev_use : evolves now x (fold_left assign [SetStatus used; SetUsedAt now] x)
| ev_bump : evolves now x (bump x)
| ev_claim (station : string) :
    is_live now (transactionReference x) x = true ->
    station <> "" ->
    (status x = in_progress -> stationId x = Some station) ->
    evolves now x
      (fold_left assign [SetStatus in_progress; SetStationId station; SetVerifiedAt now] x).

(** What one service call can do to the table: every row evolves, and
    at most one row is appended, fresh, active, unclaimed, and only
    when no other row of its reference is live. *)
Definition appended (now : Z) (s s' : state) (rows' added : list otp) : Prop :=
  (added = [] /\ otps_id_seq s <= otps_id_seq s')
  \/ exists r, added = [r]
       /\ id r = otps_id_seq s
       /\ otps_id_seq s' = otps_id_seq s + 1
       /\ status r = active
       /\ stationId r = None
       /\ forall x, In x rows' -> is_live now (transactionReference r) x = false.

Definition table_step (now : Z) (s s' : state) : Prop :=
  exists rows' added,
    otps s' = rows' ++ added
    /\ Forall2 (evolves now) (otps s) rows'
    /\ appended now s s' rows' added.

(** A credential that station [owner] has claimed. *)
Definition claimed_by (owner : string) (i : Z) (s : state) : Prop :=
  i < otps_id_seq s
  /\ forall x, In x (otps s) -> id x = i ->
       stationId x = Some owner /\ status x <> active.

(** What the sweep does to one row. *)
Definition sweep_row (now : Z) (r : otp) : otp :=
  if stale now r then assign r (SetStatus expired) else r.

Section Requests.
Context (digest : string -> string -> string).
Context (ocfg : otpConfig) (scfg : stationConfig).


Inductive request : Type :=
| Generate (ref : string) (l : Qc) (randomBytes : Z * Z * Z * Z)
| Verify (ref otp : string)
| StationVerify (ref otp station : string)
| Sweep
| MpesaCallback (d : callbackData) (randomBytes : Z * Z * Z * Z).

Record event : Type := {
  e_request : request;
  e_tdb : Z;
  e_now : Z
}.

Definition step (s : state) (e : event) : state :=
  match e_request e with
  | Generate ref l rb => fst (generateOTP digest ocfg s ref l rb (e_tdb e) (e_now e))
  | Verify ref otp => fst (verifyOTP digest ocfg s ref otp (e_tdb e) (e_now e))
  | StationVerify ref otp station =>
      fst (verifyOTPForStation digest ocfg scfg s ref otp station (e_tdb e) (e_now e))
  | Sweep => fst (markExpiredOTPs s (e_now e))
  | MpesaCallback d rb => fst (handleCallback digest ocfg s d rb (e_tdb e) (e_now e))
  end.

Fixpoint run (s : state) (trace : list event) : state :=
  match trace with
  | [] => s
  | e :: rest => run (step s e) rest
  end.

(** Clocks do not run backwards: each call reads [tdb] before [now],
    and the calls come one after the other. *)
Fixpoint chronological (t : Z) (trace : list event) : Prop :=
  match trace with
  | [] => True
  | e :: rest => t <= e_tdb e /\ e_tdb e <= e_now e /\ chronological (e_now e) rest
  end.

Fixpoint end_time (t : Z) (trace : list event) : Z :=
  match trace with
  | [] => t
  | e :: rest => end_time (e_now e) rest
  end.

(** [n] station calls with codes that do not match the stored hash. *)
Definition wrong_code (r : otp) (otp : string) : Prop :=
  OtpGenerator.verifyOTP digest ocfg otp (otpHash r) = Some false.

Definition right_code (r : otp) (otp : string) : Prop :=
  OtpGenerator.verifyOTP digest ocfg otp (otpHash r) = Some true.

(** A credential no station has claimed yet. *)
Definition unclaimed (r : otp) : Prop :=
  stationId r = None /\ status r = active.

(** One call of a station, and a series of them on one reference. *)
Record attempt : Type := {
  at_code : string;
  at_station : string;
  at_tdb : Z;
  at_now : Z
}.

Definition attempt_event (ref : string) (a : attempt) : event :=
  {| e_request := StationVerify ref (at_code a) (at_station a);
     e_tdb := at_tdb a;
     e_now := at_now a |}.

Fixpoint stationAttempts (s : state) (ref : string) (calls : list attempt)
    : state * list (result error authorization) :=
  match calls with
  | [] => (s, [])
  | a :: rest =>
      let '(s1, res) :=
        verifyOTPForStation digest ocfg scfg s ref (at_code a) (at_station a)
                            (at_tdb a) (at_now a) in
      let '(s2, results) := stationAttempts s1 ref rest in
      (s2, res :: results)
  end.

(** A well-formed call that arrives before the credential [r] expires
    and presents a code that does not match. *)
Definition wrong_attempt (r : otp) (a : attempt) : Prop :=
  wrong_code r (at_code a)
  /\ at_station a <> ""
  /\ String.length (at_code a) = 6%nat
  /\ at_now a < expiresAt r.

End Requests.

(** *** A small deployment used to run the services on concrete data *)

(** A stand-in for the digest: the identity on the code. *)
Definition plain_digest (algorithm data : string) : string := data.

(** The default configuration, with four-digit codes. *)
Definition four_digits : otpConfig := {|
  length_cfg := 4;
  expirationMinutes := 10;
  maxAttempts_cfg := 3;
  hashAlgorithm := "sha256";
  cacheEnabled := true;
  cacheTtlSeconds := 600
|}.

(** One completed hosted-checkout transaction ["WS-1"], no credential
    yet, the cache connected. *)
Definition shop : state :=
  mkState [] 1 [{| t_reference := "WS-1"; t_status := completed |}] []
          true ∅ [].

(** The same with the cache disconnected. *)
Definition shop_no_cache : state :=
  mkState [] 1 [{| t_reference := "WS-1"; t_status := completed |}] []
          false ∅ [].

(** A mobile-push payment of 50 KES for 10 litres whose reference also
    names a completed hosted-checkout transaction. *)
Definition shop_mpesa : state :=
  mkState [] 1 [{| t_reference := "WS-1"; t_status := completed |}]
          [mkMpesa "WS-1" "254700000001" (Js.Zq 10) processing
                   (Some "ws_CO_1") None None None None]
          false ∅ [].

Definition success_callback : callbackData :=
  {| Body := Some (Some
       {| MerchantRequestID := "m-1";
          CheckoutRequestID := "ws_CO_1";
          ResultCode := 0;
          ResultDesc := "The service request is processed successfully.";
          CallbackMetadata :=
            Some [("Amount", "50"); ("MpesaReceiptNumber", "NLJ7RT61SV");
                  ("TransactionDate", "20191219102115");
                  ("PhoneNumber", "254700000001")] |}) |}.

(** The same callback without its [TransactionDate] item. *)
Definition dateless_callback : callbackData :=
  {| Body := Some (Some
       {| MerchantRequestID := "m-1";
          CheckoutRequestID := "ws_CO_1";
          ResultCode := 0;
          ResultDesc := "The service request is processed successfully.";
          CallbackMetadata :=
            Some [("Amount", "50"); ("MpesaReceiptNumber", "NLJ7RT61SV");
                  ("PhoneNumber", "254700000001")] |}) |}.

(** The customer cancelled the push. *)
Definition cancel_callback : callbackData :=
  {| Body := Some (Some
       {| MerchantRequestID := "m-1";
          CheckoutRequestID := "ws_CO_1";
          ResultCode := 1032;
          ResultDesc := "Request cancelled by user";
          CallbackMetadata := None |}) |}.

(** The mobile-push payment alone: its reference names no
    hosted-checkout transaction. *)
Definition shop_unpaired : state :=
  mkState [] 1 []
          [mkMpesa "WS-1" "254700000001" (Js.Zq 10) processing
                   (Some "ws_CO_1") None None None None]
          false ∅ [].

(** The default deployment with the stand-in digest. *)
Definition demo_generate (s : state) (rb : Z * Z * Z * Z) (t : Z) : state :=
  fst (generateOTP plain_digest defaultOtpConfig s "WS-1" (Js.Zq 10) rb t t).

(** ["WS-1"] has been issued the code ["100000"] at instant 0; it
    expires at 600000. *)
Definition issued : state := demo_generate shop_no_cache (0, 0, 0, 0) 0.

Definition issued_cached : state := demo_generate shop (0, 0, 0, 0) 0.

Definition call (code station : string) (t : Z) : attempt :=
  {| at_code := code; at_station := station; at_tdb := t; at_now := t |}.

Definition at_instant (r : request) (t : Z) : event :=
  {| e_request := r; e_tdb := t; e_now := t |}.

Definition demo_station (s : state) (code station : string) (t : Z)
    : state * result error authorization :=
  verifyOTPForStation plain_digest defaultOtpConfig defaultStationConfig
                      s "WS-1" code station t t.

(** The issued credential after ["STATION001"] redeemed it at 1000. *)
Definition claimed : state := fst (demo_station issued "100000" "STATION001" 1000).

(** What a station reads off an answer. *)
Definition outcome (res : result error authorization)
    : result error (bool * Z * otp_status) :=
  match res with
  | Ok a => Ok (a_success a, a_pulses a, a_status a)
  | Err e => Err e
  end.

(** Issue, dispense at a station, let the credential run out, sweep,
    issue again. *)
Definition reissue_after_claim : list event :=
  [at_instant (Generate "WS-1" (Js.Zq 10) (0, 0, 0, 0)) 0;
   at_instant (StationVerify "WS-1" "100000" "STATION001") 1000;
   at_instant Sweep 700000;
   at_instant (Generate "WS-1" (Js.Zq 10) (0, 0, 0, 1)) 700001].

(** The success callback of ["WS-1"] delivered once, and twice. *)
Definition delivered_once : state :=
  fst (handleCallback plain_digest defaultOtpConfig shop_mpesa success_callback
                      (0, 0, 0, 0) 0 0).

Definition delivered_twice : state :=
  fst (handleCallback plain_digest defaultOtpConfig delivered_once success_callback
                      (0, 0, 0, 1) 1000 1000).

(** Three calls with codes that are not the issued one. *)
Definition three_wrong_calls : list attempt :=
  [call "000000" "STATION001" 1000;
   call "111111" "STATION001" 2000;
   call "222222" "STATION002" 3000].

End History.

(** * Properties *)

(** ** Pricing *)

Module PricingSpec.
Import Js Pricing.


Ltac to_Q :=
  unfold Qcle, Qclt, Zq, Qcplus, Qcminus, Qcopp, Qcdiv, Qcmult, Qcinv, half, Q2Qc in *;
  simpl this in *; rewrite ?Qred_correct in *.

Lemma floor_bounds (q : Qc) :
  (Zq (Qfloor q) <= q)%Qc /\ (q < Zq (Qfloor q) + Zq 1)%Qc.
Proof.
  to_Q. split; [apply Qfloor_le |].
  pose proof (Qlt_floor q) as H. now rewrite inject_Z_plus in H.
Qed.


Lemma roundZ_unique (q : Qc) (L : Z) :
  (Zq L - half <= q)%Qc -> (q < Zq L + half)%Qc -> roundZ q = L.
Proof.
  intros Hl Hu. unfold roundZ.
  destruct (floor_bounds (q + half)%Qc) as [Fl Fu].
  set (M := Qfloor (q + half)%Qc) in *. clearbody M.
  assert (HLM: (inject_Z L < inject_Z (M + 1))%Q /\ (inject_Z M < inject_Z (L + 1))%Q).
  { rewrite !inject_Z_plus. to_Q.
    set (l := inject_Z L) in *. set (m := inject_Z M) in *. clearbody l m.
    unfold inject_Z in *. split; lra. }
  destruct HLM as [H1 H2]. rewrite <- Zlt_Qlt in H1, H2. lia.
Qed.

Example roundZ_tie : roundZ (Q2Qc (21 # 2)) = 11.
Proof. reflexivity. Qed.










End PricingSpec.

(** ** Code generation *)

Module GeneratorSpec.
Import OtpGenerator.

Lemma residue_class_spec (m j n bound r : Z) :
  0 < m -> 0 <= j < m -> 0 <= n ->
  m * (n - 1) + j < bound <= m * n + j ->
  r ∈ residue_class m j n <-> (0 <= r < bound /\ r mod m = j).
Proof.
  intros Hm Hj Hn Hb. unfold residue_class.
  rewrite list_elem_of_fmap. split.
  - intros (k & -> & Hk). apply elem_of_seqZ in Hk.
    split; [nia |].
    rewrite Z.add_comm, Z.mul_comm, Z.mod_add by lia. apply Z.mod_small. lia.
  - intros [Hr Hmod]. exists (r / m). split.
    + pose proof (Z.div_mod r m ltac:(lia)). lia.
    + apply elem_of_seqZ. pose proof (Z.div_mod r m ltac:(lia)).
      assert (0 <= r / m) by (apply Z.div_pos; lia).
      split; [lia |]. 
      destruct (Z_lt_ge_dec (r / m) n) as [L | G]; [lia | exfalso]. nia.
Qed.

Lemma residue_class_NoDup (m j n : Z) : 0 < m -> NoDup (residue_class m j n).
Proof.
  intros Hm. unfold residue_class. apply NoDup_fmap_2; [| apply NoDup_seqZ].
  intros x y H. nia.
Qed.

Lemma residue_class_length (m j n : Z) : length (residue_class m j n) = Z.to_nat n.
Proof. unfold residue_class. now rewrite length_fmap, length_seqZ. Qed.

Lemma otpNumber_default (r : Z) :
  otpNumber defaultOtpConfig r = r mod 900000 + 100000.
Proof. reflexivity. Qed.

Ltac powers_of_two :=
  change (2 ^ 8) with 256 in *; change (2 ^ 16) with 65536 in *;
  change (2 ^ 24) with 16777216 in *; change (2 ^ 32) with 4294967296 in *.

Lemma writeUInt32BE_is_buffer (r : Z) :
  0 <= r < 2 ^ 32 -> is_buffer (writeUInt32BE r).
Proof.
  intros Hr. unfold writeUInt32BE, is_buffer.
  powers_of_two.
  Z.div_mod_to_equations. lia.
Qed.

Lemma readUInt32BE_writeUInt32BE (r : Z) :
  0 <= r < 2 ^ 32 -> readUInt32BE (writeUInt32BE r) = r.
Proof.
  intros Hr. unfold writeUInt32BE, readUInt32BE.
  powers_of_two.
  Z.div_mod_to_equations. lia.
Qed.

Lemma writeUInt32BE_readUInt32BE (b : Z * Z * Z * Z) :
  is_buffer b -> writeUInt32BE (readUInt32BE b) = b.
Proof.
  destruct b as [[[b0 b1] b2] b3]. intros (H0 & H1 & H2 & H3).
  unfold writeUInt32BE, readUInt32BE.
  powers_of_two.
  repeat f_equal; Z.div_mod_to_equations; lia.
Qed.

Lemma readUInt32BE_range (b : Z * Z * Z * Z) :
  is_buffer b -> 0 <= readUInt32BE b < 2 ^ 32.
Proof.
  destruct b as [[[b0 b1] b2] b3]. intros (H0 & H1 & H2 & H3).
  unfold readUInt32BE. lia.
Qed.

Lemma parseInt_zero (s : string) : parseInt (String "0"%char s) = parseInt s.
Proof.
  unfold parseInt. cbn [NilEmpty.uint_of_string uint_of_char].
  now destruct (NilEmpty.uint_of_string s).
Qed.

Lemma parseInt_zeros (n : nat) (s : string) :
  parseInt (repeat_string n "0" ++ s) = parseInt s.
Proof.
  induction n as [| n IH]; [reflexivity |].
  change (repeat_string (S n) "0" ++ s)%string
    with (String "0"%char (repeat_string n "0" ++ s)).
  now rewrite parseInt_zero.
Qed.

Lemma parseInt_toString (n : Z) : 0 <= n -> parseInt (toString n) = Some n.
Proof.
  intros Hn. unfold parseInt, toString. rewrite NilEmpty.usu. cbn.
  rewrite DecimalN.Unsigned.of_to. f_equal. lia.
Qed.

Lemma parseInt_generateOTP (c : otpConfig) (b : Z * Z * Z * Z) :
  1 <= length_cfg c ->
  parseInt (generateOTP c b) = Some (otpNumber c (readUInt32BE b)).
Proof.
  intros Hc. unfold generateOTP, padStart. cbv zeta. rewrite parseInt_zeros.
  apply parseInt_toString. unfold otpNumber. cbv zeta.
  assert (0 < 10 ^ (length_cfg c - 1)) by (apply Z.pow_pos_nonneg; lia).
  assert (10 ^ length_cfg c = 10 * 10 ^ (length_cfg c - 1)).
  { rewrite <- Z.pow_succ_r by lia. f_equal. lia. }
  pose proof (Z.mod_pos_bound (readUInt32BE b) (10 ^ length_cfg c - 1 - 10 ^ (length_cfg c - 1) + 1) ltac:(lia)).
  lia.
Qed.

Lemma generateOTP_code (b : Z * Z * Z * Z) (n : Z) (s : string) :
  parseInt s = Some n -> s = padStart 6 "0" (toString n) ->
  generateOTP defaultOtpConfig b = s <-> otpNumber defaultOtpConfig (readUInt32BE b) = n.
Proof.
  intros Hp Hs. split.
  - intros E. pose proof (parseInt_generateOTP defaultOtpConfig b ltac:(cbn; lia)) as P.
    rewrite E, Hp in P. now injection P.
  - intros E. unfold generateOTP. cbv zeta. rewrite E. now rewrite Hs.
Qed.

Lemma buffers_of_class (l : list Z) (Q : Z -> Prop) :
  NoDup l ->
  (forall r, r ∈ l <-> 0 <= r < 2 ^ 32 /\ Q r) ->
  NoDup (writeUInt32BE <$> l)
  /\ (forall b, b ∈ writeUInt32BE <$> l <-> is_buffer b /\ Q (readUInt32BE b))
  /\ length (writeUInt32BE <$> l) = length l.
Proof.
  intros ND Hl. split; [| split].
  - apply NoDup_fmap_2_strong; [| exact ND].
    intros x y Hx Hy E. apply Hl in Hx, Hy.
    rewrite <- (readUInt32BE_writeUInt32BE x), <- (readUInt32BE_writeUInt32BE y) by tauto. now rewrite E.
  - intros b. rewrite list_elem_of_fmap. split.
    + intros (r & -> & Hr). apply Hl in Hr. destruct Hr as [Hr HQ].
      split; [now apply writeUInt32BE_is_buffer |]. now rewrite readUInt32BE_writeUInt32BE.
    + intros [Hb HQ]. exists (readUInt32BE b). split; [now rewrite writeUInt32BE_readUInt32BE |].
      apply Hl. split; [now apply readUInt32BE_range | exact HQ].
  - apply length_fmap.
Qed.

(** C5.  The code is a reduction of one uniformly random 32-bit word
    modulo the size of the code range, without resampling: with six
    digits, of the 2^32 equally likely buffers 4773 give the code
    "100000" but only 4772 give the code "999999", so the codes are not
    equally likely. *)
Theorem generateOTP_modulo_bias :
  exists low high : list (Z * Z * Z * Z),
    NoDup low /\ NoDup high
    /\ (forall b, b ∈ low <-> is_buffer b /\ generateOTP defaultOtpConfig b = "100000"%string)
    /\ (forall b, b ∈ high <-> is_buffer b /\ generateOTP defaultOtpConfig b = "999999"%string)
    /\ length low = 4773%nat /\ length high = 4772%nat.
Proof.
  exists (writeUInt32BE <$> residue_class 900000 0 4773),
         (writeUInt32BE <$> residue_class 900000 899999 4772).
  destruct (buffers_of_class (residue_class 900000 0 4773) 
              (fun r => otpNumber defaultOtpConfig r = 100000)) as (N1 & M1 & L1).
  { apply residue_class_NoDup; lia. }
  { intros r. rewrite (residue_class_spec 900000 0 4773 (2 ^ 32)) by lia.
    rewrite otpNumber_default. intuition lia. }
  destruct (buffers_of_class (residue_class 900000 899999 4772) 
              (fun r => otpNumber defaultOtpConfig r = 999999)) as (N2 & M2 & L2).
  { apply residue_class_NoDup; lia. }
  { intros r. rewrite (residue_class_spec 900000 899999 4772 (2 ^ 32)) by lia.
    rewrite otpNumber_default. intuition lia. }
  split; [exact N1 |]. split; [exact N2 |].
  split; [| split; [| split]].
  - intros b. rewrite M1. now rewrite (generateOTP_code b 100000 "100000").
  - intros b. rewrite M2. now rewrite (generateOTP_code b 999999 "999999").
  - now rewrite L1, residue_class_length.
  - now rewrite L2, residue_class_length.
Qed.

Example generateOTP_low : generateOTP defaultOtpConfig (0, 0, 0, 0) = "100000"%string.
Proof. reflexivity. Qed.

Example generateOTP_high :
  generateOTP defaultOtpConfig (0, 13, 187, 159) = "999999"%string.
Proof. reflexivity. Qed.

Example generateOTP_low_again :
  generateOTP defaultOtpConfig (writeUInt32BE 4294800000) = "100000"%string.
Proof. reflexivity. Qed.

End GeneratorSpec.

(** ** Credentials, stations and callbacks *)

Module CredentialSpec.
Import Store Store.otpRepository Services History.

(** *** The lookup *)

Lemma fold_newer_In (l : list otp) (init : option otp) (r : otp) :
  fold_left newer l init = Some r -> init = Some r \/ In r l.
Proof.
  revert init. induction l as [| x l IH]; intros init H; simpl in *.
  - now left.
  - apply IH in H. destruct H as [H | H]; [| right; now right].
    unfold newer in H. destruct init as [b |].
    + destruct (createdAt b <? createdAt x); injection H as <-; auto.
    + injection H as <-. right. now left.
Qed.

Lemma fold_newer_is_Some (l : list otp) (b : otp) :
  exists r, fold_left newer l (Some b) = Some r.
Proof.
  revert b. induction l as [| x l IH]; intros b; simpl; [eauto |].
  destruct (createdAt b <? createdAt x); apply IH.
Qed.

Lemma findActive_In (rows : list otp) (ref : string) (t : Z) (r : otp) :
  findActiveByTransaction rows ref t = Some r ->
  In r rows /\ is_live t ref r = true.
Proof.
  unfold findActiveByTransaction. intros H.
  apply fold_newer_In in H. destruct H as [H | H]; [discriminate |].
  now apply filter_In in H.
Qed.

Lemma findActive_None (rows : list otp) (ref : string) (t : Z) :
  findActiveByTransaction rows ref t = None <->
  forall x, In x rows -> is_live t ref x = false.
Proof.
  unfold findActiveByTransaction. split.
  - intros H x Hx. destruct (is_live t ref x) eqn:E; [| reflexivity].
    assert (Hf : In x (List.filter (is_live t ref) rows)) by (apply filter_In; auto).
    destruct (List.filter (is_live t ref) rows) as [| y l]; [destruct Hf |].
    simpl in H. destruct (fold_newer_is_Some l y) as [r Hr]. congruence.
  - intros H. replace (List.filter (is_live t ref) rows) with (@nil otp); [reflexivity |].
    symmetry. induction rows as [| x rows IH]; [reflexivity |].
    simpl. rewrite (H x) by now left. apply IH. intros y Hy. apply H. now right.
Qed.

Lemma live_later (t t' : Z) (ref : string) (x : otp) :
  t <= t' -> is_live t' ref x = true -> is_live t ref x = true.
Proof.
  unfold is_live. intros Ht H.
  apply andb_prop in H. destruct H as [H1 H2]. rewrite H1. simpl.
  apply Z.ltb_lt in H2. apply Z.ltb_lt. lia.
Qed.

Lemma is_live_spec (t : Z) (ref : string) (x : otp) :
  is_live t ref x = true <->
  transactionReference x = ref /\ (status x = active \/ status x = in_progress)
  /\ t < expiresAt x.
Proof.
  unfold is_live. rewrite !andb_true_iff, orb_true_iff, !bool_decide_eq_true.
  rewrite String.eqb_eq, Z.ltb_lt. tauto.
Qed.

(** *** Counting live rows *)

Lemma filter_length_le {A} (P Q : A -> bool) (f : A -> A) (l : list A) :
  (forall x, In x l -> Q (f x) = true -> P x = true) ->
  (List.length (List.filter Q (map f l)) <= List.length (List.filter P l))%nat.
Proof.
  induction l as [| x l IH]; intros H; simpl; [lia |].
  assert (IH' := IH (fun y Hy => H y (or_intror Hy))).
  destruct (Q (f x)) eqn:E.
  - rewrite (H x (or_introl eq_refl) E). simpl. lia.
  - destruct (P x); simpl; lia.
Qed.

Lemma Forall2_filter_length {A} (R : A -> A -> Prop) (P Q : A -> bool) (l l' : list A) :
  Forall2 R l l' ->
  (forall x y, R x y -> Q y = true -> P x = true) ->
  (List.length (List.filter Q l') <= List.length (List.filter P l))%nat.
Proof.
  intros HF H. induction HF as [| x y l l' Hxy HF IH]; simpl; [lia |].
  destruct (Q y) eqn:E.
  - rewrite (H x y Hxy E). simpl. lia.
  - destruct (P x); simpl; lia.
Qed.

Lemma filter_nil_iff {A} (P : A -> bool) (l : list A) :
  List.filter P l = [] <-> forall x, In x l -> P x = false.
Proof.
  induction l as [| x l IH]; simpl.
  - split; [intros _ y [] | reflexivity].
  - destruct (P x) eqn:E.
    + split; [discriminate |]. intros H. specialize (H x (or_introl eq_refl)). congruence.
    + rewrite IH. split.
      * intros H y [<- | Hy]; auto.
      * intros H y Hy. apply H. now right.
Qed.

Lemma findActive_consistent (t : Z) (s : state) (ref : string) (x : otp) :
  consistent t s -> In x (otps s) -> is_live t ref x = true ->
  findActiveByTransaction (otps s) ref t = Some x.
Proof.
  intros C Hin Hl. pose proof (one_live _ _ C ref) as H1. unfold live_rows in H1.
  assert (Hf : In x (List.filter (is_live t ref) (otps s))) by (apply filter_In; auto).
  unfold findActiveByTransaction.
  destruct (List.filter (is_live t ref) (otps s)) as [| y [| z l]]; simpl in *;
    [destruct Hf | | lia].
  destruct Hf as [-> | []]. reflexivity.
Qed.

Lemma live_unique (t : Z) (s : state) (ref : string) (x y : otp) :
  consistent t s -> In x (otps s) -> In y (otps s) ->
  is_live t ref x = true -> is_live t ref y = true -> x = y.
Proof.
  intros C Hx Hy Lx Ly.
  pose proof (findActive_consistent t s ref x C Hx Lx).
  pose proof (findActive_consistent t s ref y C Hy Ly). congruence.
Qed.

Lemma id_unique (rows : list otp) (x y : otp) :
  NoDup (map id rows) -> In x rows -> In y rows -> id x = id y -> x = y.
Proof.
  induction rows as [| z rows IH]; intros ND Hx Hy E; [destruct Hx |].
  simpl in ND. apply NoDup_cons in ND. destruct ND as [Hz ND].
  destruct Hx as [-> | Hx], Hy as [-> | Hy]; auto.
  - exfalso. apply Hz. rewrite E. apply list_elem_of_In. now apply in_map.
  - exfalso. apply Hz. rewrite <- E. apply list_elem_of_In. now apply in_map.
Qed.

(** *** Updates by primary key *)

Lemma Forall2_map_self {A} (R : A -> A -> Prop) (g : A -> A) (l : list A) :
  (forall x, In x l -> R x (g x)) -> Forall2 R l (map g l).
Proof.
  induction l as [| x l IH]; intros H; simpl; constructor.
  - apply H. now left.
  - apply IH. intros y Hy. apply H. now right.
Qed.

Lemma update_where_evolves (now : Z) (rows : list otp) (r : otp) (f : otp -> otp) :
  NoDup (map id rows) -> In r rows -> evolves now r (f r) ->
  Forall2 (evolves now) rows (update_where (id r) f rows).
Proof.
  intros ND Hr Hf. apply Forall2_map_self. intros x Hx.
  destruct (id x =? id r) eqn:E; [| constructor].
  apply Z.eqb_eq in E. rewrite (id_unique rows x r ND Hx Hr E). exact Hf.
Qed.

Lemma update_where_returning (rows : list otp) (r : otp) (f : otp -> otp) :
  NoDup (map id rows) -> In r rows -> id (f r) = id r ->
  returning (id r) (update_where (id r) f rows) = Some (f r).
Proof.
  intros ND Hr Hf. unfold returning, update_where.
  induction rows as [| z rows IH]; [destruct Hr |].
  simpl. destruct (id z =? id r) eqn:E.
  - apply Z.eqb_eq in E.
    rewrite (id_unique (z :: rows) z r ND (or_introl eq_refl) Hr E).
    rewrite Hf, Z.eqb_refl. reflexivity.
  - rewrite E. simpl in ND. apply NoDup_cons in ND. destruct ND as [_ ND].
    destruct Hr as [-> | Hr]; [rewrite Z.eqb_refl in E; discriminate |].
    now apply IH.
Qed.

Lemma update_where_In (i : Z) (f : otp -> otp) (rows : list otp) (y : otp) :
  In y (update_where i f rows) ->
  exists x, In x rows /\ y = (if id x =? i then f x else x).
Proof.
  unfold update_where. intros H. apply in_map_iff in H.
  destruct H as (x & <- & Hx). eauto.
Qed.

(** *** One call, one table step *)

Lemma evolves_id (now : Z) (x y : otp) : evolves now x y -> id y = id x.
Proof. intros H. destruct H; reflexivity. Qed.

Lemma evolves_live (now : Z) (ref : string) (x y : otp) :
  evolves now x y -> is_live now ref y = true -> is_live now ref x = true.
Proof.
  intros H. destruct H; auto; rewrite !is_live_spec; simpl.
  - intros (_ & [H | H] & _); discriminate.
  - intros (_ & [H | H] & _); discriminate.
  - destruct (maxAttempts x <=? attempts x + 1); [| tauto].
    intros (_ & [H | H] & _); discriminate.
  - intros (<- & _ & _). now apply is_live_spec.
Qed.

Lemma table_step_refl (now : Z) (s s' : state) :
  otps s' = otps s -> otps_id_seq s <= otps_id_seq s' -> table_step now s s'.
Proof.
  intros E Hs. exists (otps s), []. rewrite app_nil_r. split; [exact E |].
  split; [| left; auto].
  replace (otps s) with (map (fun x => x) (otps s)) at 2 by apply map_id.
  apply Forall2_map_self. constructor.
Qed.

Lemma table_step_update (now : Z) (s : state) (r : otp) (f : otp -> otp) :
  NoDup (map id (otps s)) -> In r (otps s) -> evolves now r (f r) ->
  table_step now s (with_otps s (update_where (id r) f (otps s))).
Proof.
  intros ND Hr Hf. exists (update_where (id r) f (otps s)), [].
  rewrite app_nil_r. split; [reflexivity |].
  split; [now apply update_where_evolves |]. left. simpl. split; [reflexivity | lia].
Qed.

Lemma fold_assign_id (ups : list assignment) (r : otp) :
  id (fold_left assign ups r) = id r.
Proof.
  revert r. induction ups as [| a ups IH]; intros r; simpl; [reflexivity |].
  rewrite IH. destruct a; reflexivity.
Qed.

Lemma update_ok (rows : list otp) (r : otp) (a : assignment) (ups : list assignment) :
  NoDup (map id rows) -> In r rows ->
  update rows (id r) (a :: ups) =
    Ok (update_where (id r) (fun x => fold_left assign (a :: ups) x) rows,
        fold_left assign (a :: ups) r).
Proof.
  intros ND Hr. unfold update.
  rewrite (update_where_returning rows r (fun x => fold_left assign (a :: ups) x) ND Hr);
    [reflexivity | apply fold_assign_id].
Qed.

Lemma incrementAttempts_ok (rows : list otp) (r : otp) :
  NoDup (map id rows) -> In r rows ->
  incrementAttempts rows (id r) = Ok (update_where (id r) bump rows, bump r).
Proof.
  intros ND Hr. unfold incrementAttempts.
  now rewrite (update_where_returning rows r bump ND Hr).
Qed.

Lemma markInProgress_ok (rows : list otp) (r : otp) (station : string) (now : Z) :
  NoDup (map id rows) -> In r rows ->
  markInProgress rows (id r) station now =
    Ok (update_where (id r)
          (fun x => fold_left assign
                      [SetStatus in_progress; SetStationId station; SetVerifiedAt now] x) rows,
        fold_left assign [SetStatus in_progress; SetStationId station; SetVerifiedAt now] r).
Proof.
  intros ND Hr. unfold markInProgress.
  now rewrite (update_where_returning rows r _ ND Hr).
Qed.

Ltac same_table :=
  match goal with
  | H : (_, _) = (_, _) |- _ =>
      injection H as <- <-; apply table_step_refl; simpl; [reflexivity | lia]
  end.

Lemma table_step_redis (now : Z) (s s1 s' : state) :
  table_step now s s1 ->
  otps s' = otps s1 -> otps_id_seq s' = otps_id_seq s1 ->
  table_step now s s'.
Proof.
  intros (rows' & added & E & HF & Ha) Eo Es.
  exists rows', added. split; [congruence |]. split; [exact HF |].
  destruct Ha as [[-> Hs] | (r & -> & H1 & H2 & H3)].
  - left. split; [reflexivity | lia].
  - right. exists r. split; [reflexivity |]. split; [exact H1 |].
    split; [lia | exact H3].
Qed.

Lemma table_step_update_then (now : Z) (s s' : state) (r : otp) (f : otp -> otp) :
  NoDup (map id (otps s)) -> In r (otps s) ->
  otps s' = update_where (id r) f (otps s) ->
  otps_id_seq s' = otps_id_seq s ->
  evolves now r (f r) ->
  table_step now s s'.
Proof.
  intros ND Hr Eo Es Hf.
  apply (table_step_redis now s (with_otps s (update_where (id r) f (otps s))));
    [now apply table_step_update | exact Eo | exact Es].
Qed.

Ltac updated_row ND Hr :=
  eapply table_step_update_then;
  [ exact ND | exact Hr
  | try destruct (cacheOn _ _); reflexivity
  | try destruct (cacheOn _ _); reflexivity
  | constructor ].

Ltac cache_only H :=
  injection H as <- <-;
  match goal with
  | |- table_step ?now ?s _ =>
      eapply table_step_redis;
      [ apply (table_step_refl now s s); [reflexivity | lia]
      | destruct (cacheOn _ _); reflexivity
      | destruct (cacheOn _ _); reflexivity ]
  end.

Section Calls.
Context (digest : string -> string -> string).
Context (ocfg : otpConfig) (scfg : stationConfig).

Lemma station_table_step (s s' : state) (ref otp station : string) (tdb now : Z)
    (res : result error authorization) :
  consistent tdb s -> tdb <= now ->
  verifyOTPForStation digest ocfg scfg s ref otp station tdb now = (s', res) ->
  table_step now s s'.
Proof.
  intros C Ht H. unfold verifyOTPForStation in H.
  destruct (_ || _ || _) eqn:Ereq; [same_table |].
  destruct (negb _); [same_table |].
  destruct (findActiveByTransaction (otps s) ref tdb) as [r |] eqn:F; [| same_table].
  apply findActive_In in F. destruct F as [Hr Hl].
  pose proof (ids_unique _ _ C) as ND.
  destruct (expiresAt r <=? now) eqn:Eexp.
  { rewrite (update_ok _ _ _ _ ND Hr) in H. cbv beta iota in H. injection H as <- <-.
    apply table_step_update; auto. constructor. }
  destruct (bool_decide (status r = used)); [same_table |].
  destruct (bool_decide (status r = blocked)); [same_table |].
  destruct (enforceStationLock scfg && stationSet r && _); [same_table |].
  destruct (bool_decide (status r = in_progress) && _) eqn:Einp; [same_table |].
  destruct (OtpGenerator.verifyOTP digest ocfg otp (otpHash r)) as [[|] |];
    [| | same_table].
  - rewrite (markInProgress_ok _ _ _ _ ND Hr) in H. cbv beta iota in H.
    injection H as <- <-.
    apply table_step_update; auto. apply ev_claim.
    + apply is_live_spec in Hl. apply is_live_spec.
      apply Z.leb_gt in Eexp. tauto.
    + apply orb_false_elim in Ereq. destruct Ereq as [_ E].
      intros ->. discriminate E.
    + intros Hs. apply andb_false_iff in Einp. destruct Einp as [E | E].
      * apply bool_decide_eq_false in E. contradiction.
      * apply negb_false_iff, bool_decide_eq_true in E. exact E.
  - rewrite (incrementAttempts_ok _ _ ND Hr) in H. cbv beta iota in H.
    destruct (bool_decide (status (bump r) = blocked)); injection H as <- <-;
      apply table_step_update; auto; constructor.
Qed.

Lemma verify_table_step (s s' : state) (ref otp : string) (tdb now : Z)
    (res : result error verified) :
  consistent tdb s -> tdb <= now ->
  verifyOTP digest ocfg s ref otp tdb now = (s', res) ->
  table_step now s s'.
Proof.
  intros C Ht H. unfold verifyOTP in H.
  pose proof (ids_unique _ _ C) as ND.
  set (cached := if cacheOn ocfg s then _ else None) in H.
  destruct cached as [[e | r0] | ] eqn:Ec.
  - (* served from the cache: the table is never written *)
    cbv beta iota in H. unfold rec_id, rec_status in H.
    destruct (rec_expiresAt (FromCache e) <=? now).
    { cache_only H. }
    cbn [bool_decide decide_rel] in H.
    destruct (bool_decide (active = used)); [same_table |].
    destruct (bool_decide (active = blocked)); [same_table |].
    destruct (OtpGenerator.verifyOTP digest ocfg otp _) as [[|] |]; [| same_table | same_table].
    cache_only H.
  - exfalso. subst cached. destruct (cacheOn ocfg s); [| discriminate].
    destruct (redisClient.get s (_getCacheKey ref) tdb); discriminate.
  - cbv beta iota in H.
    destruct (findActiveByTransaction (otps s) ref tdb) as [r |] eqn:F;
      cbn [option_map] in H; cbv beta iota in H; [| same_table].
    apply findActive_In in F. destruct F as [Hr Hl].
    unfold rec_id, rec_status, rec_expiresAt, rec_otpHash in H.
    destruct (expiresAt r <=? now) eqn:Eexp.
    { destruct (id r =? 0).
      - cache_only H.
      - rewrite (update_ok _ _ _ _ ND Hr) in H. cbv beta iota in H.
        injection H as <- <-.
        updated_row ND Hr. }
    destruct (bool_decide (status r = used)); [same_table |].
    destruct (bool_decide (status r = blocked)); [same_table |].
    destruct (OtpGenerator.verifyOTP digest ocfg otp (otpHash r)) as [[|] |];
      [| | same_table].
    + destruct (id r =? 0).
      * cache_only H.
      * unfold markAsUsed in H. rewrite (update_ok _ _ _ _ ND Hr) in H.
        cbv beta iota in H. injection H as <- <-.
        updated_row ND Hr.
    + destruct (id r =? 0); [same_table |].
      rewrite (incrementAttempts_ok _ _ ND Hr) in H. cbv beta iota zeta in H.
      destruct (bool_decide (status (bump r) = blocked)); injection H as <- <-;
        updated_row ND Hr.
Qed.

Lemma sweep_table_step (s : state) (now : Z) :
  table_step now s (fst (markExpiredOTPs s now)).
Proof.
  unfold markExpiredOTPs, markExpired. simpl.
  exists (map (fun r => if stale now r then assign r (SetStatus expired) else r) (otps s)), [].
  rewrite app_nil_r. split; [reflexivity |]. split.
  - apply Forall2_map_self. intros x _. destruct (stale now x); constructor.
  - left. simpl. split; [reflexivity | lia].
Qed.

Lemma generate_table_step (s s' : state) (ref : string) (l : Qc)
    (rb : Z * Z * Z * Z) (tdb now : Z) (res : result error generated) :
  consistent tdb s -> tdb <= now ->
  generateOTP digest ocfg s ref l rb tdb now = (s', res) ->
  table_step now s s'.
Proof.
  intros C Ht H. unfold generateOTP in H.
  pose proof (ids_unique _ _ C) as ND.
  destruct (transactionRepository.findByReference (transactions s) ref); [| same_table].
  destruct (negb _); [same_table |].
  (* the table once the previous credential is invalidated *)
  assert (Hinv : exists s1,
    match findActiveByTransaction (otps s) ref tdb with
    | Some existingOtp =>
        match update (otps s) (id existingOtp) [SetStatus expired] with
        | Ok (rows, _) => Ok (with_otps s rows)
        | Err e => Err e
        end
    | None => Ok s
    end = Ok s1
    /\ Forall2 (evolves now) (otps s) (otps s1)
    /\ otps_id_seq s1 = otps_id_seq s
    /\ forall x, In x (otps s1) -> is_live now ref x = false).
  { destruct (findActiveByTransaction (otps s) ref tdb) as [e |] eqn:F.
    - apply findActive_In in F. destruct F as [He Hl].
      rewrite (update_ok _ _ _ _ ND He). eexists. split; [reflexivity |].
      split; [apply update_where_evolves; auto; constructor |].
      split; [reflexivity |]. simpl. intros y Hy.
      apply update_where_In in Hy. destruct Hy as (x & Hx & ->).
      destruct (id x =? id e) eqn:E.
      + unfold is_live. simpl. now rewrite andb_false_r.
      + destruct (is_live now ref x) eqn:Lx; [| reflexivity].
        apply (live_later tdb) in Lx; [| exact Ht].
        rewrite (live_unique tdb s ref x e C Hx He Lx Hl), Z.eqb_refl in E.
        discriminate.
    - exists s. split; [reflexivity |]. split.
      + replace (otps s) with (map (fun x => x) (otps s)) at 2 by apply map_id.
        apply Forall2_map_self. constructor.
      + split; [reflexivity |]. intros x Hx.
        destruct (is_live now ref x) eqn:Lx; [| reflexivity].
        apply (live_later tdb) in Lx; [| exact Ht].
        rewrite (proj1 (findActive_None _ _ _) F x Hx) in Lx. discriminate. }
  destruct Hinv as (s1 & Ei & HF & Hseq & Hdead). rewrite Ei in H.
  unfold create in H. destruct (numeric_10_2 l) as [stored |].
  - set (row := mkOtp _ _ _ _ _ _ _ _ _ _ _ _) in H.
    assert (E : otps s' = otps s1 ++ [row] /\ otps_id_seq s' = otps_id_seq s1 + 1).
    { cbv beta iota zeta in H.
      destruct (cacheOn ocfg _); injection H as <- <-; split; reflexivity. }
    destruct E as [Eo Es]. exists (otps s1), [row].
    split; [exact Eo |]. split; [exact HF |].
    right. exists row. split; [reflexivity |].
    split; [exact Hseq |]. split; [lia |].
    split; [reflexivity |]. split; [reflexivity | exact Hdead].
  - injection H as <- <-. exists (otps s1), []. rewrite app_nil_r.
    split; [reflexivity |]. split; [exact HF |]. left. simpl. split; [reflexivity | lia].
Qed.

Lemma consistent_ext (t : Z) (s s' : state) :
  otps s' = otps s -> otps_id_seq s' = otps_id_seq s ->
  consistent t s -> consistent t s'.
Proof.
  intros Eo Es [H1 H2 H3]. constructor; rewrite ?Eo, ?Es; assumption.
Qed.

Lemma table_step_ext (now : Z) (a a' b b' : state) :
  otps a' = otps a -> otps_id_seq a' = otps_id_seq a ->
  otps b' = otps b -> otps_id_seq b' = otps_id_seq b ->
  table_step now a b -> table_step now a' b'.
Proof.
  intros Ea Sa Eb Sb (rows' & added & E & HF & Ha).
  exists rows', added. rewrite Ea, Eb. split; [exact E |]. split; [exact HF |].
  unfold appended in *. rewrite Sa, Sb. exact Ha.
Qed.

Lemma callback_table_step (s s' : state) (d : callbackData)
    (rb : Z * Z * Z * Z) (tdb now : Z) (res : result error mpesa_transaction) :
  consistent tdb s -> tdb <= now ->
  handleCallback digest ocfg s d rb tdb now = (s', res) ->
  table_step now s s'.
Proof.
  intros C Ht H. unfold handleCallback in H.
  destruct (validateCallback d) as [p | e]; [| same_table].
  destruct (mpesaTransactionRepository.findByCheckoutRequestId _ _) as [t |]; [| same_table].
  match type of H with
  | context [match ?u with Ok f => _ | Err e => _ end] =>
      destruct u as [f | e]; [| same_table]
  end.
  destruct (mpesaTransactionRepository.update _ _ _) as [[rows t'] | e]; [| same_table].
  destruct (bool_decide _); [| same_table].
  assert (C1 : consistent tdb (with_mpesa s rows))
    by (apply (consistent_ext tdb s); auto).
  destruct (generateOTP _ _ _ _ _ _ _ _) as [s2 [g | e]] eqn:G;
    injection H as <- <-;
    apply (table_step_ext now (with_mpesa s rows) s s2 _
             eq_refl eq_refl eq_refl eq_refl);
    apply (generate_table_step _ _ _ _ _ _ _ _ C1 Ht G).
Qed.

(** *** The invariant *)

Lemma consistent_later (t t' : Z) (s : state) :
  t <= t' -> consistent t s -> consistent t' s.
Proof.
  intros Ht [H1 H2 H3]. constructor; auto.
  intros ref. specialize (H3 ref). unfold live_rows in *.
  pose proof (filter_length_le (is_live t ref) (is_live t' ref) (fun x => x) (otps s)) as H.
  rewrite map_id in H. etransitivity; [apply H | exact H3].
  intros x _. now apply live_later.
Qed.

Lemma evolves_ids (now : Z) (rows rows' : list otp) :
  Forall2 (evolves now) rows rows' -> map id rows' = map id rows.
Proof.
  intros H. induction H as [| x y l l' Hxy _ IH]; simpl; [reflexivity |].
  now rewrite IH, (evolves_id now x y Hxy).
Qed.

Lemma table_step_consistent (t now : Z) (s s' : state) :
  t <= now -> consistent t s -> table_step now s s' -> consistent now s'.
Proof.
  intros Ht C (rows' & added & E & HF & Ha).
  apply (consistent_later t now s Ht) in C. destruct C as [H1 H2 H3].
  pose proof (evolves_ids now _ _ HF) as Hids.
  assert (Hlive : forall ref,
            (List.length (live_rows now ref rows') <= List.length (live_rows now ref (otps s)))%nat).
  { intros ref. unfold live_rows.
    apply (Forall2_filter_length (evolves now) _ _ _ _ HF).
    intros x y Hxy. now apply evolves_live. }
  assert (Hbelow : Forall (fun r => id r < otps_id_seq s) rows').
  { apply List.Forall_forall. intros y Hy.
    apply (in_map id) in Hy. rewrite Hids in Hy. apply in_map_iff in Hy.
    destruct Hy as (x & <- & Hx). rewrite List.Forall_forall in H2. now apply H2. }
  destruct Ha as [[-> Hs] | (r & -> & Hid & Hs & Hst & Hsta & Hdead)].
  - rewrite app_nil_r in E. constructor; rewrite E.
    + now rewrite Hids.
    + eapply Forall_impl; [exact Hbelow |]. simpl. intros; lia.
    + intros ref. specialize (Hlive ref). specialize (H3 ref). lia.
  - constructor; rewrite E.
    + rewrite map_app, Hids. simpl. apply NoDup_app. split; [exact H1 |].
      split; [| apply NoDup_singleton].
      intros i Hi Hr. apply list_elem_of_In in Hi. apply list_elem_of_singleton in Hr.
      subst i. apply in_map_iff in Hi. destruct Hi as (x & Ex & Hx).
      rewrite List.Forall_forall in H2. specialize (H2 x Hx). lia.
    + apply Forall_app. split.
      * eapply Forall_impl; [exact Hbelow |]. simpl. intros; lia.
      * constructor; [lia | constructor].
    + intros ref. unfold live_rows. rewrite List.filter_app, List.length_app.
      specialize (Hlive ref). specialize (H3 ref). unfold live_rows in *.
      simpl. destruct (is_live now ref r) eqn:Lr; simpl; [| lia].
      assert (ref = transactionReference r) as ->.
      { apply is_live_spec in Lr. symmetry. tauto. }
      rewrite (proj2 (filter_nil_iff _ _) Hdead). simpl. lia.
Qed.

Lemma step_table_step (s : state) (e : event) :
  consistent (e_tdb e) s -> e_tdb e <= e_now e ->
  table_step (e_now e) s (step digest ocfg scfg s e).
Proof.
  intros C Ht. unfold step. destruct (e_request e).
  - destruct (generateOTP _ _ _ _ _ _ _ _) as [s' res] eqn:H.
    exact (generate_table_step _ _ _ _ _ _ _ _ C Ht H).
  - destruct (verifyOTP _ _ _ _ _ _ _) as [s' res] eqn:H.
    exact (verify_table_step _ _ _ _ _ _ _ C Ht H).
  - destruct (verifyOTPForStation _ _ _ _ _ _ _ _ _) as [s' res] eqn:H.
    exact (station_table_step _ _ _ _ _ _ _ _ C Ht H).
  - apply sweep_table_step.
  - destruct (handleCallback _ _ _ _ _ _ _) as [s' res] eqn:H.
    exact (callback_table_step _ _ _ _ _ _ _ C Ht H).
Qed.

Lemma step_consistent (t : Z) (s : state) (e : event) :
  consistent t s -> t <= e_tdb e -> e_tdb e <= e_now e ->
  consistent (e_now e) (step digest ocfg scfg s e).
Proof.
  intros C H1 H2. pose proof (consistent_later t (e_tdb e) s H1 C) as C'.
  apply (table_step_consistent (e_tdb e) (e_now e) s); [exact H2 | exact C' |].
  now apply step_table_step.
Qed.

Lemma run_consistent (t : Z) (s : state) (trace : list event) :
  consistent t s -> chronological t trace ->
  consistent (end_time t trace) (run digest ocfg scfg s trace).
Proof.
  revert t s. induction trace as [| e trace IH]; intros t s C H; simpl; [exact C |].
  destruct H as (H1 & H2 & H3). apply IH; [| exact H3].
  now apply (step_consistent t).
Qed.

(** *** Station claims *)

Lemma Forall2_In_r {A} (R : A -> A -> Prop) (l l' : list A) (y : A) :
  Forall2 R l l' -> In y l' -> exists x, In x l /\ R x y.
Proof.
  intros H. induction H as [| a b l l' Hab _ IH]; intros Hy; [destruct Hy |].
  destruct Hy as [<- | Hy].
  - exists a. split; [now left | exact Hab].
  - destruct (IH Hy) as (x & Hx & HR). exists x. split; [now right | exact HR].
Qed.

Lemma evolves_claimed (now : Z) (owner : string) (x y : otp) :
  evolves now x y ->
  stationId x = Some owner /\ status x <> active ->
  stationId y = Some owner /\ status y <> active.
Proof.
  intros H [Hs Ha]. destruct H as [| | | | station Hl Hne Hst]; simpl.
  - split; assumption.
  - split; [exact Hs | discriminate].
  - split; [exact Hs | discriminate].
  - split; [exact Hs |]. destruct (maxAttempts x <=? attempts x + 1); [discriminate | exact Ha].
  - split; [| discriminate].
    apply is_live_spec in Hl. destruct Hl as (_ & [Hact | Hinp] & _); [contradiction |].
    rewrite <- Hs. symmetry. now apply Hst.
Qed.

Lemma table_step_claimed (now : Z) (s s' : state) (owner : string) (i : Z) :
  claimed_by owner i s -> table_step now s s' -> claimed_by owner i s'.
Proof.
  intros [Hi Hc] (rows' & added & E & HF & Ha). split.
  - destruct Ha as [[_ Hs] | (r & _ & _ & Hs & _)]; lia.
  - intros y Hy Hid. rewrite E in Hy. apply in_app_or in Hy. destruct Hy as [Hy | Hy].
    + destruct (Forall2_In_r _ _ _ _ HF Hy) as (x & Hx & Hxy).
      apply (evolves_claimed now owner x y Hxy). apply Hc; [exact Hx |].
      now rewrite <- (evolves_id now x y Hxy).
    + destruct Ha as [[-> _] | (r & -> & Hr & _)]; [destruct Hy |].
      destruct Hy as [<- | []]. lia.
Qed.

Lemma run_claimed (t : Z) (s : state) (trace : list event) (owner : string) (i : Z) :
  consistent t s -> claimed_by owner i s -> chronological t trace ->
  claimed_by owner i (run digest ocfg scfg s trace).
Proof.
  revert t s. induction trace as [| e trace IH]; intros t s C Hc H; simpl; [exact Hc |].
  destruct H as (H1 & H2 & H3).
  apply (IH (e_now e)); [now apply (step_consistent t) | | exact H3].
  apply (table_step_claimed (e_now e) s); [exact Hc |].
  apply step_table_step; [now apply (consistent_later t) | exact H2].
Qed.

(** What a successful station call did. *)
Lemma station_success_inv (s s1 : state) (ref otp station : string) (tdb now : Z)
    (a : authorization) :
  verifyOTPForStation digest ocfg scfg s ref otp station tdb now = (s1, Ok a) ->
  exists r,
    findActiveByTransaction (otps s) ref tdb = Some r
    /\ ref <> "" /\ station <> ""
    /\ now < expiresAt r
    /\ right_code digest ocfg r otp
    /\ otps s1 = update_where (id r)
                   (fun x => fold_left assign
                      [SetStatus in_progress; SetStationId station; SetVerifiedAt now] x)
                   (otps s)
    /\ otps_id_seq s1 = otps_id_seq s
    /\ a_liters a = liters r /\ a_pulses a = pulsesFor scfg (liters r).
Proof.
  unfold verifyOTPForStation. intros H.
  destruct (_ || _ || _) eqn:Ereq; [discriminate |].
  destruct (negb _); [discriminate |].
  destruct (findActiveByTransaction (otps s) ref tdb) as [r |] eqn:F; [| discriminate].
  exists r. split; [reflexivity |].
  destruct (expiresAt r <=? now) eqn:Eexp.
  { destruct (update _ _ _) as [[? ?] | ?]; discriminate. }
  destruct (bool_decide (status r = used)); [discriminate |].
  destruct (bool_decide (status r = blocked)); [discriminate |].
  destruct (enforceStationLock scfg && stationSet r && _); [discriminate |].
  destruct (bool_decide (status r = in_progress) && _); [discriminate |].
  destruct (OtpGenerator.verifyOTP digest ocfg otp (otpHash r)) as [[|] |] eqn:V;
    [| | discriminate].
  - unfold markInProgress in H.
    destruct (returning _ _); [| discriminate]. injection H as <- <-.
    apply orb_false_elim in Ereq. destruct Ereq as [Ereq E3].
    apply orb_false_elim in Ereq. destruct Ereq as [E1 _].
    split. { intros ->. discriminate E1. }
    split. { intros ->. discriminate E3. }
    split; [apply Z.leb_gt in Eexp; lia |].
    split; [exact V |]. repeat split; reflexivity.
  - destruct (incrementAttempts _ _) as [[? ?] | ?]; [| discriminate].
    destruct (bool_decide _); discriminate.
Qed.

Lemma station_success_claims (t : Z) (s s1 : state) (ref code station : string)
    (tdb now : Z) (a : authorization) (r : otp) :
  consistent t s ->
  verifyOTPForStation digest ocfg scfg s ref code station tdb now = (s1, Ok a) ->
  findActiveByTransaction (otps s) ref tdb = Some r ->
  claimed_by station (id r) s1.
Proof.
  intros C H F. destruct (station_success_inv _ _ _ _ _ _ _ _ H) as (r0 & F0 & _ & _ & _ & _ & Eo & Es & _).
  rewrite F in F0. injection F0 as <-.
  apply findActive_In in F. destruct F as [Hr _]. split.
  - rewrite Es. pose proof (ids_below_seq _ _ C) as Hb.
    rewrite List.Forall_forall in Hb. now apply Hb.
  - intros y Hy Hid. rewrite Eo in Hy. apply update_where_In in Hy.
    destruct Hy as (x & Hx & ->). destruct (id x =? id r) eqn:E.
    + simpl. split; [reflexivity | discriminate].
    + apply Z.eqb_neq in E. contradiction.
Qed.

(** A station other than the owner is turned away. *)
Lemma station_other_rejected (s : state) (ref code other owner : string) (tdb now : Z)
    (r : otp) :
  claimed_by owner (id r) s ->
  findActiveByTransaction (otps s) ref tdb = Some r ->
  other <> owner ->
  exists e, snd (verifyOTPForStation digest ocfg scfg s ref code other tdb now) = Err e.
Proof.
  intros [_ Hc] F Hne. unfold verifyOTPForStation.
  destruct (_ || _ || _); [eauto |]. destruct (negb _); [eauto |].
  rewrite F. pose proof (findActive_In _ _ _ _ F) as [Hr Hl].
  destruct (Hc r Hr eq_refl) as [Hs Ha].
  destruct (expiresAt r <=? now).
  { destruct (update _ _ _) as [[? ?] | ?]; simpl; eauto. }
  destruct (bool_decide (status r = used)); [eauto |].
  destruct (bool_decide (status r = blocked)); [eauto |].
  destruct (enforceStationLock scfg && stationSet r && _); [eauto |].
  assert (E : bool_decide (status r = in_progress)
              && negb (bool_decide (stationId r = Some other)) = true).
  { apply is_live_spec in Hl. destruct Hl as (_ & [Hact | Hinp] & _); [contradiction |].
    apply andb_true_intro. split; [now apply bool_decide_eq_true |].
    apply negb_true_iff, bool_decide_eq_false. rewrite Hs. congruence. }
  rewrite E. eauto.
Qed.

(** C1 (amended).  A credential is bound to the first station that
    redeems it: after one successful station verification by [owner],
    and whatever calls are served afterwards, no station verify call
    from a different station that addresses that same credential
    returns success. *)
Theorem station_claim_excludes_other_stations
    (t : Z) (s s1 : state) (ref code owner : string) (tdb now : Z) (a : authorization) :
  consistent t s -> t <= tdb -> tdb <= now ->
  verifyOTPForStation digest ocfg scfg s ref code owner tdb now = (s1, Ok a) ->
  exists r,
    findActiveByTransaction (otps s) ref tdb = Some r
    /\ forall (trace : list event) (ref' code' other : string) (tdb' now' : Z) (r' : otp),
         chronological now trace ->
         other <> owner ->
         findActiveByTransaction (otps (run digest ocfg scfg s1 trace)) ref' tdb' = Some r' ->
         id r' = id r ->
         exists e,
           snd (verifyOTPForStation digest ocfg scfg (run digest ocfg scfg s1 trace)
                  ref' code' other tdb' now') = Err e.
Proof.
  intros C Ht1 Ht2 H.
  destruct (station_success_inv _ _ _ _ _ _ _ _ H) as (r & F & _).
  exists r. split; [exact F |].
  intros trace ref' code' other tdb' now' r' Hchr Hne F' Hid.
  assert (C1 : consistent now s1).
  { apply (table_step_consistent tdb now s); [exact Ht2 | now apply (consistent_later t) |].
    apply (station_table_step s s1 ref code owner tdb now (Ok a));
      [now apply (consistent_later t) | exact Ht2 | exact H]. }
  pose proof (station_success_claims t s s1 ref code owner tdb now a r C H F) as Hcl.
  pose proof (run_claimed now s1 trace owner (id r) C1 Hcl Hchr) as Hrun.
  rewrite <- Hid in Hrun.
  exact (station_other_rejected _ ref' code' other owner tdb' now' r' Hrun F' Hne).
Qed.


(** C8 (amended).  For every transaction reference at most one
    credential is live (status active or in_progress and not past its
    expiry) at any time: every history of issue, verify, station verify,
    sweep and callback served in clock order preserves this, and issuing
    a new credential for a reference that has a live one first turns
    that one's status to expired. *)
Theorem live_credential_invariant :
  (forall (t : Z) (s : state) (trace : list event),
      consistent t s -> chronological t trace ->
      consistent (end_time t trace) (run digest ocfg scfg s trace))
  /\ (forall (t : Z) (s s' : state) (ref : string) (l : Qc) (rb : Z * Z * Z * Z)
             (tdb now : Z) (g : generated) (e : Store.otp),
      consistent t s -> t <= tdb -> tdb <= now ->
      findActiveByTransaction (otps s) ref tdb = Some e ->
      generateOTP digest ocfg s ref l rb tdb now = (s', Ok g) ->
      (exists e', In e' (otps s') /\ id e' = id e)
      /\ (forall e', In e' (otps s') -> id e' = id e -> status e' = expired)).
Proof.
  split; [exact run_consistent |].
  intros t s s' ref l rb tdb now g e C Ht1 Ht2 F H.
  pose proof (consistent_later t tdb s Ht1 C) as C'.
  pose proof (ids_unique _ _ C') as ND.
  pose proof (ids_below_seq _ _ C') as Hb. rewrite List.Forall_forall in Hb.
  pose proof (findActive_In _ _ _ _ F) as [He _].
  unfold generateOTP in H.
  destruct (transactionRepository.findByReference (transactions s) ref); [| discriminate].
  destruct (negb _); [discriminate |].
  rewrite F, (update_ok _ _ _ _ ND He) in H. cbv beta iota in H.
  unfold create in H. destruct (numeric_10_2 l) as [stored |]; [| discriminate].
  cbv beta iota zeta in H.
  set (rows := update_where (id e) _ (otps s)) in H.
  set (row := mkOtp _ _ _ _ _ _ _ _ _ _ _ _) in H.
  assert (Eo : otps s' = rows ++ [row]).
  { destruct (cacheOn ocfg _); injection H as <- _; reflexivity. }
  rewrite Eo. split.
  - exists (fold_left assign [SetStatus expired] e). split; [| reflexivity].
    apply in_or_app. left. subst rows. unfold update_where.
    apply in_map_iff. exists e. rewrite Z.eqb_refl. auto.
  - intros e' He' Hid. apply in_app_or in He'. destruct He' as [He' | [<- | []]].
    + subst rows. apply update_where_In in He'. destruct He' as (x & Hx & ->).
      destruct (id x =? id e) eqn:E; [reflexivity |].
      apply Z.eqb_neq in E. contradiction.
    + simpl in Hid. specialize (Hb e He). simpl in Hb. lia.
Qed.

(** *** Failed attempts *)

Lemma station_wrong_call (s : state) (ref : string) (a : attempt) (r : Store.otp) :
  consistent (at_tdb a) s ->
  findActiveByTransaction (otps s) ref (at_tdb a) = Some r ->
  unclaimed r -> ref <> "" -> wrong_attempt digest ocfg r a ->
  verifyOTPForStation digest ocfg scfg s ref (at_code a) (at_station a) (at_tdb a) (at_now a) =
    (with_otps s (update_where (id r) bump (otps s)),
     Err (if maxAttempts r <=? attempts r + 1 then Blocked
          else InvalidRemaining (maxAttempts r - (attempts r + 1)))).
Proof.
  intros C F [Hst Hact] Href (Hw & Hsta & Hlen & Hexp).
  pose proof (findActive_In _ _ _ _ F) as [Hr _].
  pose proof (ids_unique _ _ C) as ND.
  unfold verifyOTPForStation.
  assert (E1 : (ref =? "")%string = false) by now apply String.eqb_neq.
  assert (E2 : (at_code a =? "")%string = false).
  { apply String.eqb_neq. intros E. rewrite E in Hlen. discriminate Hlen. }
  assert (E3 : (at_station a =? "")%string = false) by now apply String.eqb_neq.
  rewrite E1, E2, E3, Hlen, F. cbn [orb negb Nat.eqb].
  assert (E4 : (expiresAt r <=? at_now a) = false) by (apply Z.leb_gt; lia).
  rewrite E4, Hact. unfold stationSet. rewrite Hst.
  cbn [bool_decide decide_rel andb negb]. rewrite andb_false_r. cbn [andb].
  unfold wrong_code in Hw. rewrite Hw.
  rewrite (incrementAttempts_ok _ _ ND Hr). cbv beta iota.
  change (status (bump r))
    with (if maxAttempts r <=? attempts r + 1 then blocked else status r).
  change (maxAttempts (bump r)) with (maxAttempts r).
  change (attempts (bump r)) with (attempts r + 1).
  rewrite Hact. destruct (maxAttempts r <=? attempts r + 1); reflexivity.
Qed.

Lemma bumped_row (t : Z) (s : state) (ref : string) (r : Store.otp) :
  consistent t s -> In r (otps s) ->
  In (bump r) (update_where (id r) bump (otps s)).
Proof.
  intros C Hr. unfold update_where. apply in_map_iff. exists r.
  rewrite Z.eqb_refl. auto.
Qed.

Lemma wrong_attempts_block (ref : string) (calls : list attempt) :
  ref <> "" ->
  forall (t : Z) (s : state) (r : Store.otp),
    consistent t s ->
    findActiveByTransaction (otps s) ref t = Some r ->
    unclaimed r ->
    calls <> [] ->
    attempts r + Z.of_nat (List.length calls) = maxAttempts r ->
    Forall (wrong_attempt digest ocfg r) calls ->
    chronological t (map (attempt_event ref) calls) ->
    exists s' results,
      stationAttempts digest ocfg scfg s ref calls = (s', results)
      /\ consistent (end_time t (map (attempt_event ref) calls)) s'
      /\ Forall (fun res => exists k, 0 < k /\ res = Err (InvalidRemaining k))
                (removelast results)
      /\ last results = Some (Err Blocked)
      /\ (exists r', In r' (otps s') /\ id r' = id r /\ status r' = blocked
                     /\ attempts r' = maxAttempts r)
      /\ (forall x, In x (otps s') ->
            is_live (end_time t (map (attempt_event ref) calls)) ref x = false).
Proof.
  intros Href. induction calls as [| a calls IH]; intros t s r C F Hun Hne Hcount Hw Hchr;
    [contradiction |].
  simpl in Hchr. destruct Hchr as (Ht1 & Ht2 & Hchr).
  apply Forall_cons in Hw. destruct Hw as [Hwa Hw].
  pose proof (consistent_later t (at_tdb a) s Ht1 C) as C1.
  pose proof (findActive_In _ _ _ _ F) as [Hr Hl].
  assert (F1 : findActiveByTransaction (otps s) ref (at_tdb a) = Some r).
  { apply (findActive_consistent _ s); [exact C1 | exact Hr |].
    apply is_live_spec in Hl. apply is_live_spec.
    destruct Hwa as (_ & _ & _ & Hexp). simpl in Ht2. intuition lia. }
  pose proof (station_wrong_call s ref a r C1 F1 Hun Href Hwa) as Hcall.
  set (s1 := with_otps s (update_where (id r) bump (otps s))) in *.
  assert (C2 : consistent (at_now a) s1).
  { apply (table_step_consistent (at_tdb a) (at_now a) s); [exact Ht2 | exact C1 |].
    eapply station_table_step; [exact C1 | exact Ht2 | exact Hcall]. }
  assert (Hb : In (bump r) (otps s1)) by (apply (bumped_row t s ref r C Hr)).
  cbn [stationAttempts map end_time]. rewrite Hcall.
  change (e_now (attempt_event ref a)) with (at_now a) in *.
  destruct calls as [| a' calls'].
  - (* the last attempt: the credential is blocked *)
    simpl in Hcount. cbn [stationAttempts map end_time].
    assert (E : (maxAttempts r <=? attempts r + 1) = true) by (apply Z.leb_le; lia).
    rewrite E. eexists _, _. split; [reflexivity |].
    split; [exact C2 |]. split; [constructor |]. split; [reflexivity |]. split.
    + exists (bump r). split; [exact Hb |].
      unfold bump; cbn [id status attempts maxAttempts]. rewrite E.
      repeat split. lia.
    + intros y Hy. simpl in Hy. apply update_where_In in Hy.
      destruct Hy as (x & Hx & ->). destruct (id x =? id r) eqn:Eid.
      * apply Z.eqb_eq in Eid.
        rewrite (id_unique (otps s) x r (ids_unique _ _ C) Hx Hr Eid).
        unfold is_live, bump. cbn [status]. rewrite E.
        cbn [bool_decide decide_rel orb andb]. now rewrite andb_false_r.
      * destruct (is_live (at_now a) ref x) eqn:Lx; [| reflexivity].
        apply (live_later t) in Lx; [| lia].
        rewrite (live_unique t s ref x r C Hx Hr Lx Hl), Z.eqb_refl in Eid.
        discriminate.
  - (* an earlier attempt: one more failure is counted *)
    assert (E : (maxAttempts r <=? attempts r + 1) = false).
    { apply Z.leb_gt. simpl List.length in Hcount. lia. }
    assert (Hl1 : is_live (at_now a) ref (bump r) = true).
    { apply is_live_spec in Hl. apply is_live_spec.
      unfold bump; cbn [transactionReference status expiresAt]. rewrite E.
      destruct Hwa as (_ & _ & _ & Hexp). intuition lia. }
    pose proof (findActive_consistent _ s1 ref (bump r) C2 Hb Hl1) as F2.
    destruct (IH (at_now a) s1 (bump r) C2 F2) as (s' & results & Hrun & C' & Hres & Hlast & Hblk & Hdead).
    + destruct Hun as [Hu1 Hu2].
      split; unfold bump; cbn [stationId status]; [exact Hu1 |]. now rewrite E.
    + discriminate.
    + unfold bump at 1 2; simpl attempts; simpl maxAttempts.
      simpl List.length in Hcount |- *. lia.
    + exact Hw.
    + exact Hchr.
    + rewrite Hrun. eexists _, _. split; [reflexivity |].
      split; [exact C' |]. split.
      * rewrite E. destruct results as [| res results]; [discriminate Hlast |].
        simpl removelast. constructor; [| exact Hres].
        exists (maxAttempts r - (attempts r + 1)). split; [lia | reflexivity].
      * split; [destruct results; [discriminate Hlast | exact Hlast] |].
        split; [exact Hblk | exact Hdead].
Qed.

(** C3.  After [maxAttempts] consecutive wrong station verify calls a
    fresh credential is blocked: the earlier calls answer "invalid, n
    attempts remaining", the last one BLOCKED (400), and the stored
    status is blocked.  Every further verify call, whatever code it
    presents, is then answered "not found" (404) instead of BLOCKED. *)
Theorem blocked_credential_is_reported_missing
    (t : Z) (s : state) (ref : string) (r : Store.otp) (calls : list attempt) :
  consistent t s -> ref <> "" ->
  findActiveByTransaction (otps s) ref t = Some r ->
  unclaimed r -> attempts r = 0 -> 0 < maxAttempts r ->
  Z.of_nat (List.length calls) = maxAttempts r ->
  Forall (wrong_attempt digest ocfg r) calls ->
  chronological t (map (attempt_event ref) calls) ->
  exists s' results,
    stationAttempts digest ocfg scfg s ref calls = (s', results)
    /\ Forall (fun res => exists k, 0 < k /\ res = Err (InvalidRemaining k))
              (removelast results)
    /\ last results = Some (Err Blocked)
    /\ (exists r', In r' (otps s') /\ id r' = id r /\ status r' = blocked
                   /\ attempts r' = maxAttempts r)
    /\ forall (code station : string) (tdb now : Z),
         end_time t (map (attempt_event ref) calls) <= tdb ->
         station <> "" -> String.length code = 6%nat ->
         verifyOTPForStation digest ocfg scfg s' ref code station tdb now =
           (s', Err NotFoundOrExpired)
         /\ statusCode NotFoundOrExpired = 404.
Proof.
  intros C Href F Hun Hz Hmax Hlen Hw Hchr.
  destruct (wrong_attempts_block ref calls Href t s r C F Hun) as
    (s' & results & Hrun & C' & Hres & Hlast & Hblk & Hdead); auto.
  { intros ->. simpl in Hlen. lia. }
  { lia. }
  exists s', results. repeat (split; [assumption |]).
  intros code station tdb now Ht Hsta Hcode. split; [| reflexivity].
  unfold verifyOTPForStation.
  assert (E1 : (ref =? "")%string = false) by now apply String.eqb_neq.
  assert (E2 : (code =? "")%string = false).
  { apply String.eqb_neq. intros ->. discriminate Hcode. }
  assert (E3 : (station =? "")%string = false) by now apply String.eqb_neq.
  rewrite E1, E2, E3, Hcode. cbn [orb negb Nat.eqb].
  replace (findActiveByTransaction (otps s') ref tdb) with (@None Store.otp); [reflexivity |].
  symmetry. apply findActive_None. intros x Hx.
  destruct (is_live tdb ref x) eqn:Lx; [| reflexivity].
  apply (live_later (end_time t (map (attempt_event ref) calls))) in Lx; [| exact Ht].
  rewrite (Hdead x Hx) in Lx. discriminate.
Qed.

(** *** The customer-facing verification and the cache *)

Lemma cached_record (s : state) (ref : string) (tdb : Z) (e : cache_entry) :
  cacheOn ocfg s = true -> redisClient.get s (_getCacheKey ref) tdb = Some e ->
  (if cacheOn ocfg s then option_map FromCache (redisClient.get s (_getCacheKey ref) tdb) else None)
  = Some (FromCache e).
Proof. intros -> ->. reflexivity. Qed.

(** C4.  When the credential record is served from the cache, a verify
    call with a wrong code answers "invalid" and leaves the whole state
    as it was: the durable attempts counter is not incremented and no
    blocking is decided. *)
Theorem cached_wrong_code_is_not_counted
    (s : state) (ref code : string) (tdb now : Z) (e : cache_entry) :
  cacheOn ocfg s = true ->
  redisClient.get s (_getCacheKey ref) tdb = Some e ->
  now < c_expiresAt e ->
  OtpGenerator.verifyOTP digest ocfg code (c_otpHash e) = Some false ->
  verifyOTP digest ocfg s ref code tdb now = (s, Err InvalidOTP).
Proof.
  intros Hon Hget Hexp Hw. unfold verifyOTP.
  rewrite (cached_record s ref tdb e Hon Hget). cbv beta iota.
  unfold rec_expiresAt, rec_status, rec_otpHash, rec_id.
  assert (E : (c_expiresAt e <=? now) = false) by (apply Z.leb_gt; lia).
  rewrite E, Hw. reflexivity.
Qed.

Lemma station_reads_table_only (s1 s2 : state) (ref code station : string) (tdb now : Z) :
  otps s1 = otps s2 ->
  snd (verifyOTPForStation digest ocfg scfg s1 ref code station tdb now)
  = snd (verifyOTPForStation digest ocfg scfg s2 ref code station tdb now).
Proof.
  intros E. unfold verifyOTPForStation. rewrite E.
  repeat (case_match; try reflexivity).
Qed.

(** C10.  When the credential record is served from the cache, a
    customer verify with the correct code answers valid but writes
    nothing to the table: the credential is not marked used, and every
    later station verify is answered exactly as if the customer had
    never verified. *)
Theorem cached_verify_leaves_credential_open
    (s : state) (ref code : string) (tdb now : Z) (e : cache_entry) :
  cacheOn ocfg s = true ->
  redisClient.get s (_getCacheKey ref) tdb = Some e ->
  now < c_expiresAt e ->
  OtpGenerator.verifyOTP digest ocfg code (c_otpHash e) = Some true ->
  exists s',
    verifyOTP digest ocfg s ref code tdb now =
      (s', Ok {| v_valid := true; v_transactionReference := ref; v_liters := c_liters e |})
    /\ otps s' = otps s
    /\ forall (code' station : string) (tdb' now' : Z),
         snd (verifyOTPForStation digest ocfg scfg s' ref code' station tdb' now')
         = snd (verifyOTPForStation digest ocfg scfg s ref code' station tdb' now').
Proof.
  intros Hon Hget Hexp Hr. exists (redisClient.del s (_getCacheKey ref)).
  split; [| split; [reflexivity |]].
  - unfold verifyOTP.
    rewrite (cached_record s ref tdb e Hon Hget). cbv beta iota.
    unfold rec_expiresAt, rec_status, rec_otpHash, rec_id, rec_liters.
    assert (E : (c_expiresAt e <=? now) = false) by (apply Z.leb_gt; lia).
    rewrite E, Hr, Hon. reflexivity.
  - intros. now apply station_reads_table_only.
Qed.

(** *** Provider callbacks *)

Lemma find_map_stable {A} (P : A -> bool) (g : A -> A) (l : list A) :
  (forall x, P (g x) = P x) ->
  List.find P (map g l) = option_map g (List.find P l).
Proof.
  intros H. induction l as [| x l IH]; simpl; [reflexivity |].
  rewrite H. destruct (P x); [reflexivity | exact IH].
Qed.

Lemma update_where_length (i : Z) (f : Store.otp -> Store.otp) (rows : list Store.otp) :
  List.length (update_where i f rows) = List.length rows.
Proof. unfold update_where. apply length_map. Qed.

Lemma update_found (rows : list Store.otp) (r : Store.otp) (a : assignment)
    (ups : list assignment) :
  In r rows ->
  exists r',
    update rows (id r) (a :: ups) =
      Ok (update_where (id r) (fun x => fold_left assign (a :: ups) x) rows, r').
Proof.
  intros Hr. unfold update.
  destruct (returning _ _) as [r' |] eqn:E; [eauto |].
  exfalso. unfold returning in E.
  assert (Hin : In (fold_left assign (a :: ups) r)
                  (update_where (id r) (fun x => fold_left assign (a :: ups) x) rows)).
  { unfold update_where. apply in_map_iff. exists r. rewrite Z.eqb_refl. auto. }
  pose proof (find_none _ _ E _ Hin) as Hnone. cbv beta in Hnone.
  rewrite fold_assign_id, Z.eqb_refl in Hnone. discriminate.
Qed.

(** Issuance succeeds exactly when the reference names a completed
    hosted-checkout transaction and the litres fit the column; it then
    appends one row. *)
Lemma generate_outcome (s s' : state) (ref : string) (l : Qc) (rb : Z * Z * Z * Z)
    (tdb now : Z) (res : result error generated) :
  generateOTP digest ocfg s ref l rb tdb now = (s', res) ->
  transactions s' = transactions s
  /\ mpesa_transactions s' = mpesa_transactions s
  /\ sms_outbox s' = sms_outbox s
  /\ ((exists g tx stored,
         res = Ok g
         /\ g_expiresInMinutes g = expirationMinutes ocfg
         /\ transactionRepository.findByReference (transactions s) ref = Some tx
         /\ t_status tx = completed
         /\ numeric_10_2 l = Some stored
         /\ List.length (otps s') = S (List.length (otps s)))
      \/ (exists e,
         res = Err e
         /\ (transactionRepository.findByReference (transactions s) ref = None
              \/ (exists tx, transactionRepository.findByReference (transactions s) ref = Some tx
                             /\ t_status tx <> completed)
              \/ numeric_10_2 l = None)
         /\ List.length (otps s') = List.length (otps s))).
Proof.
  unfold generateOTP. intros H.
  destruct (transactionRepository.findByReference (transactions s) ref) as [tx |] eqn:Ftx.
  2: { injection H as <- <-. repeat split; auto. right. eexists. eauto. }
  destruct (bool_decide (t_status tx = completed)) eqn:Est; cbn [negb] in H.
  2: { injection H as <- <-. repeat split; auto. right. eexists.
       split; [reflexivity |]. split; [| reflexivity]. right. left.
       exists tx. split; [reflexivity |]. now apply bool_decide_eq_false in Est. }
  apply bool_decide_eq_true in Est.
  assert (Hinv : exists s1,
    match findActiveByTransaction (otps s) ref tdb with
    | Some existingOtp =>
        match update (otps s) (id existingOtp) [SetStatus expired] with
        | Ok (rows, _) => Ok (with_otps s rows)
        | Err e => Err e
        end
    | None => Ok s
    end = Ok s1
    /\ List.length (otps s1) = List.length (otps s)
    /\ transactions s1 = transactions s
    /\ mpesa_transactions s1 = mpesa_transactions s
    /\ sms_outbox s1 = sms_outbox s).
  { destruct (findActiveByTransaction (otps s) ref tdb) as [e |] eqn:F.
    - apply findActive_In in F. destruct F as [He _].
      destruct (update_found (otps s) e (SetStatus expired) [] He) as (r' & ->).
      eexists. split; [reflexivity |]. simpl.
      rewrite update_where_length. auto.
    - exists s. auto. }
  destruct Hinv as (s1 & Ei & Hlen & Htx & Hmp & Hsms). rewrite Ei in H.
  unfold create in H. destruct (numeric_10_2 l) as [stored |] eqn:En.
  - cbv beta iota zeta in H.
    assert (E : otps s' = otps s1 ++ [mkOtp (otps_id_seq s1) ref
                  (OtpGenerator.hashOTP digest ocfg (OtpGenerator.generateOTP ocfg rb))
                  stored active None 0 (maxAttempts_cfg ocfg) None None
                  (now + expirationMinutes ocfg * 60000) now]
              /\ transactions s' = transactions s1
              /\ mpesa_transactions s' = mpesa_transactions s1
              /\ sms_outbox s' = sms_outbox s1
              /\ exists g, res = Ok g /\ g_expiresInMinutes g = expirationMinutes ocfg).
    { destruct (cacheOn ocfg _); injection H as <- <-; repeat split; eauto. }
    destruct E as (Eo & E1 & E2 & E3 & g & -> & Hg).
    split; [congruence |]. split; [congruence |]. split; [congruence |].
    left. exists g, tx, stored. repeat split; auto.
    rewrite Eo, List.length_app. simpl. lia.
  - injection H as <- <-. simpl. repeat split; auto.
    right. eexists. split; [reflexivity |]. split; [auto | exact Hlen].
Qed.

Lemma generate_succeeds (s : state) (ref : string) (l : Qc) (rb : Z * Z * Z * Z)
    (tdb now : Z) (tx : transaction) (stored : Qc) :
  transactionRepository.findByReference (transactions s) ref = Some tx ->
  t_status tx = completed ->
  numeric_10_2 l = Some stored ->
  exists s' g,
    generateOTP digest ocfg s ref l rb tdb now = (s', Ok g)
    /\ List.length (otps s') = S (List.length (otps s)).
Proof.
  intros Ftx Hst Hn.
  destruct (generateOTP digest ocfg s ref l rb tdb now) as [s' res] eqn:H.
  destruct (generate_outcome _ _ _ _ _ _ _ _ H) as (_ & _ & _ & [Hok | Herr]).
  - destruct Hok as (g & _ & _ & -> & _ & _ & _ & _ & Hlen). eauto.
  - destruct Herr as (e & _ & [Hnone | [(tx' & Ftx' & Hst') | Hnum]] & _); congruence.
Qed.

Lemma mpesa_update_inv (rows rows' : list mpesa_transaction) (ref : string)
    (f : mpesa_transaction -> mpesa_transaction) (u : mpesa_transaction) :
  (forall x, m_reference (f x) = m_reference x) ->
  mpesaTransactionRepository.update rows ref f = Ok (rows', u) ->
  rows' = map (fun t => if String.eqb (m_reference t) ref then f t else t) rows
  /\ exists x, In x rows /\ m_reference x = ref /\ u = f x.
Proof.
  intros Hf H. unfold mpesaTransactionRepository.update in H.
  destruct (List.find _ _) as [t |] eqn:E; [| discriminate].
  injection H as <- <-. split; [reflexivity |].
  apply find_some in E. destruct E as [Hin Hp].
  apply in_map_iff in Hin. destruct Hin as (x & Ex & Hx).
  exists x. split; [exact Hx |].
  destruct (String.eqb (m_reference x) ref) eqn:Eref.
  - apply String.eqb_eq in Eref. auto.
  - subst t. rewrite Eref in Hp. discriminate.
Qed.

Lemma mpesa_update_ok (rows : list mpesa_transaction) (ref : string)
    (f : mpesa_transaction -> mpesa_transaction) (t : mpesa_transaction) :
  (forall x, m_reference (f x) = m_reference x) ->
  In t rows -> m_reference t = ref ->
  exists rows' u, mpesaTransactionRepository.update rows ref f = Ok (rows', u).
Proof.
  intros Hf Hin Href. unfold mpesaTransactionRepository.update.
  destruct (List.find _ _) as [u |] eqn:E; [eauto |].
  exfalso.
  assert (Hin' : In (f t) (map (fun t => if String.eqb (m_reference t) ref then f t else t) rows)).
  { apply in_map_iff. exists t. rewrite Href, String.eqb_refl. auto. }
  pose proof (find_none _ _ E _ Hin') as Hnone. cbv beta in Hnone.
  rewrite Hf, Href, String.eqb_refl in Hnone. discriminate.
Qed.

(** C2 (amended).  Delivering the same success callback a second time
    keeps the transaction completed, but it is not a no-op: whenever
    the first delivery issued a credential, the second delivery issues
    another one and hands another message to the SMS gateway. *)
Theorem callback_redelivery_issues_again
    (s s1 s2 : state) (d : callbackData) (rb1 rb2 : Z * Z * Z * Z)
    (tdb1 now1 tdb2 now2 : Z) (u1 : mpesa_transaction)
    (res2 : result error mpesa_transaction) :
  handleCallback digest ocfg s d rb1 tdb1 now1 = (s1, Ok u1) ->
  List.length (otps s1) = S (List.length (otps s)) ->
  handleCallback digest ocfg s1 d rb2 tdb2 now2 = (s2, res2) ->
  m_status u1 = completed
  /\ (exists u2, res2 = Ok u2 /\ m_status u2 = completed
                 /\ m_reference u2 = m_reference u1)
  /\ List.length (otps s2) = S (List.length (otps s1))
  /\ List.length (sms_outbox s2) = S (List.length (sms_outbox s1)).
Proof.
  intros H1 Hgrew H2. unfold handleCallback in H1, H2.
  destruct (validateCallback d) as [p | e]; [| discriminate].
  destruct (mpesaTransactionRepository.findByCheckoutRequestId (mpesa_transactions s) _) as [tx |] eqn:Ftx;
    [| discriminate].
  destruct (bool_decide (statusOfResultCode (p_resultCode p) = completed)) eqn:Est.
  2: { exfalso.
       destruct (mpesaTransactionRepository.update _ _ _) as [[rows t'] | e]; [| injection H1 as <- _; lia].
       injection H1 as <- _. simpl in Hgrew. lia. }
  apply bool_decide_eq_true in Est.
  destruct (cm_transactionDate (p_callbackMetadata p)) as [dateStr |]; [| discriminate].
  set (f1 := fun t : mpesa_transaction => mkMpesa _ _ _ _ _ _ (Some (_parseTransactionDate dateStr now1)) _ _) in H1.
  set (f2 := fun t : mpesa_transaction => mkMpesa _ _ _ _ _ _ (Some (_parseTransactionDate dateStr now2)) _ _) in H2.
  destruct (mpesaTransactionRepository.update (mpesa_transactions s) (m_reference tx) f1)
    as [[rows u] | e] eqn:U1; [| discriminate].
  destruct (mpesa_update_inv _ _ _ f1 _ (fun x => eq_refl) U1) as (Erows & x1 & Hx1 & Rx1 & Eu1).
  destruct (generateOTP digest ocfg (with_mpesa s rows) _ _ rb1 tdb1 now1)
    as [sg r] eqn:G1.
  destruct (generate_outcome _ _ _ _ _ _ _ _ G1) as (Gtx & Gmp & Gsms & Gcase).
  destruct Gcase as [(g & txn & stored & -> & _ & Fref & Hcomp & Hnum & Hlen) | (e & -> & _ & Hlen)].
  2: { exfalso. injection H1 as <- _. simpl in Hlen. lia. }
  injection H1 as <- <-.
  (* the second delivery finds the same transaction, now completed *)
  set (gg := fun t => if String.eqb (m_reference t) (m_reference tx) then f1 t else t) in Erows.
  assert (Hmp1 : mpesa_transactions (with_sms sg
                   {| sms_phoneNumber := ("+" ++ m_phoneNumber tx)%string;
                      sms_otp := g_otp g; sms_liters := m_liters tx;
                      sms_expiresInMinutes := g_expiresInMinutes g |}) = rows)
    by (simpl; rewrite Gmp; reflexivity).
  rewrite Hmp1 in H2.
  assert (Ftx2 : mpesaTransactionRepository.findByCheckoutRequestId rows (p_checkoutRequestId p) = Some (gg tx)).
  { rewrite Erows. unfold mpesaTransactionRepository.findByCheckoutRequestId in *.
    rewrite (find_map_stable _ gg), Ftx; [reflexivity |].
    intros x. unfold gg. destruct (String.eqb _ _); reflexivity. }
  rewrite Ftx2 in H2.
  assert (Rgg : m_reference (gg tx) = m_reference tx
                /\ m_liters (gg tx) = m_liters tx
                /\ m_phoneNumber (gg tx) = m_phoneNumber tx).
  { unfold gg. destruct (String.eqb _ _); repeat split; reflexivity. }
  destruct Rgg as (Rref & Rlit & Rph). rewrite Rref, Rlit, Rph in H2.
  assert (Hin2 : In (gg tx) rows).
  { apply find_some in Ftx2. tauto. }
  destruct (mpesa_update_ok rows (m_reference tx) f2 (gg tx) (fun x => eq_refl) Hin2 Rref)
    as (rows2 & u2 & U2).
  rewrite U2 in H2.
  destruct (mpesa_update_inv _ _ _ f2 _ (fun x => eq_refl) U2) as (_ & x2 & _ & Rx2 & Eu2).
  destruct (generate_succeeds
              (with_mpesa (with_sms sg
                   {| sms_phoneNumber := ("+" ++ m_phoneNumber tx)%string;
                      sms_otp := g_otp g; sms_liters := m_liters tx;
                      sms_expiresInMinutes := g_expiresInMinutes g |}) rows2)
              (m_reference tx) (m_liters tx) rb2 tdb2 now2 txn stored)
    as (sg2 & g2 & G2 & Hlen2); auto.
  { simpl. rewrite Gtx. exact Fref. }
  rewrite G2 in H2. injection H2 as <- <-.
  split; [rewrite Eu1; exact Est |].
  split.
  - exists u2. split; [reflexivity |]. rewrite Eu1, Eu2. split; [exact Est |].
    cbn [f1 f2 m_reference]. congruence.
  - split; [exact Hlen2 |].
    destruct (generate_outcome _ _ _ _ _ _ _ _ G2) as (_ & _ & Gsms2 & _).
    simpl. rewrite Gsms2. simpl. rewrite !List.length_app. simpl. lia.
Qed.

(** Read from the table, the same call does consume the credential. *)
Lemma verify_from_table_consumes
    (s : state) (ref code : string) (tdb now : Z) (r : Store.otp) :
  consistent tdb s -> tdb <= now ->
  cacheOn ocfg s = false \/ redisClient.get s (_getCacheKey ref) tdb = None ->
  findActiveByTransaction (otps s) ref tdb = Some r ->
  id r <> 0 -> now < expiresAt r -> right_code digest ocfg r code ->
  exists s',
    verifyOTP digest ocfg s ref code tdb now =
      (s', Ok {| v_valid := true; v_transactionReference := ref; v_liters := liters r |})
    /\ otps s' = update_where (id r)
                   (fun x => fold_left assign [SetStatus used; SetUsedAt now] x) (otps s)
    /\ forall (code' station : string) (tdb' now' : Z),
         now <= tdb' -> ref <> "" -> station <> "" -> String.length code' = 6%nat ->
         snd (verifyOTPForStation digest ocfg scfg s' ref code' station tdb' now')
         = Err NotFoundOrExpired.
Proof.
  intros C Ht Hmiss F Hid Hexp Hr.
  pose proof (findActive_In _ _ _ _ F) as [Hin Hl].
  pose proof (ids_unique _ _ C) as ND.
  assert (Ecache : (if cacheOn ocfg s
                    then option_map FromCache (redisClient.get s (_getCacheKey ref) tdb)
                    else None) = None).
  { destruct Hmiss as [-> | ->]; [reflexivity |]. destruct (cacheOn ocfg s); reflexivity. }
  set (rows := update_where (id r)
                 (fun x => fold_left assign [SetStatus used; SetUsedAt now] x) (otps s)).
  exists (if cacheOn ocfg (with_otps s rows)
          then redisClient.del (with_otps s rows) (_getCacheKey ref) else with_otps s rows).
  assert (Eo : otps (if cacheOn ocfg (with_otps s rows)
                     then redisClient.del (with_otps s rows) (_getCacheKey ref)
                     else with_otps s rows) = rows)
    by (destruct (cacheOn ocfg _); reflexivity).
  split; [| split; [exact Eo |]].
  - unfold verifyOTP. rewrite Ecache, F. cbn [option_map]. cbv beta iota.
    unfold rec_expiresAt, rec_status, rec_otpHash, rec_id, rec_liters.
    assert (E1 : (expiresAt r <=? now) = false) by (apply Z.leb_gt; lia).
    assert (E2 : (id r =? 0) = false) by now apply Z.eqb_neq.
    apply is_live_spec in Hl. destruct Hl as (_ & Hst & _).
    assert (E3 : bool_decide (status r = used) = false)
      by (apply bool_decide_eq_false; destruct Hst as [-> | ->]; discriminate).
    assert (E4 : bool_decide (status r = blocked) = false)
      by (apply bool_decide_eq_false; destruct Hst as [-> | ->]; discriminate).
    unfold right_code in Hr. rewrite E1, E2, E3, E4, Hr.
    unfold markAsUsed. rewrite (update_ok _ _ _ _ ND Hin). reflexivity.
  - intros code' station tdb' now' Ht' Href Hsta Hlen.
    unfold verifyOTPForStation. rewrite Eo.
    assert (X1 : (ref =? "")%string = false) by now apply String.eqb_neq.
    assert (X2 : (code' =? "")%string = false).
    { apply String.eqb_neq. intros ->. discriminate Hlen. }
    assert (X3 : (station =? "")%string = false) by now apply String.eqb_neq.
    rewrite X1, X2, X3, Hlen. cbn [orb negb Nat.eqb].
    replace (findActiveByTransaction rows ref tdb') with (@None Store.otp); [reflexivity |].
    symmetry. apply findActive_None. intros y Hy.
    apply update_where_In in Hy. destruct Hy as (x & Hx & ->).
    destruct (id x =? id r) eqn:E.
    + unfold is_live. simpl. now rewrite andb_false_r.
    + destruct (is_live tdb' ref x) eqn:Lx; [| reflexivity].
      apply (live_later tdb) in Lx; [| lia].
      rewrite (live_unique tdb s ref x r C Hx Hin Lx Hl), Z.eqb_refl in E.
      discriminate.
Qed.

End Calls.

(** *** The default deployment, run on concrete data *)

Lemma consistent_empty (t : Z) (s : state) : otps s = [] -> consistent t s.
Proof.
  intros E. constructor; rewrite E; simpl; [constructor | constructor |].
  intros _. lia.
Qed.

Lemma consistent_single (t : Z) (s : state) (r : Store.otp) :
  otps s = [r] -> id r < otps_id_seq s -> consistent t s.
Proof.
  intros E Hid. constructor; rewrite E; simpl.
  - apply NoDup_singleton.
  - constructor; [exact Hid | constructor].
  - intros ref. unfold live_rows. simpl. destruct (is_live t ref r); simpl; lia.
Qed.

Lemma issued_consistent (t : Z) : consistent t issued.
Proof.
  destruct (otps issued) as [| r [| r' l]] eqn:E; try (vm_compute in E; discriminate).
  apply (consistent_single t issued r E).
  vm_compute in E. injection E as <-. reflexivity.
Qed.

Lemma station_claim_excludes_other_stations_witness :
  exists r,
    findActiveByTransaction (otps issued) "WS-1" 1000 = Some r
    /\ forall (trace : list event) (ref' code' other : string) (tdb' now' : Z)
              (r' : Store.otp),
         chronological 1000 trace ->
         other <> "STATION001" ->
         findActiveByTransaction (otps (run plain_digest defaultOtpConfig defaultStationConfig claimed trace)) ref' tdb' = Some r' ->
         id r' = id r ->
         exists e,
           snd (verifyOTPForStation plain_digest defaultOtpConfig defaultStationConfig (run plain_digest defaultOtpConfig defaultStationConfig claimed trace)
                  ref' code' other tdb' now') = Err e.
Proof.
  unfold claimed.
  destruct (demo_station issued "100000" "STATION001" 1000) as [s1 [a | e]] eqn:H.
  - apply (station_claim_excludes_other_stations plain_digest defaultOtpConfig defaultStationConfig 0 issued s1
             "WS-1" "100000" "STATION001" 1000 1000 a);
      [apply issued_consistent | lia | lia | exact H].
  - vm_compute in H. discriminate H.
Defined.

(** The station that redeemed a credential redeems it again. *)
Lemma same_station_redeems_again :
  map outcome
      (snd (stationAttempts plain_digest defaultOtpConfig defaultStationConfig issued "WS-1"
              [call "100000" "STATION001" 1000; call "100000" "STATION001" 2000]))
  = [Ok (true, 10000, in_progress); Ok (true, 10000, in_progress)].
Proof. vm_compute. reflexivity. Qed.


Example other_station_locked_out :
  outcome (snd (demo_station claimed "100000" "STATION002" 2000))
  = Err (LockedToStation "STATION001" "STATION002").
Proof. vm_compute. reflexivity. Qed.

Example other_station_in_use_without_lock :
  snd (verifyOTPForStation plain_digest defaultOtpConfig
         {| pulsesPerLiter := 1000; enforceStationLock := false;
            requireStationAuth := false |}
         claimed "WS-1" "100000" "STATION002" 2000 2000)
  = Err (InUseAtStation (Some "STATION001")).
Proof. vm_compute. reflexivity. Qed.

Lemma live_credential_invariant_witness :
  consistent 0 shop_no_cache
  /\ chronological 0 reissue_after_claim
  /\ consistent (end_time 0 reissue_after_claim)
                (run plain_digest defaultOtpConfig defaultStationConfig shop_no_cache reissue_after_claim).
Proof.
  assert (C : consistent 0 shop_no_cache) by (apply consistent_empty; reflexivity).
  assert (H : chronological 0 reissue_after_claim) by (simpl; lia).
  split; [exact C | split; [exact H |]].
  exact (proj1 (live_credential_invariant plain_digest defaultOtpConfig defaultStationConfig) 0 shop_no_cache reissue_after_claim C H).
Defined.

(** Two rows of one reference with an open status: the first was
    claimed and ran out, which no sweep records. *)
Lemma second_open_credential :
  (forall ref, (List.length (open_rows ref (otps shop_no_cache)) <= 1)%nat)
  /\ chronological 0 reissue_after_claim
  /\ map status (open_rows "WS-1" (otps (run plain_digest defaultOtpConfig defaultStationConfig shop_no_cache reissue_after_claim)))
     = [in_progress; active].
Proof.
  split; [intros ref; simpl; lia |]. split; [simpl; lia |].
  vm_compute. reflexivity.
Qed.

Lemma blocked_credential_is_reported_missing_witness :
  exists s' results,
    stationAttempts plain_digest defaultOtpConfig defaultStationConfig issued "WS-1" three_wrong_calls = (s', results)
    /\ map outcome results
       = [Err (InvalidRemaining 2); Err (InvalidRemaining 1); Err Blocked]
    /\ forall (code station : string) (tdb now : Z),
         3000 <= tdb -> station <> "" -> String.length code = 6%nat ->
         verifyOTPForStation plain_digest defaultOtpConfig defaultStationConfig s' "WS-1" code station tdb now
           = (s', Err NotFoundOrExpired)
         /\ statusCode NotFoundOrExpired = 404.
Proof.
  destruct (findActiveByTransaction (otps issued) "WS-1" 0) as [r |] eqn:F;
    [| vm_compute in F; discriminate F].
  assert (Er : r = mkOtp 1 "WS-1" "100000" (liters r) active None 0 3 None None 600000 0).
  { vm_compute in F. injection F as <-. reflexivity. }
  destruct (blocked_credential_is_reported_missing plain_digest defaultOtpConfig defaultStationConfig 0 issued "WS-1" r three_wrong_calls)
    as (s' & results & Hrun & _ & _ & _ & Hmissing).
  - apply issued_consistent.
  - discriminate.
  - exact F.
  - rewrite Er. split; reflexivity.
  - rewrite Er. reflexivity.
  - rewrite Er. reflexivity.
  - rewrite Er. reflexivity.
  - rewrite Er. unfold three_wrong_calls, wrong_attempt, wrong_code.
    repeat constructor; simpl; try discriminate; lia.
  - simpl. lia.
  - exists s', results. split; [exact Hrun |]. split.
    + apply (f_equal snd) in Hrun. simpl in Hrun. rewrite <- Hrun.
      vm_compute. reflexivity.
    + exact Hmissing.
Defined.

Example right_code_after_block :
  map outcome
      (snd (stationAttempts plain_digest defaultOtpConfig defaultStationConfig issued "WS-1"
              (three_wrong_calls ++ [call "100000" "STATION001" 4000])))
  = [Err (InvalidRemaining 2); Err (InvalidRemaining 1); Err Blocked;
     Err NotFoundOrExpired].
Proof. vm_compute. reflexivity. Qed.

Lemma cached_wrong_code_is_not_counted_witness :
  cacheOn defaultOtpConfig issued_cached = true
  /\ verifyOTP plain_digest defaultOtpConfig issued_cached "WS-1" "000000" 1000 1000
     = (issued_cached, Err InvalidOTP).
Proof.
  split; [reflexivity |].
  destruct (redisClient.get issued_cached (_getCacheKey "WS-1") 1000) as [e |] eqn:G;
    [| vm_compute in G; discriminate G].
  assert (Ee : c_expiresAt e = 600000 /\ c_otpHash e = "100000").
  { vm_compute in G. injection G as <-. split; reflexivity. }
  destruct Ee as [E1 E2].
  apply (cached_wrong_code_is_not_counted plain_digest defaultOtpConfig
           issued_cached "WS-1" "000000" 1000 1000 e);
    [reflexivity | exact G | rewrite E1; lia | rewrite E2; reflexivity].
Defined.

(** However many wrong codes the customer path is offered, the stored
    counter stays at zero and the credential stays active. *)
Example wrong_codes_never_block :
  let s := run plain_digest defaultOtpConfig defaultStationConfig issued_cached
             [at_instant (Verify "WS-1" "000000") 1000;
              at_instant (Verify "WS-1" "000001") 2000;
              at_instant (Verify "WS-1" "000002") 3000;
              at_instant (Verify "WS-1" "000003") 4000;
              at_instant (Verify "WS-1" "000004") 5000] in
  map (fun r => (status r, attempts r, maxAttempts r)) (otps s) = [(active, 0, 3)]
  /\ snd (verifyOTP plain_digest defaultOtpConfig s "WS-1" "000005" 6000 6000)
     = Err InvalidOTP.
Proof. vm_compute. split; reflexivity. Qed.

Lemma cached_verify_leaves_credential_open_witness :
  cacheOn defaultOtpConfig issued_cached = true
  /\ exists s',
      fst (verifyOTP plain_digest defaultOtpConfig issued_cached "WS-1" "100000" 1000 1000) = s'
      /\ otps s' = otps issued_cached
      /\ outcome (snd (demo_station s' "100000" "STATION001" 2000))
         = Ok (true, 10000, in_progress).
Proof.
  split; [reflexivity |].
  destruct (redisClient.get issued_cached (_getCacheKey "WS-1") 1000) as [e |] eqn:G;
    [| vm_compute in G; discriminate G].
  assert (Ee : c_expiresAt e = 600000 /\ c_otpHash e = "100000").
  { vm_compute in G. injection G as <-. split; reflexivity. }
  destruct Ee as [E1 E2].
  destruct (cached_verify_leaves_credential_open plain_digest defaultOtpConfig
              defaultStationConfig issued_cached "WS-1" "100000" 1000 1000 e)
    as (s' & Hv & Ho & Hstation);
    [reflexivity | exact G | rewrite E1; lia | rewrite E2; reflexivity |].
  exists s'. split; [rewrite Hv; reflexivity |]. split; [exact Ho |].
  unfold demo_station. rewrite Hstation. vm_compute. reflexivity.
Defined.

Example customer_verify_then_station :
  let s := fst (verifyOTP plain_digest defaultOtpConfig issued_cached
                          "WS-1" "100000" 1000 1000) in
  map (fun r => (status r, usedAt r)) (otps s) = [(active, None)]
  /\ outcome (snd (demo_station s "100000" "STATION001" 2000))
     = Ok (true, 10000, in_progress).
Proof. vm_compute. split; reflexivity. Qed.

(** With the cache disconnected the same two calls end differently. *)
Example customer_verify_then_station_no_cache :
  let s := fst (verifyOTP plain_digest defaultOtpConfig issued
                          "WS-1" "100000" 1000 1000) in
  map (fun r => (status r, usedAt r)) (otps s) = [(used, Some 1000)]
  /\ outcome (snd (demo_station s "100000" "STATION001" 2000))
     = Err NotFoundOrExpired.
Proof. vm_compute. split; reflexivity. Qed.

Lemma callback_redelivery_issues_again_witness :
  List.length (otps delivered_once) = S (List.length (otps shop_mpesa))
  /\ List.length (otps delivered_twice) = S (List.length (otps delivered_once))
  /\ List.length (sms_outbox delivered_twice) = S (List.length (sms_outbox delivered_once)).
Proof.
  assert (Hgrew : List.length (otps delivered_once) = S (List.length (otps shop_mpesa)))
    by (vm_compute; reflexivity).
  split; [exact Hgrew |].
  unfold delivered_twice. revert Hgrew. unfold delivered_once.
  destruct (handleCallback plain_digest defaultOtpConfig shop_mpesa success_callback
              (0, 0, 0, 0) 0 0) as [s1 [u1 | e]] eqn:H1;
    [| vm_compute in H1; discriminate H1].
  cbn [fst]. intros Hgrew.
  destruct (handleCallback plain_digest defaultOtpConfig s1 success_callback
              (0, 0, 0, 1) 1000 1000) as [s2 res2] eqn:H2.
  cbn [fst].
  exact (proj2 (proj2 (callback_redelivery_issues_again plain_digest defaultOtpConfig
           shop_mpesa s1 s2 success_callback (0, 0, 0, 0) (0, 0, 0, 1) 0 0 1000 1000
           u1 res2 H1 Hgrew H2))).
Defined.

(** The second delivery of the same success callback expires the
    credential of the first, issues another and sends another SMS. *)
Lemma callback_redelivery_not_noop :
  map (fun r => (id r, status r, otpHash r)) (otps delivered_once)
    = [(1, active, "100000")]
  /\ map (fun r => (id r, status r, otpHash r)) (otps delivered_twice)
    = [(1, expired, "100000"); (2, active, "100001")]
  /\ map sms_otp (sms_outbox delivered_twice) = ["100000"; "100001"]
  /\ delivered_twice <> delivered_once.
Proof.
  split; [vm_compute; reflexivity |]. split; [vm_compute; reflexivity |].
  split; [vm_compute; reflexivity |].
  intros H. apply (f_equal (fun s => List.length (otps s))) in H.
  vm_compute in H. discriminate H.
Qed.

End CredentialSpec.

(** ** Laws of the pricing calculator *)

Module PricingLaws.
Import Js Pricing PricingSpec.

Lemma pos_nonzero (p : Qc) : (Zq 0 < p)%Qc -> p <> Zq 0.
Proof. intros H E. rewrite E in H. now apply Qclt_not_le in H; apply H, Qcle_refl. Qed.

Lemma pos_truthy (p : Qc) : (Zq 0 < p)%Qc -> truthy (Fin p) = true.
Proof.
  intros H. cbn [truthy]. apply negb_true_iff, bool_decide_eq_false.
  now apply pos_nonzero.
Qed.

Lemma le_zero_false (p : Qc) : (Zq 0 < p)%Qc -> le (Fin p) (of_Z 0) = false.
Proof. intros H. apply bool_decide_eq_false. now apply Qclt_not_le. Qed.

Lemma le_zero_true (p : Qc) : (p <= Zq 0)%Qc -> le (Fin p) (of_Z 0) = true.
Proof. intros H. now apply bool_decide_eq_true. Qed.

Lemma div_finite (a p : Qc) : (Zq 0 < p)%Qc -> div (Fin a) (Fin p) = Fin (a / p).
Proof.
  intros H. cbn [div]. destruct (bool_decide_reflect (p = Zq 0)) as [E |]; [| reflexivity].
  now apply pos_nonzero in H.
Qed.

(** [calculateLiters] on a positive amount at a positive price. *)
Lemma calculateLiters_pos (c : pricingConfig) (p a : Qc) (arg : option num) :
  effectivePrice c arg = Fin p -> (Zq 0 < p)%Qc -> (Zq 0 < a)%Qc ->
  calculateLiters c (Fin a) arg = Ok (of_Z (rounding c (a / p))).
Proof.
  intros Hp Pp Pa. unfold calculateLiters, rounding. rewrite Hp.
  rewrite (le_zero_false a Pa), (le_zero_false p Pp), (div_finite a p Pp).
  cbn [orb]. destruct (roundingStrategy c =? "up")%string; [reflexivity |].
  destruct (roundingStrategy c =? "down")%string; reflexivity.
Qed.

Lemma price_arg (c : pricingConfig) (p : Qc) :
  (Zq 0 < p)%Qc -> effectivePrice c (Some (Fin p)) = Fin p.
Proof. intros H. unfold effectivePrice. now rewrite (pos_truthy p H). Qed.

Lemma div_mul (a p : Qc) : (Zq 0 < p)%Qc -> (a / p * p)%Qc = a.
Proof. intros H. apply test_field. now apply pos_nonzero. Qed.

Lemma div_le_iff (l a p : Qc) : (Zq 0 < p)%Qc -> (l <= a / p)%Qc <-> (l * p <= a)%Qc.
Proof.
  intros H. rewrite (Qcmult_le_mono_pos_r l (a / p) p H). now rewrite div_mul.
Qed.




Lemma div_mono (a b p : Qc) : (Zq 0 < p)%Qc -> (a <= b)%Qc -> (a / p <= b / p)%Qc.
Proof. intros H L. apply div_le_iff; [exact H |]. now rewrite div_mul. Qed.

Lemma ceil_bounds (q : Qc) :
  (Zq (ceilZ q) - Zq 1 < q)%Qc /\ (q <= Zq (ceilZ q))%Qc.
Proof.
  unfold ceilZ. pose proof (Qle_ceiling q) as H1. pose proof (Qceiling_lt q) as H2.
  set (L := Qceiling q) in *. clearbody L.
  unfold Z.sub in H2. rewrite inject_Z_plus in H2.
  change (inject_Z (- (1))) with (- (1 # 1))%Q in H2.
  to_Q. set (l := inject_Z L) in *. clearbody l. unfold inject_Z in *.
  split; lra.
Qed.

Lemma floorZ_bounds (q : Qc) :
  (Zq (floorZ q) <= q)%Qc /\ (q < Zq (floorZ q) + Zq 1)%Qc.
Proof. exact (floor_bounds q). Qed.

Lemma Zq_le (x y : Z) : (Zq x <= Zq y)%Qc <-> x <= y.
Proof. unfold Qcle, Zq, Q2Qc; simpl this. rewrite !Qred_correct. now rewrite <- Zle_Qle. Qed.

Lemma Zq_lt (x y : Z) : (Zq x < Zq y)%Qc <-> x < y.
Proof. unfold Qclt, Zq, Q2Qc; simpl this. rewrite !Qred_correct. now rewrite <- Zlt_Qlt. Qed.

Lemma rounding_mono (c : pricingConfig) (x y : Qc) :
  (x <= y)%Qc -> rounding c x <= rounding c y.
Proof.
  intros H. unfold rounding.
  destruct (roundingStrategy c =? "up")%string; [now apply Qceiling_resp_le |].
  destruct (roundingStrategy c =? "down")%string; [now apply Qfloor_resp_le |].
  unfold roundZ. apply Qfloor_resp_le.
  change (x + half <= y + half)%Qc. now apply Qcplus_le_compat; [| apply Qcle_refl].
Qed.



Lemma roundZ_Zq (L : Z) : roundZ (Zq L) = L.
Proof.
  apply roundZ_unique; to_Q; set (l := inject_Z L); clearbody l; lra.
Qed.


Lemma not_lt_le (a m : Qc) : lt (Fin a) (Fin m) = false -> (m <= a)%Qc.
Proof. intros H. apply bool_decide_eq_false in H. now apply Qcnot_lt_le. Qed.

Lemma not_gt_le (a M : Qc) : gt (Fin a) (Fin M) = false -> (a <= M)%Qc.
Proof. intros H. apply bool_decide_eq_false in H. now apply Qcnot_lt_le. Qed.

(** The preview of a positive finite amount within the bounds, at a
    positive finite price. *)
Lemma preview_spec (c : pricingConfig) (p a : Qc) :
  pricePerLiter c = Fin p -> (Zq 0 < p)%Qc -> (Zq 0 < a)%Qc ->
  lt (Fin a) (minAmount c) = false -> gt (Fin a) (maxAmount c) = false ->
  getPaymentPreview c (Fin a) None =
    if rounding c (a / p) <=? 0 then Err (throw LitersAndPriceMustBePositive)
    else Ok {| requestedAmount := Fin a;
               amount := Fin (Zq (rounding c (a / p)) * p);
               liters := of_Z (rounding c (a / p));
               preview_pricePerLiter := Fin p;
               preview_currency := currency c;
               preview_roundingStrategy := roundingStrategy c;
               difference := Fin (Zq (rounding c (a / p)) * p - a) |}.
Proof.
  intros Hp Pp Pa Hlo Hhi. unfold getPaymentPreview.
  change (effectivePrice c None) with (pricePerLiter c). rewrite Hp, Hlo, Hhi.
  rewrite (calculateLiters_pos c p a (Some (Fin p)) (price_arg c p Pp) Pp Pa).
  unfold calculateAmount. rewrite (price_arg c p Pp), (le_zero_false p Pp).
  rewrite orb_false_r. set (L := rounding c (a / p)).
  change (of_Z L) with (Fin (Zq L)). cbn [mul].
  destruct (Z.leb_spec L 0) as [H | H].
  - rewrite le_zero_true; [reflexivity | now apply Zq_le].
  - rewrite le_zero_false; [reflexivity | now apply Zq_lt].
Qed.

Lemma preview_Ok_inv (c : pricingConfig) (p a : Qc) (pv : preview) :
  pricePerLiter c = Fin p -> (Zq 0 < p)%Qc ->
  getPaymentPreview c (Fin a) None = Ok pv ->
  (Zq 0 < a)%Qc
  /\ lt (Fin a) (minAmount c) = false /\ gt (Fin a) (maxAmount c) = false
  /\ 1 <= rounding c (a / p)
  /\ pv = {| requestedAmount := Fin a;
             amount := Fin (Zq (rounding c (a / p)) * p);
             liters := of_Z (rounding c (a / p));
             preview_pricePerLiter := Fin p;
             preview_currency := currency c;
             preview_roundingStrategy := roundingStrategy c;
             difference := Fin (Zq (rounding c (a / p)) * p - a) |}.
Proof.
  intros Hp Pp H.
  assert (Hlo : lt (Fin a) (minAmount c) = false).
  { revert H. unfold getPaymentPreview. destruct (lt (Fin a) (minAmount c)); [discriminate | reflexivity]. }
  assert (Hhi : gt (Fin a) (maxAmount c) = false).
  { revert H. unfold getPaymentPreview. rewrite Hlo.
    destruct (gt (Fin a) (maxAmount c)); [discriminate | reflexivity]. }
  assert (Pa : (Zq 0 < a)%Qc).
  { apply Qcnot_le_lt. intros Hle. revert H. unfold getPaymentPreview.
    rewrite Hlo, Hhi. unfold calculateLiters. rewrite (le_zero_true a Hle). discriminate. }
  rewrite (preview_spec c p a Hp Pp Pa Hlo Hhi) in H.
  destruct (Z.leb_spec (rounding c (a / p)) 0); [discriminate |].
  injection H as <-. repeat split; auto. lia.
Qed.








(** X4.  [getPricingInfo] brackets every preview: the litres of an
    accepted amount lie between [minLiters] and [maxLiters]. *)
Theorem preview_liters_within_pricing_info (c : pricingConfig) (p m M a : Qc)
    (info : pricingInfo) (pv : preview) :
  pricePerLiter c = Fin p -> (Zq 0 < p)%Qc ->
  minAmount c = Fin m -> maxAmount c = Fin M ->
  getPricingInfo c = Ok info ->
  getPaymentPreview c (Fin a) None = Ok pv ->
  le (info_minLiters info) (liters pv) = true
  /\ le (liters pv) (info_maxLiters info) = true.
Proof.
  intros Hp Pp Hm HM Hi H.
  destruct (preview_Ok_inv c p a pv Hp Pp H) as (Pa & Hlo & Hhi & HL & ->).
  rewrite Hm in Hlo. rewrite HM in Hhi.
  apply not_lt_le in Hlo. apply not_gt_le in Hhi.
  assert (EP : effectivePrice c None = Fin p) by exact Hp.
  destruct (Qclt_le_dec (Zq 0) m) as [Pm | Hle].
  - assert (PM : (Zq 0 < M)%Qc) by exact (Qclt_le_trans _ _ _ Pa Hhi).
    revert Hi. unfold getPricingInfo. rewrite Hm, HM.
    rewrite (calculateLiters_pos c p m None EP Pp Pm),
            (calculateLiters_pos c p M None EP Pp PM).
    intros Hi. injection Hi as <-. cbn [info_minLiters info_maxLiters liters].
    split; apply bool_decide_eq_true, Zq_le, rounding_mono, div_mono; assumption.
  - revert Hi. unfold getPricingInfo, calculateLiters. rewrite Hm.
    rewrite (le_zero_true m Hle). cbn [orb]. discriminate.
Qed.

Lemma preview_liters_within_pricing_info_witness :
  getPricingInfo defaultConfig
    = Ok {| info_pricePerLiter := of_Z 5; info_currency := "KES";
            info_minAmount := of_Z 5; info_maxAmount := of_Z 70000;
            info_minLiters := of_Z 1; info_maxLiters := of_Z 14000;
            info_roundingStrategy := "nearest" |}
  /\ le (of_Z 1) (of_Z 11) = true /\ le (of_Z 11) (of_Z 14000) = true.
Proof.
  split; [reflexivity |].
  exact (preview_liters_within_pricing_info defaultConfig (Zq 5) (Zq 5) (Zq 70000) (Zq 53)
           _ _ eq_refl (proj2 (Zq_lt 0 5) eq_refl) eq_refl eq_refl eq_refl eq_refl).
Defined.







Lemma floor_le_ceil (x : Qc) : floorZ x <= ceilZ x.
Proof.
  destruct (floorZ_bounds x) as [B1 _]. destruct (ceil_bounds x) as [_ B2].
  apply Zq_le. eapply Qcle_trans; eauto.
Qed.

Lemma roundZ_mono (x y : Qc) : (x <= y)%Qc -> roundZ x <= roundZ y.
Proof.
  intros H. unfold roundZ. apply Qfloor_resp_le.
  change (x + half <= y + half)%Qc. now apply Qcplus_le_compat; [| apply Qcle_refl].
Qed.

(** Every policy rounds to a value between the floor and the ceiling. *)
Lemma rounding_between (c : pricingConfig) (x : Qc) :
  floorZ x <= rounding c x <= ceilZ x.
Proof.
  pose proof (floor_le_ceil x) as FC.
  destruct (floorZ_bounds x) as [B1 _]. destruct (ceil_bounds x) as [_ B2].
  unfold rounding.
  destruct (roundingStrategy c =? "up")%string; [lia |].
  destruct (roundingStrategy c =? "down")%string; [lia |].
  split.
  - rewrite <- (roundZ_Zq (floorZ x)). now apply roundZ_mono.
  - rewrite <- (roundZ_Zq (ceilZ x)). now apply roundZ_mono.
Qed.

(** X6.  The two summaries of the price list disagree in one direction
    only: the litre bounds of [getPricingSummary] (ceiling of the
    minimum, floor of the maximum) lie within the bounds that
    [getPricingInfo] computes with the rounding policy. *)
Theorem pricing_summary_within_pricing_info (c : pricingConfig) (p m M : Qc)
    (info : pricingInfo) :
  pricePerLiter c = Fin p -> (Zq 0 < p)%Qc ->
  minAmount c = Fin m -> maxAmount c = Fin M ->
  getPricingInfo c = Ok info ->
  le (info_minLiters info) (info_minLiters (getPricingSummary c)) = true
  /\ le (info_maxLiters (getPricingSummary c)) (info_maxLiters info) = true.
Proof.
  intros Hp Pp Hm HM Hi.
  assert (EP : effectivePrice c None = Fin p) by exact Hp.
  destruct (Qclt_le_dec (Zq 0) m) as [Pm | Hle].
  - destruct (Qclt_le_dec (Zq 0) M) as [PM | HleM].
    + revert Hi. unfold getPricingInfo. rewrite Hm, HM.
      rewrite (calculateLiters_pos c p m None EP Pp Pm),
              (calculateLiters_pos c p M None EP Pp PM).
      intros Hi. injection Hi as <-.
      unfold getPricingSummary. rewrite Hm, HM, Hp, !(div_finite _ p Pp).
      cbn [info_minLiters info_maxLiters Math_ceil Math_floor lift].
      split; apply bool_decide_eq_true, Zq_le; apply rounding_between.
    + revert Hi. unfold getPricingInfo. rewrite Hm, HM.
      rewrite (calculateLiters_pos c p m None EP Pp Pm).
      unfold calculateLiters. rewrite (le_zero_true M HleM). cbn [orb]. discriminate.
  - revert Hi. unfold getPricingInfo, calculateLiters. rewrite Hm.
    rewrite (le_zero_true m Hle). cbn [orb]. discriminate.
Qed.

Lemma pricing_summary_within_pricing_info_witness :
  info_minLiters (getPricingSummary cheap_config) = of_Z 1
  /\ (exists info, getPricingInfo cheap_config = Ok info /\ info_minLiters info = of_Z 0)
  /\ le (of_Z 0) (of_Z 1) = true.
Proof.
  split; [reflexivity |]. split; [eexists; split; reflexivity |].
  exact (proj1 (pricing_summary_within_pricing_info cheap_config (Zq 5) (Zq 2) (Zq 70000)
                  _ eq_refl (proj2 (Zq_lt 0 5) eq_refl) eq_refl eq_refl eq_refl)).
Defined.

End PricingLaws.

(** ** The shape of a generated code *)

Module GeneratorLaws.
Import OtpGenerator GeneratorSpec.
Import Decimal DecimalFacts.

Lemma of_uint_acc_bounds (l : Decimal.uint) (acc : positive) :
  Z.pos acc * 10 ^ Z.of_nat (nb_digits l) <= Z.pos (Pos.of_uint_acc l acc)
  /\ Z.pos (Pos.of_uint_acc l acc) < (Z.pos acc + 1) * 10 ^ Z.of_nat (nb_digits l).
Proof.
  revert acc. induction l; intros acc;
    try (cbn [Pos.of_uint_acc nb_digits]; rewrite Nat2Z.inj_succ, Z.pow_succ_r by lia;
         match goal with
         | |- context [Pos.of_uint_acc _ ?a] => specialize (IHl a)
         end;
         assert (0 < 10 ^ Z.of_nat (nb_digits l)) by (apply Z.pow_pos_nonneg; lia);
         nia).
  cbn. lia.
Qed.

Lemma string_of_uint_length (d : Decimal.uint) :
  String.length (NilEmpty.string_of_uint d) = nb_digits d.
Proof. induction d; cbn; congruence. Qed.

Lemma to_uint_normal (p : positive) : unorm (Pos.to_uint p) = Pos.to_uint p.
Proof.
  pose proof (DecimalN.Unsigned.to_of (Pos.to_uint p)) as H.
  rewrite DecimalPos.Unsigned.of_to in H. symmetry. exact H.
Qed.

Lemma unorm_D0 (l : Decimal.uint) : unorm (D0 l) = D0 l -> l = Nil.
Proof.
  unfold unorm. cbn [nzhead]. intros H.
  pose proof (nb_digits_nzhead l) as Hle.
  destruct (nzhead l) eqn:E; try (rewrite H in Hle; cbn in Hle; lia).
  now injection H.
Qed.

Lemma digits_of_pos (p : positive) :
  10 ^ (Z.of_nat (nb_digits (Pos.to_uint p)) - 1) <= Z.pos p
  /\ Z.pos p < 10 ^ Z.of_nat (nb_digits (Pos.to_uint p)).
Proof.
  pose proof (DecimalPos.Unsigned.of_to p) as Hof.
  pose proof (to_uint_normal p) as Hn.
  pose proof (DecimalPos.Unsigned.to_uint_nonzero p) as Hz.
  pose proof (DecimalPos.Unsigned.to_uint_nonnil p) as Hnil.
  destruct (Pos.to_uint p) as [| l | l | l | l | l | l | l | l | l | l ] eqn:E;
    [congruence | apply unorm_D0 in Hn; subst l; now destruct Hz | ..];
    cbn [Pos.of_uint] in Hof; injection Hof as Hof;
    cbn [nb_digits]; rewrite Nat2Z.inj_succ;
    replace (Z.succ (Z.of_nat (nb_digits l)) - 1) with (Z.of_nat (nb_digits l)) by lia;
    rewrite Z.pow_succ_r by lia;
    match type of Hof with
    | Pos.of_uint_acc _ ?a = _ => pose proof (of_uint_acc_bounds l a) as B
    end;
    rewrite Hof in B;
    assert (0 < 10 ^ Z.of_nat (nb_digits l)) by (apply Z.pow_pos_nonneg; lia);
    nia.
Qed.

(** [n.toString()] has exactly [k] characters when [n] has [k] digits. *)
Lemma toString_length (n k : Z) :
  0 < k -> 10 ^ (k - 1) <= n < 10 ^ k ->
  String.length (toString n) = Z.to_nat k.
Proof.
  intros Hk [Hlo Hhi]. unfold toString. rewrite string_of_uint_length.
  assert (0 < 10 ^ (k - 1)) by (apply Z.pow_pos_nonneg; lia).
  destruct n as [| p | p]; try lia. cbn [Z.to_N N.to_uint].
  destruct (digits_of_pos p) as [Dlo Dhi].
  set (m := Z.of_nat (nb_digits (Pos.to_uint p))) in *.
  assert (m = k); [| lia].
  assert (k - 1 < m).
  { apply (Z.pow_lt_mono_r_iff 10); try lia. }
  assert (m - 1 < k).
  { destruct (Z_lt_ge_dec (m - 1) 0); [lia |].
    apply (Z.pow_lt_mono_r_iff 10); try lia. }
  lia.
Qed.

Lemma otpNumber_range (c : otpConfig) (r : Z) :
  1 <= length_cfg c ->
  10 ^ (length_cfg c - 1) <= otpNumber c r < 10 ^ length_cfg c.
Proof.
  intros Hc. unfold otpNumber. cbv zeta.
  assert (0 < 10 ^ (length_cfg c - 1)) by (apply Z.pow_pos_nonneg; lia).
  assert (10 ^ length_cfg c = 10 * 10 ^ (length_cfg c - 1)).
  { rewrite <- Z.pow_succ_r by lia. f_equal. lia. }
  assert (P : 0 < 10 ^ length_cfg c - 1 - 10 ^ (length_cfg c - 1) + 1) by lia.
  pose proof (Z.mod_pos_bound r _ P).
  lia.
Qed.

Lemma padStart_exact (len : Z) (pad s : string) :
  String.length s = Z.to_nat len -> 0 <= len -> padStart len pad s = s.
Proof.
  intros H H0. unfold padStart. rewrite H, Z2Nat.id by lia.
  now rewrite Z.sub_diag.
Qed.

(** The generated number already has [length] digits, so the padding
    adds nothing. *)
Lemma generateOTP_unpadded (c : otpConfig) (b : Z * Z * Z * Z) :
  1 <= length_cfg c ->
  generateOTP c b = toString (otpNumber c (readUInt32BE b))
  /\ String.length (generateOTP c b) = Z.to_nat (length_cfg c).
Proof.
  intros Hc.
  pose proof (otpNumber_range c (readUInt32BE b) Hc) as R.
  assert (Hk : 0 < length_cfg c) by lia.
  pose proof (toString_length _ _ Hk R) as L.
  assert (E : generateOTP c b = toString (otpNumber c (readUInt32BE b))).
  { unfold generateOTP. cbv zeta. apply padStart_exact; [exact L | lia]. }
  split; [exact E | now rewrite E].
Qed.

(** X7.  A generated code has exactly [length] characters and reads
    back, as a decimal numeral, as a number of exactly [length] digits:
    it never starts with a zero, and the [padStart] of the generator
    never adds a character. *)
Theorem generateOTP_is_fixed_length_numeral (c : otpConfig) (b : Z * Z * Z * Z) :
  1 <= length_cfg c ->
  String.length (generateOTP c b) = Z.to_nat (length_cfg c)
  /\ generateOTP c b = toString (otpNumber c (readUInt32BE b))
  /\ exists n, parseInt (generateOTP c b) = Some n
               /\ 10 ^ (length_cfg c - 1) <= n < 10 ^ length_cfg c.
Proof.
  intros Hc. destruct (generateOTP_unpadded c b Hc) as [E L].
  split; [exact L |]. split; [exact E |].
  exists (otpNumber c (readUInt32BE b)). split.
  - now apply parseInt_generateOTP.
  - now apply otpNumber_range.
Qed.

Lemma generateOTP_is_fixed_length_numeral_witness :
  1 <= length_cfg defaultOtpConfig
  /\ String.length (generateOTP defaultOtpConfig (18, 52, 86, 120)) = 6%nat.
Proof.
  assert (H : 1 <= length_cfg defaultOtpConfig) by (cbn; lia).
  split; [exact H |].
  exact (proj1 (generateOTP_is_fixed_length_numeral defaultOtpConfig (18, 52, 86, 120) H)).
Defined.

End GeneratorLaws.

(** ** Patterns and phone numbers *)

Module RegexFacts.
Import Regex.

(** Appending to a string whose first characters are known. *)
Ltac push_app :=
  repeat match goal with
  | |- context [(String ?c ?a ++ ?b)%string] =>
      change (String c a ++ b)%string with (String c (a ++ b)%string)
  | |- context [(EmptyString ++ ?b)%string] =>
      change (EmptyString ++ b)%string with b
  end.

Lemma matches_cons (c : ascii) (s : string) (p : piece) (rest : list piece) (n : nat) :
  matches_from (String c s) (p :: rest) n =
  (cls p c && below n (hi p) && matches_from s (p :: rest) (S n))
  || ((lo p <=? n)%nat && matches_from (String c s) rest 0).
Proof. reflexivity. Qed.

Lemma matches_no_piece (s : string) (n : nat) :
  matches_from s [] n = true -> s = EmptyString.
Proof. destruct s; [reflexivity | discriminate]. Qed.

(** A piece that has read its maximum hands over to the next one. *)
Lemma matches_full (s : string) (p : piece) (rest : list piece) (n : nat) :
  hi p = Some n ->
  matches_from s (p :: rest) n = (lo p <=? n)%nat && matches_from s rest 0.
Proof.
  intros H. destruct s as [| c s]; [reflexivity |].
  rewrite matches_cons. unfold below. rewrite H, Nat.ltb_irrefl.
  now rewrite andb_false_r.
Qed.

(** A literal character at the head of the pattern. *)
Lemma matches_lit (x : ascii) (rest : list piece) (s : string) :
  matches_from s (lit x :: rest) 0 = true <->
  exists s', s = String x s' /\ matches_from s' rest 0 = true.
Proof.
  destruct s as [| c s].
  - split; [discriminate | intros (s' & H & _); discriminate].
  - rewrite matches_cons. cbn [lit cls lo hi below]. 
    change (1 <=? 0)%nat with false. cbn [andb orb]. rewrite orb_false_r.
    rewrite (matches_full s (lit x) rest 1 eq_refl). cbn [lit lo].
    change (1 <=? 1)%nat with true. cbn [andb]. rewrite andb_true_r.
    split.
    + intros H. apply andb_prop in H. destruct H as [Hc Hs].
      apply Ascii.eqb_eq in Hc. subst c. eauto.
    + intros (s' & E & Hs). injection E as -> ->.
      now rewrite Ascii.eqb_refl, Hs.
Qed.

(** The last piece of a pattern takes the rest of the input. *)
Lemma matches_last (p : piece) (s : string) (n : nat) :
  match hi p with Some m => (n <= m)%nat | None => True end ->
  matches_from s [p] n = true <->
  all (cls p) s = true /\ (lo p <= n + String.length s)%nat
  /\ match hi p with Some m => (n + String.length s <= m)%nat | None => True end.
Proof.
  revert n. induction s as [| c s IH]; intros n Hn.
  - cbn [matches_from finish all String.length]. rewrite andb_true_r, Nat.leb_le.
    rewrite Nat.add_0_r. tauto.
  - rewrite matches_cons. cbn [matches_from all String.length].
    rewrite andb_false_r, orb_false_r.
    destruct (cls p c); cbn [andb]; [| intuition discriminate].
    unfold below. destruct (hi p) as [m |] eqn:Hm.
    + destruct (Nat.ltb_spec n m) as [L | G]; cbn [andb].
      * rewrite IH by lia.
        replace (S n + String.length s)%nat with (n + S (String.length s))%nat by lia.
        tauto.
      * split; [discriminate | intros (_ & _ & H); lia].
    + cbn [andb]. rewrite IH by exact I.
      replace (S n + String.length s)%nat with (n + S (String.length s))%nat by lia.
      tauto.
Qed.

Lemma prefix_split (a b : string) :
  String.prefix a b = true -> b = (a ++ drop (String.length a) b)%string.
Proof.
  revert b. induction a as [| x a IH]; intros b H; [reflexivity |].
  destruct b as [| y b]; [discriminate |]. cbn in H.
  destruct (ascii_dec x y) as [-> |]; [| discriminate].
  change (String y b = String y (a ++ drop (String.length a) b)).
  f_equal. now apply IH.
Qed.

Lemma prefix_app (a r : string) : String.prefix a (a ++ r) = true.
Proof.
  induction a as [| x a IH]; [now destruct r |].
  change (String.prefix (String x a) (String x (a ++ r)) = true).
  cbn [String.prefix]. destruct (ascii_dec x x); [exact IH | congruence].
Qed.

Lemma drop_app (a r : string) : drop (String.length a) (a ++ r) = r.
Proof. induction a; [reflexivity | exact IHa]. Qed.

Lemma keep_all (f : ascii -> bool) (s : string) : all f s = true -> keep f s = s.
Proof.
  induction s as [| c s IH]; [reflexivity |]. cbn. intros H.
  apply andb_prop in H. destruct H as [-> H]. now rewrite IH.
Qed.

Lemma all_keep (f : ascii -> bool) (s : string) : all f (keep f s) = true.
Proof.
  induction s as [| c s IH]; [reflexivity |]. cbn.
  destruct (f c) eqn:E; [cbn; now rewrite E | exact IH].
Qed.

Lemma keep_app (f : ascii -> bool) (a b : string) :
  keep f (a ++ b) = (keep f a ++ keep f b)%string.
Proof.
  induction a as [| c a IH]; [reflexivity |]. push_app. cbn [keep].
  destruct (f c); push_app; now rewrite IH.
Qed.

Lemma all_app (f : ascii -> bool) (a b : string) :
  all f (a ++ b) = all f a && all f b.
Proof.
  induction a as [| c a IH]; [reflexivity |]. push_app. cbn [all].
  now rewrite IH, andb_assoc.
Qed.

Lemma all_weaken (f g : ascii -> bool) (s : string) :
  (forall c, f c = true -> g c = true) -> all f s = true -> all g s = true.
Proof.
  intros Hfg. induction s as [| c s IH]; [reflexivity |]. cbn. intros H.
  apply andb_prop in H. destruct H as [Hc H]. now rewrite (Hfg _ Hc), IH.
Qed.

Lemma length_app (a b : string) :
  String.length (a ++ b) = (String.length a + String.length b)%nat.
Proof. induction a; push_app; cbn [String.length Nat.add]; congruence. Qed.

End RegexFacts.

Module PhoneSpec.
Import Regex RegexFacts PhoneValidator.

(** The subscriber part: a 7 followed by eight digits. *)
Lemma subscriber_spec (s : string) :
  test [lit "7"; exactly 8 digit] s = true <->
  exists d, s = String "7" d /\ String.length d = 8%nat /\ all digit d = true.
Proof.
  unfold test. rewrite matches_lit. split.
  - intros (d & -> & H). apply (matches_last (exactly 8 digit) d 0) in H; [| cbn; lia].
    cbn in H. exists d. split; [reflexivity |]. split; [lia | tauto].
  - intros (d & -> & L & A). exists d. split; [reflexivity |].
    apply (matches_last (exactly 8 digit) d 0); [cbn; lia |]. cbn. rewrite L. auto.
Qed.

(** What the checks after the normalisation establish. *)
Lemma accepted_shape (n : string) :
  String.length n = 12%nat -> String.prefix "254" n = true ->
  test [lit "7"; exactly 8 digit] (drop 3 n) = true ->
  exists d, n = ("2547" ++ d)%string /\ String.length d = 8%nat /\ all digit d = true.
Proof.
  intros L P T. apply prefix_split in P. cbn [String.length] in P.
  apply subscriber_spec in T. destruct T as (d & E & Ld & Ad).
  exists d. split; [| auto]. rewrite P, E. reflexivity.
Qed.

Lemma validate_Ok_inv (p n : string) :
  validatePhoneNumber p = Ok n ->
  p <> ""%string /\ normalize (cleaned p) = Some n
  /\ String.length n = 12%nat /\ String.prefix "254" n = true
  /\ test [lit "7"; exactly 8 digit] (drop 3 n) = true.
Proof.
  unfold validatePhoneNumber.
  destruct (String.eqb_spec p "") as [-> | Hp]; [discriminate |].
  destruct (normalize (cleaned p)) as [m |]; [| discriminate].
  destruct (Nat.eqb_spec (String.length m) 12) as [L |]; [| discriminate]. cbn [negb].
  destruct (String.prefix "254" m) eqn:P; [| discriminate]. cbn [negb].
  destruct (test [lit "7"; exactly 8 digit] (drop 3 m)) eqn:T; [| discriminate].
  cbn [negb]. intros H. injection H as <-. auto.
Qed.

Lemma validate_normal (d : string) :
  String.length d = 8%nat -> all digit d = true ->
  validatePhoneNumber ("2547" ++ d) = Ok ("2547" ++ d)%string.
Proof.
  intros L A. unfold validatePhoneNumber. push_app. cbn [String.eqb].
  assert (C : cleaned (String "2" (String "5" (String "4" (String "7" d))))
              = String "2" (String "5" (String "4" (String "7" d)))).
  { unfold cleaned. apply keep_all. cbn. apply (all_weaken digit); [| exact A].
    intros c ->. reflexivity. }
  rewrite C. unfold normalize. cbn [String.prefix].
  destruct (ascii_dec "+" "2"); [discriminate |].
  destruct (ascii_dec "2" "2"); [| congruence].
  destruct (ascii_dec "5" "5"); [| congruence].
  destruct (ascii_dec "4" "4"); [| congruence].
  cbn [String.length]. rewrite L. cbn [Nat.eqb negb].
  cbn [String.prefix].
  destruct (ascii_dec "2" "2"); [| congruence].
  destruct (ascii_dec "5" "5"); [| congruence].
  destruct (ascii_dec "4" "4"); [| congruence].
  cbn [negb drop].
  assert (T : test [lit "7"; exactly 8 digit] (String "7" d) = true).
  { apply subscriber_spec. eauto. }
  now rewrite T.
Qed.

(** X8.  Whatever spelling was accepted, the normalised number is 254
    followed by a 7 and eight digits: twelve characters, all digits. *)
Theorem validatePhoneNumber_normal_form (p n : string) :
  validatePhoneNumber p = Ok n ->
  String.length n = 12%nat
  /\ all digit n = true
  /\ exists d, n = ("2547" ++ d)%string /\ String.length d = 8%nat.
Proof.
  intros H. apply validate_Ok_inv in H. destruct H as (_ & _ & L & P & T).
  destruct (accepted_shape n L P T) as (d & -> & Ld & Ad).
  split; [exact L |]. split; [push_app; cbn [all]; now rewrite Ad | eauto].
Qed.

Lemma validatePhoneNumber_normal_form_witness :
  validatePhoneNumber "0712 345 678" = Ok "254712345678"%string
  /\ String.length "254712345678" = 12%nat.
Proof.
  split; [reflexivity |].
  exact (proj1 (validatePhoneNumber_normal_form "0712 345 678" "254712345678" eq_refl)).
Defined.

(** X9.  The normalised number is a fixed point of the validator:
    validating it again accepts it and returns it unchanged. *)
Theorem validatePhoneNumber_idempotent (p n : string) :
  validatePhoneNumber p = Ok n -> validatePhoneNumber n = Ok n.
Proof.
  intros H. apply validate_Ok_inv in H. destruct H as (_ & _ & L & P & T).
  destruct (accepted_shape n L P T) as (d & -> & Ld & Ad).
  now apply validate_normal.
Qed.

Lemma validatePhoneNumber_idempotent_witness :
  validatePhoneNumber "+254 712-345-678" = Ok "254712345678"%string
  /\ validatePhoneNumber "254712345678" = Ok "254712345678"%string.
Proof.
  split; [reflexivity |].
  exact (validatePhoneNumber_idempotent "+254 712-345-678" "254712345678" eq_refl).
Defined.

(** X10.  The three spellings of the country prefix are interchangeable:
    a leading [0], [254] or [+254] followed by the same characters gets
    the same answer, accepted or refused. *)
Theorem validatePhoneNumber_prefix_spellings (rest : string) :
  validatePhoneNumber ("0" ++ rest) = validatePhoneNumber ("254" ++ rest)
  /\ validatePhoneNumber ("+254" ++ rest) = validatePhoneNumber ("254" ++ rest).
Proof.
  unfold validatePhoneNumber, cleaned. push_app. cbn [String.eqb].
  set (f := fun c : ascii => digit c || Ascii.eqb c "+").
  change (keep f (String "0" rest)) with (String "0" (keep f rest)).
  change (keep f (String "2" (String "5" (String "4" rest))))
    with (String "2" (String "5" (String "4" (keep f rest)))).
  change (keep f (String "+" (String "2" (String "5" (String "4" rest)))))
    with (String "+" (String "2" (String "5" (String "4" (keep f rest))))).
  generalize (keep f rest). intros k. destruct k; split; reflexivity.
Qed.

(** X11.  The check 'Phone number must start with 254' can never fail:
    every branch of the normalisation yields a string with that prefix. *)
Theorem validatePhoneNumber_prefix_check_is_dead (p : string) :
  validatePhoneNumber p <> Err MustStartWith254.
Proof.
  unfold validatePhoneNumber.
  destruct (String.eqb p ""); [discriminate |].
  destruct (normalize (cleaned p)) as [m |] eqn:N; [| discriminate].
  assert (P : String.prefix "254" m = true).
  { revert N. unfold normalize.
    destruct (String.prefix "+254" (cleaned p)) eqn:P1.
    - intros H. injection H as <-. apply prefix_split in P1. rewrite P1.
      apply (prefix_app "254").
    - destruct (String.prefix "254" (cleaned p)) eqn:P2; [congruence |].
      destruct (String.prefix "0" (cleaned p));
        [intros H; injection H as <-; apply prefix_app |].
      destruct (String.length (cleaned p) =? 9)%nat; [| discriminate].
      intros H; injection H as <-; apply prefix_app. }
  rewrite P. cbn [negb].
  destruct (negb (String.length m =? 12)%nat); [discriminate |].
  destruct (negb (test [lit "7"; exactly 8 digit] (drop 3 m))); discriminate.
Qed.

(** X12.  Characters other than digits and [+] do not matter: as long
    as one of those is left, a number gets the same answer as the
    string of its digits and [+] signs. *)
Theorem validatePhoneNumber_ignores_separators (p : string) :
  cleaned p <> ""%string ->
  validatePhoneNumber p = validatePhoneNumber (cleaned p).
Proof.
  intros H. unfold validatePhoneNumber.
  assert (Hp : p <> ""%string) by (intros ->; now apply H).
  destruct (String.eqb_spec p ""); [contradiction |].
  destruct (String.eqb_spec (cleaned p) ""); [contradiction |].
  assert (E : cleaned (cleaned p) = cleaned p).
  { unfold cleaned. apply keep_all. apply all_keep. }
  now rewrite E.
Qed.

Lemma validatePhoneNumber_ignores_separators_witness :
  cleaned "(0712) 345-678" <> ""%string
  /\ validatePhoneNumber "(0712) 345-678" = validatePhoneNumber "0712345678".
Proof.
  assert (H : cleaned "(0712) 345-678" <> ""%string) by discriminate.
  split; [exact H |].
  exact (validatePhoneNumber_ignores_separators "(0712) 345-678" H).
Defined.

(** X13.  The SMS client accepts every number the validator accepted, once
    the payment service has put a [+] in front of it. *)
Theorem normalized_phone_is_valid_for_sms (p n : string) :
  validatePhoneNumber p = Ok n ->
  SmsService._isValidPhoneNumber ("+" ++ n) = true.
Proof.
  intros H. apply validate_Ok_inv in H. destruct H as (_ & _ & L & P & T).
  destruct (accepted_shape n L P T) as (d & -> & Ld & Ad).
  unfold SmsService._isValidPhoneNumber, test. push_app. apply matches_lit.
  eexists. split; [reflexivity |].
  apply (matches_last (between 10 15 digit)); [cbn; lia |].
  cbn [between cls lo hi all String.length]. rewrite Ld, Ad.
  split; [reflexivity | lia].
Qed.

Lemma normalized_phone_is_valid_for_sms_witness :
  validatePhoneNumber "712345678" = Ok "254712345678"%string
  /\ SmsService._isValidPhoneNumber "+254712345678" = true.
Proof.
  split; [reflexivity |].
  exact (normalized_phone_is_valid_for_sms "712345678" "254712345678" eq_refl).
Defined.

End PhoneSpec.

(** ** Transaction references *)

Module ReferenceSpec.
Import Regex RegexFacts TransactionReference OtpGenerator.

(** A run of characters of the class, followed by input that matches
    the remaining pieces. *)
Lemma matches_plus_chunk (f : ascii -> bool) (ch s : string) (rest : list piece) (n : nat) :
  all f ch = true -> (1 <= n + String.length ch)%nat ->
  matches_from s rest 0 = true ->
  matches_from (ch ++ s) (plus f :: rest) n = true.
Proof.
  revert n. induction ch as [| c ch IH]; intros n A L M.
  - push_app. cbn [String.length] in L.
    destruct s as [| c s].
    + cbn [matches_from finish plus lo]. cbn [matches_from] in M. rewrite M.
      rewrite andb_true_r. apply Nat.leb_le. lia.
    + rewrite matches_cons. cbn [plus lo]. rewrite M.
      replace (1 <=? n)%nat with true by (symmetry; apply Nat.leb_le; lia).
      apply orb_true_r.
  - push_app. rewrite matches_cons. cbn [all] in A. apply andb_prop in A.
    destruct A as [Ac A]. cbn [plus cls hi below]. rewrite Ac.
    rewrite IH; [reflexivity | exact A | cbn [String.length] in *; lia | exact M].
Qed.

Lemma string_of_uint_digits (d : Decimal.uint) :
  all digit (NilEmpty.string_of_uint d) = true.
Proof. induction d; cbn [NilEmpty.string_of_uint all]; try rewrite IHd; reflexivity. Qed.

Lemma toString_digits (n : Z) : all digit (toString n) = true.
Proof. apply string_of_uint_digits. Qed.

Lemma toString_nonempty (n : Z) : (1 <= String.length (toString n))%nat.
Proof.
  unfold toString.
  destruct (Z.to_N n) as [| p]; [cbn; lia |].
  pose proof (DecimalPos.Unsigned.to_uint_nonnil p) as H. cbn [N.to_uint].
  destruct (Pos.to_uint p); [congruence | ..]; cbn [NilEmpty.string_of_uint String.length]; lia.
Qed.

Lemma hexDigit_upper (n : Z) : 0 <= n < 16 -> alnum (upcase (hexDigit n)) = true.
Proof.
  intros H. rewrite <- (Z2Nat.id n) by lia.
  assert (L : (Z.to_nat n < 16)%nat) by lia.
  revert L. generalize (Z.to_nat n) as k. intros k L.
  do 16 (destruct k as [| k]; [reflexivity |]). lia.
Qed.

Lemma hexByte_upper (b : Z) :
  0 <= b < 256 -> all alnum (toUpperCase (hexByte b)) = true.
Proof.
  intros H. unfold hexByte. cbn [toUpperCase all].
  rewrite !hexDigit_upper; [reflexivity | |].
  - apply Z.mod_pos_bound. lia.
  - split; [apply Z.div_pos; lia | apply Z.div_lt_upper_bound; lia].
Qed.

Lemma toUpperCase_app (a b : string) :
  toUpperCase (a ++ b) = (toUpperCase a ++ toUpperCase b)%string.
Proof. induction a as [| c a IH]; [reflexivity |]. push_app. cbn [toUpperCase]. push_app. now rewrite IH. Qed.

Lemma random_part (b : Z * Z * Z * Z) :
  is_buffer b ->
  all alnum (toUpperCase (toHex b)) = true
  /\ String.length (toUpperCase (toHex b)) = 8%nat.
Proof.
  destruct b as [[[b0 b1] b2] b3]. intros (H0 & H1 & H2 & H3). split; [| reflexivity].
  unfold toHex. rewrite !toUpperCase_app, !all_app, !hexByte_upper by assumption.
  reflexivity.
Qed.

(** X14.  Every reference generated with a non-empty prefix of capital
    letters and digits passes [isValidTransactionReference]: the prefix,
    the clock reading in decimal and eight upper-case hexadecimal
    digits, separated by hyphens. *)
Theorem generated_reference_is_valid (prefix : string) (timestamp : Z) (b : Z * Z * Z * Z) :
  prefix <> ""%string -> all alnum prefix = true ->
  0 <= timestamp -> is_buffer b ->
  isValidTransactionReference (generateTransactionReference prefix timestamp b) = true.
Proof.
  intros Hp Ap _ Hb. destruct (random_part b Hb) as [Ar Lr].
  unfold isValidTransactionReference, generateTransactionReference. cbv zeta.
  destruct prefix as [| c prefix]; [contradiction |]. push_app. cbn [String.eqb].
  unfold test.
  apply (matches_plus_chunk alnum (String c prefix)); [exact Ap | cbn; lia |].
  push_app. apply matches_lit. eexists. split; [reflexivity |].
  apply (matches_plus_chunk digit); [apply toString_digits | pose proof (toString_nonempty timestamp); lia |].
  push_app. apply matches_lit. eexists. split; [reflexivity |].
  apply (matches_last (plus alnum)); [exact I |].
  cbn [plus cls lo hi]. rewrite Ar, Lr. split; [reflexivity | split; [lia | exact I]].
Qed.

Lemma generated_reference_is_valid_witness :
  generateTransactionReference "WS" 1700000000000 (222, 173, 190, 239)
    = "WS-1700000000000-DEADBEEF"%string
  /\ isValidTransactionReference "WS-1700000000000-DEADBEEF" = true.
Proof.
  split; [reflexivity |].
  assert (H1 : "WS"%string <> ""%string) by discriminate.
  assert (H2 : is_buffer (222, 173, 190, 239)) by (cbn; lia).
  assert (H3 : 0 <= 1700000000000) by lia.
  exact (generated_reference_is_valid "WS" 1700000000000 (222, 173, 190, 239) H1 eq_refl H3 H2).
Defined.

(** A lower-case prefix yields a reference the validator refuses. *)
Example lower_case_prefix_is_refused :
  isValidTransactionReference (generateTransactionReference "ws" 1700000000000 (1, 2, 3, 4))
  = false.
Proof. reflexivity. Qed.

End ReferenceSpec.

(** ** The SMS client *)

Module SmsSpec.
Import SmsService.

Lemma filter_partition {A} (f g : A -> bool) (l : list A) :
  (forall x, g x = negb (f x)) ->
  (List.length (List.filter f l) + List.length (List.filter g l))%nat = List.length l.
Proof.
  intros H. induction l as [| x l IH]; [reflexivity |].
  cbn [List.filter]. rewrite (H x). destruct (f x); cbn [negb List.length]; lia.
Qed.

(** X15.  Every recipient of a gateway response is counted exactly
    once, as successful or as failed: the two numbers add up to the
    total. *)
Theorem parseResponse_counts_add_up (recipients : option (list recipient)) :
  (successful (_parseResponse recipients) + failed (_parseResponse recipients))%nat
  = totalRecipients (_parseResponse recipients).
Proof.
  unfold _parseResponse. cbn [successful failed totalRecipients].
  apply filter_partition. intros r. unfold did_fail, succeeded.
  now rewrite negb_orb.
Qed.

Section Retry.
Context {E A : Type}.
Context (cfg : smsConfig).
Context (send : Z -> result E A).

Lemma delays_cons (first count : Z) :
  0 < count -> delays cfg first count = retryDelay cfg * first :: delays cfg (first + 1) (count - 1).
Proof.
  intros H. unfold delays. rewrite (seqZ_cons first count) by lia.
  rewrite fmap_cons.
  replace (Z.succ first) with (first + 1) by lia.
  replace (Z.pred count) with (count - 1) by lia. reflexivity.
Qed.

Lemma loop_until_success (k : Z) (r : A) :
  send k = Ok r -> k <= maxRetries cfg ->
  forall (left : nat) (attempt : Z) (lastError : option E) (slept : list Z),
    attempt <= k -> Z.of_nat left = maxRetries cfg - attempt + 1 ->
    (forall i, attempt <= i < k -> exists e, send i = Err e) ->
    retry_loop cfg send left attempt lastError slept
    = (Ok r, slept ++ delays cfg attempt (k - attempt)).
Proof.
  intros Hk Hmax left. induction left as [| left IH]; intros attempt lastError slept Ha Hl Hf.
  - lia.
  - cbn [retry_loop]. destruct (Z.eq_dec attempt k) as [-> | Hne].
    + rewrite Hk, Z.sub_diag. unfold delays. cbn. now rewrite app_nil_r.
    + destruct (Hf attempt ltac:(lia)) as [e He]. rewrite He.
      replace (attempt <? maxRetries cfg) with true by (symmetry; apply Z.ltb_lt; lia).
      rewrite IH by (try lia; intros i Hi; apply Hf; lia).
      rewrite (delays_cons attempt (k - attempt)) by lia.
      rewrite <- app_assoc. cbn [app]. do 4 f_equal. lia.
Qed.

Lemma loop_exhausted (e : Z -> E) :
  (forall i, 1 <= i <= maxRetries cfg -> send i = Err (e i)) ->
  forall (left : nat) (attempt : Z) (lastError : option E) (slept : list Z),
    1 <= attempt -> Z.of_nat left = maxRetries cfg - attempt + 1 ->
    (left = O -> lastError = Some (e (maxRetries cfg))) ->
    retry_loop cfg send left attempt lastError slept
    = (Err (Some (e (maxRetries cfg))), slept ++ delays cfg attempt (maxRetries cfg - attempt)).
Proof.
  intros Hf left. induction left as [| left IH]; intros attempt lastError slept Ha Hl Hlast.
  - cbn [retry_loop]. rewrite (Hlast eq_refl).
    unfold delays. rewrite seqZ_nil by lia. cbn. now rewrite app_nil_r.
  - cbn [retry_loop]. rewrite (Hf attempt) by lia.
    destruct (Z.ltb_spec attempt (maxRetries cfg)) as [L | G].
    + rewrite IH; [| lia | lia | lia].
      rewrite (delays_cons attempt (maxRetries cfg - attempt)) by lia.
      rewrite <- app_assoc. cbn [app]. do 4 f_equal. lia.
    + assert (attempt = maxRetries cfg) by lia. subst attempt.
      rewrite IH; [| lia | lia | intros _; reflexivity].
      unfold delays. rewrite !seqZ_nil by lia. reflexivity.
Qed.

(** X16.  The retry loop stops at the first attempt that succeeds, makes
    at most [maxRetries] attempts, rethrows the error of the last one,
    and sleeps [retryDelay * i] after the i-th failure, except after the
    last attempt; with [maxRetries] below 1 it makes no attempt at all
    and throws [undefined]. *)
Theorem sendWithRetry_backoff :
  (forall (k : Z) (r : A),
      1 <= k <= maxRetries cfg -> send k = Ok r ->
      (forall i, 1 <= i < k -> exists e, send i = Err e) ->
      _sendWithRetry cfg send = (Ok r, delays cfg 1 (k - 1)))
  /\ (forall e : Z -> E,
      1 <= maxRetries cfg ->
      (forall i, 1 <= i <= maxRetries cfg -> send i = Err (e i)) ->
      _sendWithRetry cfg send
      = (Err (Some (e (maxRetries cfg))), delays cfg 1 (maxRetries cfg - 1)))
  /\ (maxRetries cfg < 1 -> _sendWithRetry cfg send = (Err None, [])).
Proof.
  split; [| split].
  - intros k r Hk Hs Hf. unfold _sendWithRetry.
    rewrite (loop_until_success k r Hs ltac:(lia)); [reflexivity | lia | lia | exact Hf].
  - intros e Hm Hf. unfold _sendWithRetry.
    rewrite (loop_exhausted e Hf); [reflexivity | lia | lia | lia].
  - intros Hm. unfold _sendWithRetry.
    replace (Z.to_nat (maxRetries cfg)) with O by lia. reflexivity.
Qed.

End Retry.

(** Three attempts allowed, one second of delay. *)
Lemma sendWithRetry_backoff_witness :
  _sendWithRetry {| maxRetries := 3; retryDelay := 1000 |} flaky
  = (Ok "queued"%string, [1000; 2000]).
Proof.
  refine (proj1 (sendWithRetry_backoff {| maxRetries := 3; retryDelay := 1000 |} flaky)
                3 "queued"%string _ eq_refl _).
  - cbn. lia.
  - intros i Hi. exists "timeout"%string. unfold flaky.
    destruct (Z.ltb_spec i 3); [reflexivity | lia].
Defined.

End SmsSpec.

(** ** The payment provider client *)

Module DarajaSpec.
Import DarajaService OtpGenerator Regex RegexFacts.

Lemma fetched_token (duration : Z) (c c1 : tokenCache) (now now' : Z)
    (response : oauth_response) (token : string) :
  getAccessToken duration c now response now' = (c1, Ok token, true) ->
  token <> ""%string
  /\ c1 = {| accessToken := Some token; tokenExpiry := Some (now' + duration) |}.
Proof.
  unfold getAccessToken.
  destruct (match accessToken c with
            | Some t => match tokenExpiry c with
                        | Some expiry => if negb (String.eqb t "") && (now <? expiry) then Some t else None
                        | None => None end
            | None => None end) as [t |]; [intros H; discriminate |].
  destruct response as [| [t |]]; try discriminate.
  destruct (String.eqb_spec t ""); [discriminate |].
  intros H. injection H as <- <-. auto.
Qed.

(** X17.  A token that was fetched is served from the cache, without a
    request, at every instant before [tokenCacheDuration] has elapsed,
    whatever the endpoint would answer; from then on the endpoint is
    called again. *)
Theorem token_is_cached_until_expiry (duration : Z) (c c1 : tokenCache) (now now' : Z)
    (response : oauth_response) (token : string) :
  getAccessToken duration c now response now' = (c1, Ok token, true) ->
  forall (t t' : Z) (response' : oauth_response),
    (t < now' + duration ->
       getAccessToken duration c1 t response' t' = (c1, Ok token, false))
    /\ (now' + duration <= t ->
       snd (getAccessToken duration c1 t response' t') = true).
Proof.
  intros H t t' response'. apply fetched_token in H. destruct H as [Hne ->].
  unfold getAccessToken. cbn [accessToken tokenExpiry].
  destruct (String.eqb_spec token ""); [contradiction |]. cbn [negb andb].
  split; intros Ht.
  - replace (t <? now' + duration) with true by (symmetry; apply Z.ltb_lt; lia).
    reflexivity.
  - replace (t <? now' + duration) with false by (symmetry; apply Z.ltb_ge; lia).
    destruct response' as [| [tok |]]; try reflexivity.
    destruct (String.eqb tok ""); reflexivity.
Qed.

Lemma token_is_cached_until_expiry_witness :
  getAccessToken 3300000 emptyCache 0 (Body (Some "tok-1"%string)) 5
    = ({| accessToken := Some "tok-1"%string; tokenExpiry := Some 3300005 |},
       Ok "tok-1"%string, true)
  /\ getAccessToken 3300000
       {| accessToken := Some "tok-1"%string; tokenExpiry := Some 3300005 |}
       3300004 RequestFailed 3300004
     = ({| accessToken := Some "tok-1"%string; tokenExpiry := Some 3300005 |},
        Ok "tok-1"%string, false).
Proof.
  split; [reflexivity |].
  refine (proj1 (token_is_cached_until_expiry 3300000 emptyCache _ 0 5
                   (Body (Some "tok-1"%string)) "tok-1" eq_refl 3300004 3300004 RequestFailed) _).
  cbn. lia.
Defined.

Lemma pad2_spec (n : Z) :
  0 <= n <= 99 -> String.length (pad2 n) = 2%nat /\ all digit (pad2 n) = true.
Proof.
  intros H. unfold pad2.
  destruct (Z_lt_ge_dec n 10) as [L | G].
  - assert (String.length (toString n) = 1%nat) as E.
    { destruct (Z.eq_dec n 0) as [-> | Hn]; [reflexivity |].
      apply (GeneratorLaws.toString_length n 1); [lia | cbn; lia]. }
    unfold padStart. rewrite E.
    change (Z.to_nat (2 - Z.of_nat 1)) with 1%nat. cbn [repeat_string]. push_app.
    cbn [String.length all]. rewrite E, (ReferenceSpec.toString_digits n). auto.
  - assert (String.length (toString n) = 2%nat) as E.
    { apply (GeneratorLaws.toString_length n 2); [lia | cbn; lia]. }
    rewrite GeneratorLaws.padStart_exact by (try rewrite E; lia || reflexivity).
    split; [exact E | apply ReferenceSpec.toString_digits].
Qed.

(** X18.  For a date with a four-digit year the timestamp has the
    fourteen digits [YYYYMMDDHHmmss]; a string of that shape is what the
    callback handler parses as a date instead of falling back to the
    current time. *)
Theorem generateTimestamp_has_fourteen_digits (d : localDate) :
  1000 <= getFullYear d <= 9999 ->
  0 <= getMonth d <= 11 -> 1 <= getDate d <= 31 ->
  0 <= getHours d <= 23 -> 0 <= getMinutes d <= 59 -> 0 <= getSeconds d <= 59 ->
  String.length (_generateTimestamp d) = 14%nat
  /\ all digit (_generateTimestamp d) = true
  /\ forall now, Services._parseTransactionDate (_generateTimestamp d) now
                 = Store.DateParsed (_generateTimestamp d).
Proof.
  intros Hy Hm Hd Hh Hmi Hs.
  assert (Ly : String.length (toString (getFullYear d)) = 4%nat).
  { apply (GeneratorLaws.toString_length _ 4); [lia | cbn; lia]. }
  destruct (pad2_spec (getMonth d + 1) ltac:(lia)) as [L1 A1].
  destruct (pad2_spec (getDate d) ltac:(lia)) as [L2 A2].
  destruct (pad2_spec (getHours d) ltac:(lia)) as [L3 A3].
  destruct (pad2_spec (getMinutes d) ltac:(lia)) as [L4 A4].
  destruct (pad2_spec (getSeconds d) ltac:(lia)) as [L5 A5].
  assert (L : String.length (_generateTimestamp d) = 14%nat).
  { unfold _generateTimestamp. rewrite !length_app, Ly, L1, L2, L3, L4, L5. reflexivity. }
  split; [exact L |]. split.
  - unfold _generateTimestamp.
    rewrite !all_app, A1, A2, A3, A4, A5, (ReferenceSpec.toString_digits _). reflexivity.
  - intros now. unfold Services._parseTransactionDate. now rewrite L.
Qed.

Lemma generateTimestamp_has_fourteen_digits_witness :
  _generateTimestamp {| getFullYear := 2019; getMonth := 11; getDate := 19;
                        getHours := 10; getMinutes := 21; getSeconds := 5 |}
    = "20191219102105"%string
  /\ String.length "20191219102105" = 14%nat.
Proof.
  split; [reflexivity |].
  refine (proj1 (generateTimestamp_has_fourteen_digits
                   {| getFullYear := 2019; getMonth := 11; getDate := 19;
                      getHours := 10; getMinutes := 21; getSeconds := 5 |}
                   _ _ _ _ _ _)); cbn; lia.
Defined.

End DarajaSpec.

(** ** The life of a credential: issue, lookup, station, sweep *)

Module LifecycleSpec.
Import Store Store.otpRepository Services History CredentialSpec.

(** *** The sweep *)

Lemma sweep_row_not_stale (now : Z) (r : otp) : stale now (sweep_row now r) = false.
Proof.
  unfold sweep_row. destruct (stale now r) eqn:E; [| exact E].
  unfold stale. cbn. reflexivity.
Qed.

Lemma sweep_row_live (now t : Z) (ref : string) (r : otp) :
  now <= t -> is_live t ref (sweep_row now r) = is_live t ref r.
Proof.
  intros Ht. unfold sweep_row. destruct (stale now r) eqn:E; [| reflexivity].
  unfold stale in E. apply andb_prop in E. destruct E as [E1 E2].
  apply bool_decide_eq_true in E1. apply Z.leb_le in E2.
  unfold is_live. cbn [assign status transactionReference expiresAt].
  rewrite E1. cbn.
  replace (t <? expiresAt r) with false by (symmetry; apply Z.ltb_ge; lia).
  now rewrite !andb_false_r.
Qed.

Lemma filter_map_same {A} (P : A -> bool) (g : A -> A) (l : list A) :
  (forall x, P (g x) = P x) -> (forall x, P x = true -> g x = x) ->
  List.filter P (map g l) = List.filter P l.
Proof.
  intros H1 H2. induction l as [| x l IH]; [reflexivity |].
  cbn [map List.filter]. rewrite H1. destruct (P x) eqn:E; [| exact IH].
  now rewrite (H2 x E), IH.
Qed.

Lemma sweep_row_keeps_live (now t : Z) (ref : string) (r : otp) :
  now <= t -> is_live t ref r = true -> sweep_row now r = r.
Proof.
  intros Ht H. unfold sweep_row. destruct (stale now r) eqn:E; [| reflexivity].
  unfold stale in E. apply andb_prop in E. destruct E as [_ E2]. apply Z.leb_le in E2.
  apply is_live_spec in H. lia.
Qed.

(** X19.  The sweep only does bookkeeping: it changes the answer of no
    lookup made at or after the instant of the sweep, and therefore of
    no status query. *)
Theorem sweep_is_invisible_to_lookups (s : state) (now : Z) (ref : string) (t : Z) :
  now <= t ->
  findActiveByTransaction (otps (fst (markExpiredOTPs s now))) ref t
  = findActiveByTransaction (otps s) ref t.
Proof.
  intros Ht. unfold markExpiredOTPs, markExpired. cbn [fst otps with_otps].
  unfold findActiveByTransaction. f_equal.
  apply (filter_map_same (is_live t ref) (sweep_row now)).
  - intros x. now apply sweep_row_live.
  - intros x. now apply sweep_row_keeps_live.
Qed.

Lemma sweep_is_invisible_to_lookups_witness :
  findActiveByTransaction (otps (fst (markExpiredOTPs issued 200000))) "WS-1" 300000
  = findActiveByTransaction (otps issued) "WS-1" 300000.
Proof.
  apply (sweep_is_invisible_to_lookups issued 200000 "WS-1" 300000). lia.
Defined.

Lemma markExpiredOTPs_eq (s : state) (now : Z) :
  markExpiredOTPs s now
  = (with_otps s (map (sweep_row now) (otps s)),
     Z.of_nat (List.length (List.filter (stale now) (otps s)))).
Proof. reflexivity. Qed.

(** X20.  Sweeping twice at the same instant changes nothing the second
    time and reports zero rows; after a sweep no active row is past its
    expiry, and the number reported is the number of rows whose status
    changed. *)
Theorem sweep_is_idempotent (s : state) (now : Z) :
  markExpiredOTPs (fst (markExpiredOTPs s now)) now = (fst (markExpiredOTPs s now), 0)
  /\ Forall (fun r => status r = active -> now < expiresAt r)
            (otps (fst (markExpiredOTPs s now)))
  /\ snd (markExpiredOTPs s now)
     = Z.of_nat (List.length
         (List.filter (fun '(r, r') => negb (bool_decide (status r = status r')))
                      (zip (otps s) (otps (fst (markExpiredOTPs s now)))))).
Proof.
  rewrite (markExpiredOTPs_eq s now). cbn [fst snd].
  rewrite markExpiredOTPs_eq. cbn [otps with_otps].
  split; [| split].
  - assert (E1 : map (sweep_row now) (map (sweep_row now) (otps s))
                 = map (sweep_row now) (otps s)).
    { rewrite map_map. apply map_ext. intros r. unfold sweep_row at 1.
      now rewrite (sweep_row_not_stale now r). }
    assert (E2 : List.filter (stale now) (map (sweep_row now) (otps s)) = []).
    { apply filter_nil_iff. intros x Hx. apply in_map_iff in Hx.
      destruct Hx as (r & <- & _). apply sweep_row_not_stale. }
    rewrite E1, E2. destruct s; reflexivity.
  - apply List.Forall_forall. intros x Hx Hst. apply in_map_iff in Hx.
    destruct Hx as (r & <- & _). pose proof (sweep_row_not_stale now r) as N.
    unfold stale in N. rewrite Hst in N. cbn in N. apply Z.leb_gt in N. exact N.
  - f_equal. induction (otps s) as [| r rows IH]; [reflexivity |].
    cbn [map List.filter zip zip_with].
    assert (C : (stale now r = true /\ sweep_row now r = assign r (SetStatus expired))
                \/ (stale now r = false /\ sweep_row now r = r))
      by (unfold sweep_row; destruct (stale now r); auto).
    destruct C as [[E ->] | [E ->]]; rewrite E.
    + assert (N : bool_decide (status r = status (assign r (SetStatus expired))) = false).
      { apply bool_decide_eq_false. unfold stale in E.
        apply andb_prop in E. destruct E as [E _]. apply bool_decide_eq_true in E.
        rewrite E. discriminate. }
      rewrite N. cbn [negb List.length]. now rewrite IH.
    + rewrite bool_decide_eq_true_2 by reflexivity. cbn [negb]. exact IH.
Qed.

Ltac absurd_in H := cbv beta iota in H; discriminate H.
Ltac absurd_goal := let X := fresh in intros X; cbv beta iota in X; discriminate X.

(** *** The status queries *)

(** X21.  The status queries never report ['used'] or ['blocked'], the
    lookup they share with the verification returning only open
    credentials: the status is active, in_progress or expired, and
    [canUse] reduces to "not expired and not locked to another station". *)
Theorem status_query_never_reports_used_or_blocked (scfg : stationConfig) (s : state)
    (ref station : string) (tdb now : Z) :
  (forall st, getOTPStatus s ref tdb now = Some st ->
     os_status st = active \/ os_status st = in_progress \/ os_status st = expired)
  /\ (forall st, getOTPStatusForStation scfg s ref station tdb now = Some st ->
     (ss_status st = active \/ ss_status st = in_progress \/ ss_status st = expired)
     /\ ss_canUse st = negb (ss_expiresAt st <=? now) && negb (ss_isLockedToDifferentStation st))
  /\ (getOTPStatus s ref tdb now = None <->
      getOTPStatusForStation scfg s ref station tdb now = None).
Proof.
  unfold getOTPStatus, getOTPStatusForStation.
  destruct (findActiveByTransaction (otps s) ref tdb) as [r |] eqn:F.
  - apply findActive_In in F. destruct F as [_ Hl]. apply is_live_spec in Hl.
    destruct Hl as (_ & Hst & _).
    assert (U : bool_decide (status r = used) = false)
      by (apply bool_decide_eq_false; destruct Hst as [-> | ->]; discriminate).
    assert (B : bool_decide (status r = blocked) = false)
      by (apply bool_decide_eq_false; destruct Hst as [-> | ->]; discriminate).
    split; [| split].
    + intros st E. injection E as <-. cbn [os_status].
      destruct (expiresAt r <=? now); tauto.
    + intros st E. injection E as <-.
      cbn [ss_status ss_canUse ss_expiresAt ss_isLockedToDifferentStation].
      rewrite U, B. cbn [negb]. rewrite !andb_true_r.
      split; [destruct (expiresAt r <=? now); tauto | reflexivity].
    + split; discriminate.
  - split; [| split]; try discriminate. tauto.
Qed.

Section Lifecycle.
Context (digest : string -> string -> string).
Context (ocfg : otpConfig) (scfg : stationConfig).






Lemma nonempty_of_length (code : string) (n : nat) :
  String.length code = S n -> (code =? "")%string = false.
Proof. destruct code; [discriminate | reflexivity]. Qed.


(** X24.  The station endpoint insists on six characters whatever
    [OTP_LENGTH] is: with any other configured length (the configuration
    check admits 4 to 10) no code the generator produces is ever
    accepted, and the refusal costs no attempt. *)
Theorem station_refuses_codes_of_other_lengths (s : state) (ref station : string)
    (rb : Z * Z * Z * Z) (tdb now : Z) :
  validateOtpConfig ocfg = true -> length_cfg ocfg <> 6 ->
  ref <> ""%string -> station <> ""%string ->
  verifyOTPForStation digest ocfg scfg s ref (OtpGenerator.generateOTP ocfg rb) station tdb now
  = (s, Err MustBeSixDigits).
Proof.
  intros Hv Hlen Href Hst.
  assert (L1 : 1 <= length_cfg ocfg).
  { unfold validateOtpConfig in Hv. apply andb_prop in Hv. destruct Hv as [Hv _].
    apply andb_prop in Hv. destruct Hv as [Hv _].
    apply negb_true_iff, orb_false_elim in Hv. destruct Hv as [Hv _].
    apply Z.ltb_ge in Hv. lia. }
  pose proof (proj2 (GeneratorLaws.generateOTP_unpadded ocfg rb L1)) as Hcode.
  unfold verifyOTPForStation.
  rewrite (proj2 (String.eqb_neq _ _) Href), (proj2 (String.eqb_neq _ _) Hst).
  assert (N : (OtpGenerator.generateOTP ocfg rb =? "")%string = false).
  { destruct (OtpGenerator.generateOTP ocfg rb); [| reflexivity].
    cbn in Hcode. lia. }
  rewrite N, Hcode. cbn [orb].
  replace (Z.to_nat (length_cfg ocfg) =? 6)%nat with false; [reflexivity |].
  symmetry. apply Nat.eqb_neq. lia.
Qed.

(** X25.  [canUse] and the verification agree when the lock is enforced:
    a station whose verification succeeds had [canUse]; and when the
    query says [canUse] for a station, the right code presented by that
    station is accepted (the claimed credentials of the table carrying
    the station that claimed them). *)
Theorem canUse_agrees_with_verification (s : state) (ref code station : string)
    (tdb now : Z) (r : otp) (st : stationOtpStatus) :
  enforceStationLock scfg = true ->
  NoDup (map id (otps s)) ->
  ref <> ""%string -> station <> ""%string -> String.length code = 6%nat ->
  findActiveByTransaction (otps s) ref tdb = Some r ->
  (status r = in_progress -> stationSet r = true) ->
  right_code digest ocfg r code ->
  getOTPStatusForStation scfg s ref station tdb now = Some st ->
  ss_canUse st = true <->
  exists s' a, verifyOTPForStation digest ocfg scfg s ref code station tdb now = (s', Ok a).
Proof.
  intros Hlock ND Href Hsta Hlen F Hinv Hr Hq.
  pose proof (findActive_In _ _ _ _ F) as [Hin Hl]. apply is_live_spec in Hl.
  destruct Hl as (_ & Hst & _).
  assert (U : bool_decide (status r = used) = false)
    by (apply bool_decide_eq_false; destruct Hst as [-> | ->]; discriminate).
  assert (B : bool_decide (status r = blocked) = false)
    by (apply bool_decide_eq_false; destruct Hst as [-> | ->]; discriminate).
  unfold getOTPStatusForStation in Hq. rewrite F in Hq. injection Hq as <-.
  cbn [ss_canUse]. rewrite U, B, Hlock. cbn [negb andb]. rewrite !andb_true_r.
  unfold verifyOTPForStation.
  rewrite (proj2 (String.eqb_neq _ _) Href), (proj2 (String.eqb_neq _ _) Hsta).
  rewrite (nonempty_of_length _ _ Hlen), Hlen. cbn [orb negb Nat.eqb].
  rewrite F, U, B, Hlock. cbn [andb].
  destruct (expiresAt r <=? now) eqn:E.
  - cbn [negb andb]. split; [discriminate |].
    intros (s' & a & X).
    destruct (update (otps s) (id r) [SetStatus expired]) as [[rows u] |];
      cbv beta iota in X; discriminate.
  - cbn [negb andb].
    destruct (stationSet r && negb (bool_decide (stationId r = Some station))) eqn:L.
    + cbn [negb]. split; [discriminate | intros (s' & a & X); absurd_in X].
    + cbn [negb]. split; [intros _ | reflexivity].
      assert (P : bool_decide (status r = in_progress)
                  && negb (bool_decide (stationId r = Some station)) = false).
      { destruct (bool_decide_reflect (status r = in_progress)) as [Ip |]; [| reflexivity].
        rewrite (Hinv Ip) in L. exact L. }
      rewrite P. unfold right_code in Hr. rewrite Hr.
      rewrite (markInProgress_ok _ _ _ _ ND Hin). eauto.
Qed.

(** X26.  The number of attempts announced after a wrong code is at least
    one, and it is the number the status query reports next,
    for the same credential. *)
Theorem announced_attempts_match_status (s s' : state) (ref code station : string)
    (tdb now : Z) (k : Z) :
  consistent tdb s -> tdb <= now ->
  verifyOTPForStation digest ocfg scfg s ref code station tdb now
    = (s', Err (InvalidRemaining k)) ->
  1 <= k
  /\ exists r,
       findActiveByTransaction (otps s) ref tdb = Some r
       /\ k = maxAttempts r - (attempts r + 1)
       /\ forall (station' : string) (tdb' now' : Z),
            now <= tdb' -> tdb' < expiresAt r ->
            exists st,
              getOTPStatusForStation scfg s' ref station' tdb' now' = Some st
              /\ ss_remainingAttempts st = k
              /\ ss_attempts st = attempts r + 1.
Proof.
  intros C Ht H. pose proof (ids_unique _ _ C) as ND.
  unfold verifyOTPForStation in H.
  destruct (_ || _ || _); [absurd_in H |].
  destruct (negb _); [absurd_in H |].
  destruct (findActiveByTransaction (otps s) ref tdb) as [r |] eqn:F; [| absurd_in H].
  pose proof (findActive_In _ _ _ _ F) as [Hin Hl].
  destruct (expiresAt r <=? now).
  { rewrite (update_ok _ _ _ _ ND Hin) in H. absurd_in H. }
  destruct (bool_decide (status r = used)); [absurd_in H |].
  destruct (bool_decide (status r = blocked)); [absurd_in H |].
  destruct (_ && _ && _); [absurd_in H |].
  destruct (_ && _); [absurd_in H |].
  destruct (OtpGenerator.verifyOTP digest ocfg code (otpHash r)) as [[|] |];
    [| | absurd_in H].
  - rewrite (markInProgress_ok _ _ _ _ ND Hin) in H. absurd_in H.
  - rewrite (incrementAttempts_ok _ _ ND Hin) in H. cbv beta iota in H.
    destruct (bool_decide_reflect (status (bump r) = blocked)) as [Bl | Nb]; [absurd_in H |].
    injection H as <- <-. cbn [bump maxAttempts attempts].
    assert (Hk : 1 <= maxAttempts r - (attempts r + 1)).
    { unfold bump in Nb. cbn [status] in Nb.
      destruct (Z.leb_spec (maxAttempts r) (attempts r + 1)); [now destruct Nb | lia]. }
    split; [exact Hk |]. exists r. split; [reflexivity |]. split; [reflexivity |].
    intros station' tdb' now' T1 T2.
    assert (Lb : is_live tdb' ref (bump r) = true).
    { apply is_live_spec in Hl. destruct Hl as (Hrf & Hs & _).
      apply is_live_spec. cbn [bump transactionReference status expiresAt].
      destruct (Z.leb_spec (maxAttempts r) (attempts r + 1)); [lia |]. auto. }
    assert (F' : findActiveByTransaction (update_where (id r) bump (otps s)) ref tdb'
                 = Some (bump r)).
    { unfold findActiveByTransaction.
      assert (E : List.filter (is_live tdb' ref) (update_where (id r) bump (otps s)) = [bump r]).
      { clear - C Hin Hl Lb T1 Ht ND. pose proof (one_live _ _ C ref) as One.
        unfold live_rows in One.
        assert (G : forall x, In x (otps s) -> is_live tdb ref x = true -> x = r).
        { intros x Hx Lx. exact (live_unique tdb s ref x r C Hx Hin Lx Hl). }
        revert G ND Hin. generalize (otps s) as rows. clear One C.
        induction rows as [| x rows IH]; intros G ND Hin; [destruct Hin |].
        cbn [update_where map List.filter]. fold (update_where (id r) bump rows).
        cbn [map] in ND. apply NoDup_cons in ND. destruct ND as [Nx ND].
        destruct (Z.eqb_spec (id x) (id r)) as [Ex | Nx'].
        - assert (x = r).
          { destruct Hin as [-> | Hin]; [reflexivity |]. exfalso. apply Nx.
            rewrite Ex. apply list_elem_of_In. now apply in_map. }
          subst x. rewrite Lb. f_equal.
          apply filter_nil_iff. intros y Hy. apply update_where_In in Hy.
          destruct Hy as (z & Hz & ->).
          destruct (Z.eqb_spec (id z) (id r)) as [Ez |].
          + exfalso. apply Nx. rewrite <- Ez. apply list_elem_of_In. now apply in_map.
          + destruct (is_live tdb' ref z) eqn:Lz; [| reflexivity].
            apply (live_later tdb) in Lz; [| lia].
            rewrite (G z (or_intror Hz) Lz) in *. contradiction.
        - destruct Hin as [-> | Hin]; [contradiction |].
          destruct (is_live tdb' ref x) eqn:Lx.
          + apply (live_later tdb) in Lx; [| lia].
            rewrite (G x (or_introl eq_refl) Lx) in Nx'. contradiction.
          + apply IH; auto. intros y Hy. apply G. now right. }
      now rewrite E. }
    unfold getOTPStatusForStation. cbn [otps with_otps]. rewrite F'.
    eexists. split; [reflexivity |]. cbn. split; reflexivity.
Qed.

(** X27.  A credential that has run out is reported as missing: once the
    database clock has passed the expiry of every credential of the
    reference, the answer is 'OTP not found or expired' (404); the
    answer 'OTP has expired' (400) requires a credential that runs out
    between the lookup and the check that follows it. *)
Theorem expired_credential_is_reported_missing (s : state) (ref code station : string)
    (tdb now : Z) :
  ref <> ""%string -> station <> ""%string -> String.length code = 6%nat ->
  ((forall x, In x (otps s) -> transactionReference x = ref -> expiresAt x <= tdb) ->
     verifyOTPForStation digest ocfg scfg s ref code station tdb now
     = (s, Err NotFoundOrExpired))
  /\ (forall s', verifyOTPForStation digest ocfg scfg s ref code station tdb now
                 = (s', Err HasExpired) ->
      exists r, In r (otps s) /\ transactionReference r = ref
                /\ tdb < expiresAt r <= now).
Proof.
  intros Href Hsta Hlen. unfold verifyOTPForStation.
  rewrite (proj2 (String.eqb_neq _ _) Href), (proj2 (String.eqb_neq _ _) Hsta).
  rewrite (nonempty_of_length _ _ Hlen), Hlen. cbn [orb negb Nat.eqb].
  split.
  - intros Hall.
    replace (findActiveByTransaction (otps s) ref tdb) with (@None otp); [reflexivity |].
    symmetry. apply findActive_None. intros x Hx.
    destruct (is_live tdb ref x) eqn:L; [| reflexivity].
    apply is_live_spec in L. destruct L as (Hr & _ & Hexp).
    specialize (Hall x Hx Hr). lia.
  - intros s'.
    destruct (findActiveByTransaction (otps s) ref tdb) as [r |] eqn:F; [| absurd_goal].
    pose proof (findActive_In _ _ _ _ F) as [Hin Hl].
    apply is_live_spec in Hl. destruct Hl as (Hr & _ & Hexp).
    destruct (Z.leb_spec (expiresAt r) now) as [Le | Gt].
    + intros _. exists r. repeat split; auto.
    + destruct (bool_decide (status r = used)); [absurd_goal |].
      destruct (bool_decide (status r = blocked)); [absurd_goal |].
      destruct (_ && _ && _); [absurd_goal |].
      destruct (_ && _); [absurd_goal |].
      destruct (OtpGenerator.verifyOTP digest ocfg code (otpHash r)) as [[|] |];
        [| | absurd_goal].
      * unfold markInProgress. destruct (returning _ _); absurd_goal.
      * unfold incrementAttempts. destruct (returning _ _) as [u |]; [| absurd_goal].
        cbv beta iota. destruct (bool_decide _); absurd_goal.
Qed.

End Lifecycle.

(** *** The same, on the default deployment *)




Lemma station_refuses_codes_of_other_lengths_witness :
  validateOtpConfig four_digits = true
  /\ OtpGenerator.generateOTP four_digits (0, 0, 0, 0) = "1000"%string
  /\ verifyOTPForStation plain_digest four_digits defaultStationConfig shop_no_cache
       "WS-1" "1000" "STATION001" 0 0
     = (shop_no_cache, Err MustBeSixDigits).
Proof.
  split; [reflexivity |]. split; [reflexivity |].
  assert (L : length_cfg four_digits <> 6) by discriminate.
  assert (N1 : "WS-1"%string <> ""%string) by discriminate.
  assert (N2 : "STATION001"%string <> ""%string) by discriminate.
  exact (station_refuses_codes_of_other_lengths plain_digest four_digits defaultStationConfig
           shop_no_cache "WS-1" "STATION001" (0, 0, 0, 0) 0 0 eq_refl L N1 N2).
Defined.

Lemma claimed_row :
  exists r, findActiveByTransaction (otps claimed) "WS-1" 2000 = Some r
            /\ status r = in_progress /\ stationId r = Some "STATION001"%string
            /\ otpHash r = "100000"%string /\ expiresAt r = 600000
            /\ map id (otps claimed) = [1].
Proof.
  destruct (findActiveByTransaction (otps claimed) "WS-1" 2000) as [r |] eqn:F;
    [| vm_compute in F; discriminate F].
  exists r. split; [reflexivity |].
  vm_compute in F. injection F as <-. repeat split; vm_compute; reflexivity.
Qed.

Lemma canUse_agrees_with_verification_witness :
  exists st,
    getOTPStatusForStation defaultStationConfig claimed "WS-1" "STATION002" 2000 2000 = Some st
    /\ ss_isLockedToDifferentStation st = true
    /\ (ss_canUse st = true <->
        exists s' a, demo_station claimed "100000" "STATION002" 2000 = (s', Ok a)).
Proof.
  destruct claimed_row as (r & F & Hs & Hst & Hh & _ & Hids).
  destruct (getOTPStatusForStation defaultStationConfig claimed "WS-1" "STATION002" 2000 2000)
    as [st |] eqn:Q; [| vm_compute in Q; discriminate Q].
  exists st. split; [reflexivity |]. split.
  - unfold getOTPStatusForStation in Q. rewrite F in Q. injection Q as <-.
    cbn [ss_isLockedToDifferentStation]. unfold stationSet. rewrite Hst. reflexivity.
  - assert (ND : NoDup (map id (otps claimed))) by (rewrite Hids; apply NoDup_singleton).
    assert (N1 : "WS-1"%string <> ""%string) by discriminate.
    assert (N2 : "STATION002"%string <> ""%string) by discriminate.
    assert (Hset : status r = in_progress -> stationSet r = true)
      by (intros _; unfold stationSet; rewrite Hst; reflexivity).
    assert (Hr : right_code plain_digest defaultOtpConfig r "100000")
      by (unfold right_code; rewrite Hh; reflexivity).
    exact (canUse_agrees_with_verification plain_digest defaultOtpConfig defaultStationConfig
             claimed "WS-1" "100000" "STATION002" 2000 2000 r st eq_refl ND N1 N2 eq_refl
             F Hset Hr Q).
Defined.

Lemma announced_attempts_match_status_witness :
  exists s',
    demo_station issued "000000" "STATION001" 1000 = (s', Err (InvalidRemaining 2))
    /\ exists st,
         getOTPStatusForStation defaultStationConfig s' "WS-1" "STATION002" 2000 2000 = Some st
         /\ ss_remainingAttempts st = 2 /\ ss_attempts st = 1.
Proof.
  destruct (demo_station issued "000000" "STATION001" 1000) as [s' res] eqn:H.
  assert (E : snd (demo_station issued "000000" "STATION001" 1000) = Err (InvalidRemaining 2))
    by (vm_compute; reflexivity).
  rewrite H in E. cbn [snd] in E. subst res.
  exists s'. split; [reflexivity |].
  assert (T : 0 <= 1000) by lia.
  destruct (announced_attempts_match_status plain_digest defaultOtpConfig defaultStationConfig
              issued s' "WS-1" "000000" "STATION001" 0 1000 2 (issued_consistent 0) T)
    as (_ & r & F & Ek & Hq).
  - unfold demo_station in H. 
    assert (S0 : verifyOTPForStation plain_digest defaultOtpConfig defaultStationConfig issued
                   "WS-1" "000000" "STATION001" 0 1000
                 = verifyOTPForStation plain_digest defaultOtpConfig defaultStationConfig issued
                   "WS-1" "000000" "STATION001" 1000 1000) by (vm_compute; reflexivity).
    rewrite S0. exact H.
  - assert (T1 : 1000 <= 2000) by lia.
    assert (T2 : 2000 < expiresAt r).
    { vm_compute in F. injection F as <-. reflexivity. }
    destruct (Hq "STATION002" 2000 2000 T1 T2) as (st & Q & R & A).
    exists st. split; [exact Q |]. split; [exact R |].
    rewrite A. vm_compute in F. injection F as <-. reflexivity.
Defined.

Lemma expired_credential_is_reported_missing_witness :
  demo_station issued "100000" "STATION001" 600000 = (issued, Err NotFoundOrExpired).
Proof.
  assert (N1 : "WS-1"%string <> ""%string) by discriminate.
  assert (N2 : "STATION001"%string <> ""%string) by discriminate.
  refine (proj1 (expired_credential_is_reported_missing plain_digest defaultOtpConfig
                   defaultStationConfig issued "WS-1" "100000" "STATION001" 600000 600000
                   N1 N2 eq_refl) _).
  intros x Hx _.
  assert (E : map expiresAt (otps issued) = [600000]) by (vm_compute; reflexivity).
  apply (in_map expiresAt) in Hx. rewrite E in Hx.
  destruct Hx as [<- | []]. lia.
Defined.

End LifecycleSpec.

(** ** The payment callback *)

Module CallbackSpec.
Import Store Services History CredentialSpec.

Lemma readItem_keeps_date (m : callbackMetadata) (k v : string) :
  k <> "TransactionDate"%string ->
  cm_transactionDate (readItem m (k, v)) = cm_transactionDate m.
Proof.
  intros Hk. unfold readItem.
  destruct (String.eqb k "Amount"); [reflexivity |].
  destruct (String.eqb k "MpesaReceiptNumber"); [reflexivity |].
  destruct (String.eqb_spec k "TransactionDate"); [contradiction |].
  destruct (String.eqb k "PhoneNumber"); reflexivity.
Qed.

Lemma no_date_item (items : list (string * string)) (m : callbackMetadata) :
  (forall v, ~ In ("TransactionDate"%string, v) items) ->
  cm_transactionDate (fold_left readItem items m) = cm_transactionDate m.
Proof.
  revert m. induction items as [| [k v] items IH]; intros m H; [reflexivity |].
  cbn [fold_left]. rewrite IH.
  - apply readItem_keeps_date. intros ->. apply (H v). now left.
  - intros v' Hin. apply (H v'). now right.
Qed.

Lemma status_of_zero (code : Z) : statusOfResultCode code = completed <-> code = 0.
Proof.
  unfold statusOfResultCode. destruct (Z.eqb_spec code 0) as [-> | N]; [tauto |].
  destruct (code =? 1032); [split; [discriminate | contradiction] |].
  destruct (code =? 1037); split; try discriminate; contradiction.
Qed.

Section Callbacks.
Context (digest : string -> string -> string).
Context (ocfg : otpConfig).

(** X28.  A success callback that carries no [TransactionDate] item is
    answered with 'Callback processing failed' (500) before anything is
    written: the payment is not marked completed and no credential is
    issued. *)
Theorem success_callback_without_date_is_dropped (s : state) (d : callbackData)
    (body : stkCallback) (tx : mpesa_transaction) (rb : Z * Z * Z * Z) (tdb now : Z) :
  Body d = Some (Some body) -> ResultCode body = 0 ->
  (forall items, CallbackMetadata body = Some items ->
     forall v, ~ In ("TransactionDate"%string, v) items) ->
  mpesaTransactionRepository.findByCheckoutRequestId (mpesa_transactions s)
    (CheckoutRequestID body) = Some tx ->
  handleCallback digest ocfg s d rb tdb now = (s, Err CallbackProcessingFailed)
  /\ statusCode CallbackProcessingFailed = 500.
Proof.
  intros Hb Hc Hitems Htx. split; [| reflexivity].
  unfold handleCallback, validateCallback. rewrite Hb, Hc.
  cbn [p_checkoutRequestId p_resultCode p_callbackMetadata Z.eqb]. rewrite Htx.
  change (statusOfResultCode 0) with completed.
  rewrite bool_decide_eq_true_2 by reflexivity.
  assert (E : cm_transactionDate
                match CallbackMetadata body with
                | Some items => fold_left readItem items (mkMeta None None None None)
                | None => mkMeta None None None None
                end = None).
  { destruct (CallbackMetadata body) as [items |] eqn:Ei; [| reflexivity].
    rewrite no_date_item; [reflexivity | now apply Hitems]. }
  now rewrite E.
Qed.

Lemma callback_Ok_inv (s s' : state) (d : callbackData) (rb : Z * Z * Z * Z)
    (tdb now : Z) (u : mpesa_transaction) :
  handleCallback digest ocfg s d rb tdb now = (s', Ok u) ->
  exists p tx rows x,
    validateCallback d = Ok p
    /\ mpesaTransactionRepository.findByCheckoutRequestId (mpesa_transactions s)
         (p_checkoutRequestId p) = Some tx
    /\ In x (mpesa_transactions s) /\ m_reference x = m_reference tx
    /\ m_reference u = m_reference tx
    /\ m_status u = statusOfResultCode (p_resultCode p)
    /\ m_resultCode u = Some (p_resultCode p)
    /\ m_resultDesc u = Some (p_resultDesc p)
    /\ m_liters u = m_liters x /\ m_phoneNumber u = m_phoneNumber x
    /\ (if bool_decide (statusOfResultCode (p_resultCode p) = completed)
        then s' = let '(s2, r) := generateOTP digest ocfg (with_mpesa s rows) (m_reference tx)
                                    (m_liters tx) rb tdb now in
                  match r with
                  | Ok otpData =>
                      with_sms s2
                        {| sms_phoneNumber := ("+" ++ m_phoneNumber tx)%string;
                           sms_otp := g_otp otpData;
                           sms_liters := m_liters tx;
                           sms_expiresInMinutes := g_expiresInMinutes otpData |}
                  | Err _ => s2
                  end
        else s' = with_mpesa s rows).
Proof.
  intros H. unfold handleCallback in H.
  destruct (validateCallback d) as [p | e]; [| discriminate].
  destruct (mpesaTransactionRepository.findByCheckoutRequestId (mpesa_transactions s) _)
    as [tx |] eqn:Ftx; [| discriminate].
  exists p, tx.
  destruct (bool_decide (statusOfResultCode (p_resultCode p) = completed)) eqn:Est.
  - destruct (cm_transactionDate (p_callbackMetadata p)) as [dateStr |]; [| discriminate].
    set (f := fun t : mpesa_transaction => mkMpesa _ _ _ _ _ _ _ _ _) in H.
    destruct (mpesaTransactionRepository.update (mpesa_transactions s) (m_reference tx) f)
      as [[rows u'] | e] eqn:U; [| discriminate].
    destruct (mpesa_update_inv _ _ _ f _ (fun x => eq_refl) U) as (_ & x & Hx & Rx & Eu).
    exists rows, x.
    destruct (generateOTP digest ocfg (with_mpesa s rows) _ _ rb tdb now) as [s2 [g | e]] eqn:G;
      injection H as <- <-; subst u'; repeat split; auto.
  - set (f := fun t : mpesa_transaction => mkMpesa _ _ _ _ _ _ _ _ _) in H.
    destruct (mpesaTransactionRepository.update (mpesa_transactions s) (m_reference tx) f)
      as [[rows u'] | e] eqn:U; [| discriminate].
    destruct (mpesa_update_inv _ _ _ f _ (fun x => eq_refl) U) as (_ & x & Hx & Rx & Eu).
    exists rows, x. injection H as <- <-. subst u'. repeat split; auto.
Qed.

(** X29.  A mobile payment whose reference has no row in the
    hosted-checkout table is marked completed by its success callback
    but gets no credential: the issue that the handler attempts looks the
    reference up in that other table, fails with 'Transaction not
    found', and the failure is swallowed: no row is added to the
    credential table, nothing is cached and no SMS is handed over. *)
Theorem payment_without_checkout_row_gets_no_credential (s s' : state) (d : callbackData)
    (rb : Z * Z * Z * Z) (tdb now : Z) (u : mpesa_transaction) :
  handleCallback digest ocfg s d rb tdb now = (s', Ok u) ->
  m_status u = completed ->
  transactionRepository.findByReference (transactions s) (m_reference u) = None ->
  s' = with_mpesa s (mpesa_transactions s')
  /\ otps s' = otps s /\ sms_outbox s' = sms_outbox s /\ redis_keys s' = redis_keys s.
Proof.
  intros H Hst Hnone.
  destruct (callback_Ok_inv s s' d rb tdb now u H)
    as (p & tx & rows & x & _ & _ & _ & _ & Ru & Su & _ & _ & _ & _ & Hs').
  rewrite <- Su, Hst in Hs'. rewrite bool_decide_eq_true_2 in Hs' by reflexivity.
  rewrite Ru in Hnone.
  assert (G : generateOTP digest ocfg (with_mpesa s rows) (m_reference tx) (m_liters tx) rb tdb now
              = (with_mpesa s rows, Err TransactionNotFound)).
  { unfold generateOTP. cbn [transactions with_mpesa]. now rewrite Hnone. }
  rewrite G in Hs'. subst s'. cbn. auto.
Qed.

(** X30.  A callback with a result code other than 0 records the outcome
    the code stands for (1032 cancelled, 1037 timeout, anything else
    failed), whatever the status was before, and touches nothing but the
    payment table: no credential, no cache entry, no SMS. *)
Theorem failure_callback_only_records_the_outcome (s s' : state) (d : callbackData)
    (p : parsedCallback) (rb : Z * Z * Z * Z) (tdb now : Z) (u : mpesa_transaction) :
  validateCallback d = Ok p -> p_resultCode p <> 0 ->
  handleCallback digest ocfg s d rb tdb now = (s', Ok u) ->
  m_status u = (if p_resultCode p =? 1032 then cancelled
                else if p_resultCode p =? 1037 then timeout else failed)
  /\ m_resultCode u = Some (p_resultCode p)
  /\ s' = with_mpesa s (mpesa_transactions s')
  /\ otps s' = otps s /\ sms_outbox s' = sms_outbox s /\ redis_keys s' = redis_keys s.
Proof.
  intros Hv Hc H.
  destruct (callback_Ok_inv s s' d rb tdb now u H)
    as (p' & tx & rows & x & Hv' & _ & _ & _ & _ & Su & Cu & _ & _ & _ & Hs').
  rewrite Hv in Hv'. injection Hv' as <-.
  assert (N : statusOfResultCode (p_resultCode p) <> completed).
  { intros X. now apply status_of_zero in X. }
  rewrite bool_decide_eq_false_2 in Hs' by exact N. subst s'.
  split.
  - rewrite Su. unfold statusOfResultCode.
    destruct (Z.eqb_spec (p_resultCode p) 0); [contradiction | reflexivity].
  - cbn. auto.
Qed.

End Callbacks.

(** *** The same, on the default deployment *)

Lemma success_callback_without_date_is_dropped_witness :
  handleCallback plain_digest defaultOtpConfig shop_mpesa dateless_callback (0, 0, 0, 0) 0 0
  = (shop_mpesa, Err CallbackProcessingFailed).
Proof.
  refine (proj1 (success_callback_without_date_is_dropped plain_digest defaultOtpConfig
                   shop_mpesa dateless_callback _ _ (0, 0, 0, 0) 0 0
                   eq_refl eq_refl _ eq_refl)).
  intros items E v Hin. injection E as <-.
  repeat (destruct Hin as [Hin | Hin]; [discriminate Hin |]). destruct Hin.
Defined.

Lemma payment_without_checkout_row_gets_no_credential_witness :
  exists s' u,
    handleCallback plain_digest defaultOtpConfig shop_unpaired success_callback
                   (0, 0, 0, 0) 0 0 = (s', Ok u)
    /\ m_status u = completed /\ otps s' = [] /\ sms_outbox s' = [].
Proof.
  destruct (handleCallback plain_digest defaultOtpConfig shop_unpaired success_callback
              (0, 0, 0, 0) 0 0) as [s' [u | e]] eqn:H; [| vm_compute in H; discriminate H].
  assert (E : match snd (handleCallback plain_digest defaultOtpConfig shop_unpaired
                           success_callback (0, 0, 0, 0) 0 0) with
              | Ok u => Some (m_status u, m_reference u)
              | Err _ => None
              end = Some (completed, "WS-1"%string)) by (vm_compute; reflexivity).
  rewrite H in E. cbn [snd] in E. injection E as Est Eref.
  assert (N : transactionRepository.findByReference (transactions shop_unpaired)
                (m_reference u) = None) by (rewrite Eref; reflexivity).
  destruct (payment_without_checkout_row_gets_no_credential plain_digest defaultOtpConfig
              shop_unpaired s' success_callback (0, 0, 0, 0) 0 0 u H Est N)
    as (_ & Ho & Hs & _).
  exists s', u. split; [reflexivity |]. split; [exact Est |].
  split; [exact Ho | exact Hs].
Defined.

Lemma failure_callback_only_records_the_outcome_witness :
  exists s' u,
    handleCallback plain_digest defaultOtpConfig delivered_once cancel_callback
                   (0, 0, 0, 1) 1000 1000 = (s', Ok u)
    /\ m_status u = cancelled
    /\ otps s' = otps delivered_once /\ sms_outbox s' = sms_outbox delivered_once.
Proof.
  destruct (handleCallback plain_digest defaultOtpConfig delivered_once cancel_callback
              (0, 0, 0, 1) 1000 1000) as [s' [u | e]] eqn:H; [| vm_compute in H; discriminate H].
  destruct (validateCallback cancel_callback) as [p | e] eqn:V; [| discriminate V].
  assert (Ec : p_resultCode p = 1032) by (injection V as <-; reflexivity).
  assert (Hc : p_resultCode p <> 0) by (rewrite Ec; discriminate).
  destruct (failure_callback_only_records_the_outcome plain_digest defaultOtpConfig
              delivered_once s' cancel_callback p (0, 0, 0, 1) 1000 1000 u V Hc H)
    as (Hst & _ & _ & Ho & Hs & _).
  exists s', u. split; [reflexivity |]. rewrite Ec in Hst.
  split; [exact Hst |]. split; [exact Ho | exact Hs].
Defined.

(** The cancellation arrived after the payment had been completed and
    its code sent: the payment now reads cancelled, the code stays
    valid. *)
Example late_cancellation_overwrites_completed :
  map m_status (mpesa_transactions delivered_once) = [completed]
  /\ map m_status
       (mpesa_transactions
          (fst (handleCallback plain_digest defaultOtpConfig delivered_once cancel_callback
                  (0, 0, 0, 1) 1000 1000))) = [cancelled]
  /\ map status
       (otps (fst (handleCallback plain_digest defaultOtpConfig delivered_once cancel_callback
                     (0, 0, 0, 1) 1000 1000))) = [active].
Proof. vm_compute. repeat split; reflexivity. Qed.

End CallbackSpec.
